(** * gpud: OS collector states, NVSwitch SXid log classifier, reboot runner

    A shallow embedding of the Go sources
      - components/os/component_output.go
      - components/accelerator/nvidia/query/sxid/dmesg.go
      - pkg/reboot/reboot.go
      - components/accelerator/nvidia/query (GPU presence / PCI listing)
      - components/common (SuggestedActions)
    together with the parts of the Go standard library they call
    (strconv, fmt's %d and %s verbs, strings.Contains, unicode/utf8,
    encoding/json for the Output struct, the one regular expression of
    the SXid matcher).  The definitions come first, package by package;
    the statements about them follow.

    Conventions.  A Go [string] is a sequence of bytes: it is a Rocq
    [string] (one [ascii] per byte).  [uint64] and [int] (64 bit) are [Z]
    with their range stated where it matters.  A [map[string]string] is a
    [gmap string string]; reading a missing key yields the zero value. *)

From Stdlib Require Import ZArith String Ascii List Lia Bool.
From stdpp Require Import base option gmap strings list.

Local Open Scope string_scope.
Local Open Scope Z_scope.

(** ** Outcome of a Go function returning [(T, error)] where exactly one of
    the two is meaningful. *)
Inductive result (A E : Type) : Type :=
| Ok (a : A)
| Fail (e : E).
Arguments Ok {A E} a.
Arguments Fail {A E} e.

Definition is_ok {A E} (r : result A E) : bool :=
  match r with Ok _ => true | Fail _ => false end.

Definition is_fail {A E} (r : result A E) : bool := negb (is_ok r).

(** ** Bytes *)

Definition byte_val (c : ascii) : Z := Z.of_N (N_of_ascii c).
Definition byte_of (z : Z) : ascii := ascii_of_N (Z.to_N (z mod 256)).

Definition is_digit (c : ascii) : bool :=
  (48 <=? byte_val c) && (byte_val c <=? 57).

(** The double quote. *)
Definition dquote : ascii := "034"%char.

(** [s] with every apostrophe replaced by a double quote: the way JSON
    texts are written in this file. *)
Fixpoint with_quotes (s : string) : string :=
  match s with
  | EmptyString => EmptyString
  | String c s' => String (if Ascii.eqb c "'" then dquote else c) (with_quotes s')
  end.

(** A literal at the head of [s]: what follows it. *)
Fixpoint literal (lit s : string) : option string :=
  match lit, s with
  | EmptyString, _ => Some s
  | String a lit', String c s' => if Ascii.eqb c a then literal lit' s' else None
  | String _ _, EmptyString => None
  end.

(** The longest run of decimal digits at the head of [s], and what
    follows it. *)
Fixpoint span_digits (s : string) : string * string :=
  match s with
  | String c s' =>
      if is_digit c then let '(ds, rest) := span_digits s' in (String c ds, rest)
      else (EmptyString, s)
  | EmptyString => (EmptyString, EmptyString)
  end.

(* ===================================================================== *)
(** * Package strconv (base 10, 64-bit) *)
(* ===================================================================== *)
Module strconv.

Inductive Err := ErrSyntax | ErrRange.

(** [*strconv.NumError] *)
Record NumError := mkNumError { Func : string; Num : string; Err_ : Err }.

Definition syntaxError (fn str : string) : NumError := mkNumError fn str ErrSyntax.
Definition rangeError (fn str : string) : NumError := mkNumError fn str ErrRange.

Definition maxUint64 : Z := 2 ^ 64 - 1.
Definition minInt64 : Z := - 2 ^ 63.
Definition maxInt64 : Z := 2 ^ 63 - 1.

(** The decimal digits of [u], as the digit loop of [formatBits] computes
    them: [for u >= b { q := u / b; a[i] = digits[u - q*b]; u = q }]
    followed by the last digit.  (For base 10 [formatBits] takes two digits
    per step from a table; the text is the same.)  The buffer [a] is
    filled from the right, so the digits are consed onto [acc].  A 64-bit
    value has at most 20 digits, which bounds the loop. *)
Fixpoint formatBits (fuel : nat) (u : Z) (acc : string) : string :=
  match fuel with
  | O => acc
  | S fuel' =>
      if u <? 10 then String (byte_of (48 + u)) acc
      else let q := u / 10 in
           formatBits fuel' q (String (byte_of (48 + (u - q * 10))) acc)
  end.

(** [strconv.FormatUint(u, 10)]; [fmt.Sprintf("%d", u)] writes the same
    text for a [uint64]. *)
Definition FormatUint (u : Z) : string := formatBits 20 u "".

(** [strconv.FormatInt(i, 10)]; [fmt.Sprintf("%d", i)] writes the same
    text for an [int]. *)
Definition FormatInt (i : Z) : string :=
  if i <? 0 then String "-"%char (formatBits 20 (- i) "") else formatBits 20 i "".

(** The digit loop of [ParseUint] for [base = 10], [bitSize = 64]:
    [cutoff = maxUint64/10 + 1], [maxVal = maxUint64].  [s0] is the whole
    argument, kept for the error value.  The test [n1 < n || n1 > maxVal]
    of the source detects the wrap-around of [n + d]; on [Z] nothing wraps
    and it is [maxVal < n1]. *)
Definition cutoff10 : Z := maxUint64 / 10 + 1.

Fixpoint ParseUint_loop (fn s0 : string) (n : Z) (s : string) : Z * option NumError :=
  match s with
  | EmptyString => (n, None)
  | String c s' =>
      if is_digit c then
        let d := byte_val c - 48 in
        if cutoff10 <=? n then (maxUint64, Some (rangeError fn s0))
        else
          let n := n * 10 in
          let n1 := n + d in
          if maxUint64 <? n1 then (maxUint64, Some (rangeError fn s0))
          else ParseUint_loop fn s0 n1 s'
      else (0, Some (syntaxError fn s0))
  end.

(** [strconv.ParseUint(s, 10, 64)] (and [bitSize = 0], which is 64 here). *)
Definition ParseUint (s : string) : Z * option NumError :=
  match s with
  | EmptyString => (0, Some (syntaxError "ParseUint" s))
  | _ => ParseUint_loop "ParseUint" s 0 s
  end.

(** [strconv.ParseInt(s, 10, 0)]. *)
Definition ParseInt (s : string) : Z * option NumError :=
  match s with
  | EmptyString => (0, Some (syntaxError "ParseInt" s))
  | String c rest =>
      let s0 := s in
      let '(neg, s) :=
        if Ascii.eqb c "+"%char then (false, rest)
        else if Ascii.eqb c "-"%char then (true, rest)
        else (false, s) in
      let '(un, err) := ParseUint s in
      let not_range :=
        match err with
        | Some e => match Err_ e with ErrRange => false | ErrSyntax => true end
        | None => false
        end in
      if not_range then (0, option_map (fun e => mkNumError "ParseInt" s0 (Err_ e)) err)
      else
        (* on a range error [un] is [maxUint64] and one of the two checks fires *)
        let cutoff := 2 ^ 63 in
        if negb neg && (cutoff <=? un) then (cutoff - 1, Some (rangeError "ParseInt" s0))
        else if neg && (cutoff <? un) then (- cutoff, Some (rangeError "ParseInt" s0))
        else (if neg then - un else un, None)
  end.

(** The fast path of [Atoi]: no overflow checks, [ch -= '0'] is byte
    arithmetic, [n] is an [int] (wraps at 64 bits). *)
Definition wrap_int64 (z : Z) : Z := (z + 2 ^ 63) mod 2 ^ 64 - 2 ^ 63.

Fixpoint Atoi_fast_loop (s0 : string) (n : Z) (s : string) : Z * option NumError :=
  match s with
  | EmptyString => (n, None)
  | String ch s' =>
      let ch := (byte_val ch - 48) mod 256 in
      if 9 <? ch then (0, Some (syntaxError "Atoi" s0))
      else Atoi_fast_loop s0 (wrap_int64 (n * 10 + ch)) s'
  end.

(** [strconv.Atoi(s)] with [intSize = 64]. *)
Definition Atoi (s : string) : Z * option NumError :=
  let sLen := Z.of_nat (String.length s) in
  if (0 <? sLen) && (sLen <? 19) then
    match s with
    | EmptyString => (0, Some (syntaxError "Atoi" s)) (* unreachable: 0 < sLen *)
    | String c rest =>
        let s0 := s in
        let signed := Ascii.eqb c "-"%char || Ascii.eqb c "+"%char in
        let s := if signed then rest else s in
        if signed && (Z.of_nat (String.length s) <? 1) then (0, Some (syntaxError "Atoi" s0))
        else
          let '(n, err) := Atoi_fast_loop s0 0 s in
          match err with
          | Some e => (0, Some e)
          | None => (if Ascii.eqb c "-"%char then wrap_int64 (- n) else n, None)
          end
    end
  else
    let '(i64, err) := ParseInt s in
    (i64, option_map (fun e => mkNumError "Atoi" (Num e) (Err_ e)) err).

(** ** Shapes of decimal text, for the statements about it *)

(** [s] starts with a digit. *)
Definition head_digit (s : string) : Prop :=
  match s with
  | String c _ => is_digit c = true
  | EmptyString => False
  end.

(** [s] is made of digits only. *)
Fixpoint all_digits (s : string) : Prop :=
  match s with
  | EmptyString => True
  | String c s' => is_digit c = true /\ all_digits s'
  end.

(** The number that a text made of digits writes in base 10, read from
    the left with [n] as the digits already read. *)
Fixpoint decimal_value_from (n : Z) (s : string) : Z :=
  match s with
  | EmptyString => n
  | String c s' => decimal_value_from (n * 10 + (byte_val c - 48)) s'
  end.

Definition decimal_value (s : string) : Z := decimal_value_from 0 s.

End strconv.


(* ===================================================================== *)
(** * Package unicode/utf8 *)
(* ===================================================================== *)
Module utf8.

Definition RuneError : Z := 0xFFFD.
Definition RuneSelf : Z := 0x80.
Definition MaxRune : Z := 0x10FFFF.
Definition surrogateMin : Z := 0xD800.
Definition surrogateMax : Z := 0xDFFF.

Definition tx : Z := 0x80.
Definition t2 : Z := 0xC0.
Definition t3 : Z := 0xE0.
Definition t4 : Z := 0xF0.

Definition maskx : Z := 0x3F.
Definition mask2 : Z := 0x1F.
Definition mask3 : Z := 0x0F.
Definition mask4 : Z := 0x07.

Definition rune1Max : Z := 0x7F.
Definition rune2Max : Z := 0x7FF.
Definition rune3Max : Z := 0xFFFF.

Definition locb : Z := 0x80.
Definition hicb : Z := 0xBF.

(** Information about the first byte of an encoding: [xx] invalid, [as_]
    ASCII, otherwise the size in the low bits and the index of the accept
    range of the second byte in the high bits. *)
Definition xx : Z := 0xF1.
Definition as_ : Z := 0xF0.
Definition s1 : Z := 0x02.
Definition s2 : Z := 0x13.
Definition s3 : Z := 0x03.
Definition s4 : Z := 0x23.
Definition s5 : Z := 0x34.
Definition s6 : Z := 0x04.
Definition s7 : Z := 0x44.

(** The table [first], by ranges of the byte. *)
Definition first (b : Z) : Z :=
  if b <? 0x80 then as_
  else if b <? 0xC2 then xx
  else if b <? 0xE0 then s1
  else if b =? 0xE0 then s2
  else if b <? 0xED then s3
  else if b =? 0xED then s4
  else if b <? 0xF0 then s3
  else if b =? 0xF0 then s5
  else if b <? 0xF4 then s6
  else if b =? 0xF4 then s7
  else xx.

(** The table [acceptRanges]: [(lo, hi)] for the second byte. *)
Definition acceptRanges (i : Z) : Z * Z :=
  if i =? 0 then (locb, hicb)
  else if i =? 1 then (0xA0, hicb)
  else if i =? 2 then (locb, 0x9F)
  else if i =? 3 then (0x90, hicb)
  else if i =? 4 then (locb, 0x8F)
  else (0, 0).

(** [utf8.DecodeRuneInString(s)]: the first rune of [s] and its width in
    bytes; [(RuneError, 1)] for an invalid encoding. *)
Definition DecodeRuneInString (s : string) : Z * nat :=
  match s with
  | EmptyString => (RuneError, 0%nat)
  | String c0 r0 =>
      let n := String.length s in
      let s0 := byte_val c0 in
      let x := first s0 in
      if as_ <=? x then ((if Z.testbit x 0 then RuneError else s0), 1%nat)
      else
        let sz := Z.to_nat (Z.land x 7) in
        let accept := acceptRanges (Z.shiftr x 4) in
        if (n <? sz)%nat then (RuneError, 1%nat)
        else
          match r0 with
          | EmptyString => (RuneError, 1%nat)
          | String c1 r1 =>
              let s1 := byte_val c1 in
              if (s1 <? fst accept) || (snd accept <? s1) then (RuneError, 1%nat)
              else if (sz <=? 2)%nat then
                (Z.lor (Z.shiftl (Z.land s0 mask2) 6) (Z.land s1 maskx), 2%nat)
              else
                match r1 with
                | EmptyString => (RuneError, 1%nat)
                | String c2 r2 =>
                    let s2 := byte_val c2 in
                    if (s2 <? locb) || (hicb <? s2) then (RuneError, 1%nat)
                    else if (sz <=? 3)%nat then
                      (Z.lor (Z.lor (Z.shiftl (Z.land s0 mask3) 12)
                                    (Z.shiftl (Z.land s1 maskx) 6))
                             (Z.land s2 maskx), 3%nat)
                    else
                      match r2 with
                      | EmptyString => (RuneError, 1%nat)
                      | String c3 _ =>
                          let s3 := byte_val c3 in
                          if (s3 <? locb) || (hicb <? s3) then (RuneError, 1%nat)
                          else
                            (Z.lor (Z.lor (Z.lor (Z.shiftl (Z.land s0 mask4) 18)
                                                 (Z.shiftl (Z.land s1 maskx) 12))
                                          (Z.shiftl (Z.land s2 maskx) 6))
                                   (Z.land s3 maskx), 4%nat)
                      end
                end
          end
  end.

(** [byte(x)]: truncation to eight bits. *)
Definition byte (z : Z) : Z := z mod 256.

Definition encode3 (r : Z) : string :=
  String (byte_of (Z.lor t3 (byte (Z.shiftr r 12))))
    (String (byte_of (Z.lor tx (Z.land (byte (Z.shiftr r 6)) maskx)))
       (String (byte_of (Z.lor tx (Z.land (byte r) maskx))) EmptyString)).

Definition encode4 (r : Z) : string :=
  String (byte_of (Z.lor t4 (byte (Z.shiftr r 18))))
    (String (byte_of (Z.lor tx (Z.land (byte (Z.shiftr r 12)) maskx)))
       (String (byte_of (Z.lor tx (Z.land (byte (Z.shiftr r 6)) maskx)))
          (String (byte_of (Z.lor tx (Z.land (byte r) maskx))) EmptyString))).

(** [utf8.EncodeRune] / [utf8.AppendRune]: the bytes of a rune.  The
    comparisons are made on [uint32(r)], so a negative rune is out of
    range and is encoded as [RuneError]. *)
Definition EncodeRune (r : Z) : string :=
  if (0 <=? r) && (r <=? rune1Max) then String (byte_of (byte r)) EmptyString
  else if (0 <=? r) && (r <=? rune2Max) then
    String (byte_of (Z.lor t2 (byte (Z.shiftr r 6))))
      (String (byte_of (Z.lor tx (Z.land (byte r) maskx))) EmptyString)
  else if (r <? 0) || (MaxRune <? r) || ((surrogateMin <=? r) && (r <=? surrogateMax)) then
    encode3 RuneError
  else if r <=? rune3Max then encode3 r
  else encode4 r.

(** [s[n:]] and [s[:n]] *)
Fixpoint drop (n : nat) (s : string) : string :=
  match n, s with
  | O, _ => s
  | S n', String _ s' => drop n' s'
  | S _, EmptyString => EmptyString
  end.

Fixpoint take (n : nat) (s : string) : string :=
  match n, s with
  | O, _ => EmptyString
  | S n', String c s' => String c (take n' s')
  | S _, EmptyString => EmptyString
  end.

(** [utf8.ValidString(s)]: no position of [s] decodes to an invalid
    encoding.  Every step consumes at least one byte, so the length of [s]
    bounds the loop. *)
Fixpoint ValidString_loop (fuel : nat) (s : string) : bool :=
  match s with
  | EmptyString => true
  | String c rest =>
      match fuel with
      | O => false
      | S fuel' =>
          if byte_val c <? RuneSelf then ValidString_loop fuel' rest
          else
            let '(_, size) := DecodeRuneInString s in
            if (size =? 1)%nat then false
            else ValidString_loop fuel' (drop size s)
      end
  end.

Definition ValidString (s : string) : bool := ValidString_loop (String.length s) s.

(** ** The cases of [DecodeRuneInString], for the statements about it *)

(** The classes of a first byte that is not ASCII. *)
Inductive first_class (a0 : Z) : Z -> Z -> Z -> Prop :=
| fc_s1 : 0xC2 <= a0 <= 0xDF -> first_class a0 s1 0x80 0xBF
| fc_s2 : a0 = 0xE0 -> first_class a0 s2 0xA0 0xBF
| fc_s3 : 0xE1 <= a0 <= 0xEC \/ 0xEE <= a0 <= 0xEF -> first_class a0 s3 0x80 0xBF
| fc_s4 : a0 = 0xED -> first_class a0 s4 0x80 0x9F
| fc_s5 : a0 = 0xF0 -> first_class a0 s5 0x90 0xBF
| fc_s6 : 0xF1 <= a0 <= 0xF3 -> first_class a0 s6 0x80 0xBF
| fc_s7 : a0 = 0xF4 -> first_class a0 s7 0x80 0x8F.

(** The byte [c] is outside of the range from [lo] to [hi]. *)
Definition out_of (lo hi : Z) (c : ascii) : bool := (byte_val c <? lo) || (hi <? byte_val c).

(** The rune of an encoding of two, three and four bytes. *)
Definition rune_2 (c0 c1 : ascii) : Z :=
  Z.lor (Z.shiftl (Z.land (byte_val c0) mask2) 6) (Z.land (byte_val c1) maskx).

Definition rune_3 (c0 c1 c2 : ascii) : Z :=
  Z.lor (Z.lor (Z.shiftl (Z.land (byte_val c0) mask3) 12)
               (Z.shiftl (Z.land (byte_val c1) maskx) 6))
        (Z.land (byte_val c2) maskx).

Definition rune_4 (c0 c1 c2 c3 : ascii) : Z :=
  Z.lor (Z.lor (Z.lor (Z.shiftl (Z.land (byte_val c0) mask4) 18)
                      (Z.shiftl (Z.land (byte_val c1) maskx) 12))
               (Z.shiftl (Z.land (byte_val c2) maskx) 6))
        (Z.land (byte_val c3) maskx).

End utf8.

(* ===================================================================== *)
(** * Package encoding/json, as far as a struct of strings and integers
      needs it

    [Marshal] is [render] applied to the value that the fields of the
    struct make.  [Unmarshal] checks that the whole text is one JSON value
    and then stores it, field by field, by the type of each field; here the
    text is first parsed into a [value] ([parse]) and the value is then
    stored (the functions [set_*] and [*_fields] of package os), which
    gives the same result and the same failures. *)
(* ===================================================================== *)
Module json.

(** A JSON text, parsed.  A number keeps its literal, as the decoder does
    until it knows the type of the field it is stored in. *)
#[warnings="-register-all"]
Inductive value :=
| Null
| Bool (b : bool)
| Number (lit : string)
| Str (s : string)
| Array (elems : list value)
| Object (members : list (string * value)).

(** ** Encoding *)

Definition hex : string := "0123456789abcdef".

Definition hex_at (i : Z) : ascii :=
  match String.get (Z.to_nat i) hex with
  | Some c => c
  | None => "0"%char
  end.

(** [htmlSafeSet[b]]: the ASCII characters written as they are: all from
    the space on but the double quote, [&], [<], [>] and the backslash. *)
Definition htmlSafeSet (b : Z) : bool :=
  (0x20 <=? b) && (b <? 0x80) &&
  negb ((b =? 0x22) || (b =? 0x26) || (b =? 0x3C) || (b =? 0x3E) || (b =? 0x5C)).

(** The escape of an ASCII character that is not in [htmlSafeSet].  (Before
    Go 1.22 the backspace and the form feed were written [\u0008] and
    [\u000c]; both forms decode to the same character.) *)
Definition escape_ascii (c : ascii) : string :=
  let b := byte_val c in
  if (b =? 0x5C) || (b =? 0x22) then String "\" (String c EmptyString)
  else if b =? 0x08 then "\b"
  else if b =? 0x0C then "\f"
  else if b =? 0x0A then "\n"
  else if b =? 0x0D then "\r"
  else if b =? 0x09 then "\t"
  else "\u00" ++ String (hex_at (Z.shiftr b 4)) (String (hex_at (Z.land b 0xF)) EmptyString).

(** The loop of [appendString(dst, src, escapeHTML = true)], one character
    of [src] per step; what is returned is what the loop appends to [dst].
    Invalid UTF-8 is replaced by the escape of U+FFFD; U+2028 and U+2029
    are escaped. *)
Fixpoint appendString_loop (fuel : nat) (src : string) : string :=
  match src with
  | EmptyString => EmptyString
  | String c rest =>
      match fuel with
      | O => EmptyString
      | S fuel' =>
          if byte_val c <? utf8.RuneSelf then
            (if htmlSafeSet (byte_val c) then String c EmptyString else escape_ascii c)
              ++ appendString_loop fuel' rest
          else
            let '(r, size) := utf8.DecodeRuneInString src in
            if (r =? utf8.RuneError) && (size =? 1)%nat then
              "\ufffd" ++ appendString_loop fuel' (utf8.drop size src)
            else if (r =? 0x2028) || (r =? 0x2029) then
              ("\u202" ++ String (hex_at (Z.land r 0xF)) EmptyString)
                ++ appendString_loop fuel' (utf8.drop size src)
            else
              utf8.take size src ++ appendString_loop fuel' (utf8.drop size src)
      end
  end.

(** A string as a JSON string literal. *)
Definition appendString (src : string) : string :=
  String dquote (appendString_loop (String.length src) src ++ String dquote EmptyString).

Fixpoint render (v : value) : string :=
  match v with
  | Null => "null"
  | Bool true => "true"
  | Bool false => "false"
  | Number lit => lit
  | Str s => appendString s
  | Array elems =>
      "[" ++
      (fix elements (l : list value) : string :=
         match l with
         | [] => EmptyString
         | [x] => render x
         | x :: l' => render x ++ "," ++ elements l'
         end) elems
      ++ "]"
  | Object members =>
      "{" ++
      (fix fields (l : list (string * value)) : string :=
         match l with
         | [] => EmptyString
         | [(k, x)] => appendString k ++ ":" ++ render x
         | (k, x) :: l' => appendString k ++ ":" ++ render x ++ "," ++ fields l'
         end) members
      ++ "}"
  end.

(** The elements of an array and the members of an object, as [render]
    writes them between the brackets. *)
Definition elements (l : list value) : string :=
  (fix elements (l : list value) : string :=
     match l with
     | [] => EmptyString
     | [x] => render x
     | x :: l' => render x ++ "," ++ elements l'
     end) l.

Definition fields (l : list (string * value)) : string :=
  (fix fields (l : list (string * value)) : string :=
     match l with
     | [] => EmptyString
     | [(k, x)] => appendString k ++ ":" ++ render x
     | (k, x) :: l' => appendString k ++ ":" ++ render x ++ "," ++ fields l'
     end) l.

(** ** Decoding *)

Definition hexval (c : ascii) : option Z :=
  let b := byte_val c in
  if (0x30 <=? b) && (b <=? 0x39) then Some (b - 0x30)
  else if (0x61 <=? b) && (b <=? 0x66) then Some (b - 0x61 + 10)
  else if (0x41 <=? b) && (b <=? 0x46) then Some (b - 0x41 + 10)
  else None.

(** [getu4(s)]: the code unit of a [\uXXXX] at the head of [s], or -1. *)
Definition getu4 (s : string) : Z :=
  match s with
  | String b0 (String b1 (String h0 (String h1 (String h2 (String h3 _))))) =>
      if Ascii.eqb b0 "\" && Ascii.eqb b1 "u" then
        match hexval h0, hexval h1, hexval h2, hexval h3 with
        | Some d0, Some d1, Some d2, Some d3 => ((d0 * 16 + d1) * 16 + d2) * 16 + d3
        | _, _, _, _ => -1
        end
      else -1
  | _ => -1
  end.

(** [utf16.IsSurrogate] and [utf16.DecodeRune] *)
Definition IsSurrogate (r : Z) : bool := (0xd800 <=? r) && (r <? 0xe000).

Definition utf16_DecodeRune (r1 r2 : Z) : Z :=
  if (0xd800 <=? r1) && (r1 <? 0xdc00) && (0xdc00 <=? r2) && (r2 <? 0xe000)
  then Z.lor (Z.shiftl (r1 - 0xd800) 10) (r2 - 0xdc00) + 0x10000
  else utf8.RuneError.

(** The contents of a string literal, from just after the opening quote:
    the decoded string and what follows the closing quote.  This is the
    scanner's check of the literal (no raw control character, only the
    escapes of JSON) and [unquote] in one pass; UTF-8 that is not well
    formed is coerced to U+FFFD, a surrogate pair is combined, a lone
    surrogate becomes U+FFFD. *)
Fixpoint unquote_loop (fuel : nat) (s : string) : option (string * string) :=
  match fuel with
  | O => None
  | S fuel' =>
      match s with
      | EmptyString => None
      | String c rest =>
          let b := byte_val c in
          let emit (out s' : string) :=
            match unquote_loop fuel' s' with
            | Some (t, after) => Some (out ++ t, after)
            | None => None
            end in
          if b =? 0x22 then Some (EmptyString, rest)
          else if b =? 0x5C then
            match rest with
            | EmptyString => None
            | String e rest' =>
                let eb := byte_val e in
                if (eb =? 0x22) || (eb =? 0x5C) || (eb =? 0x2F) then emit (String e EmptyString) rest'
                else if eb =? 0x62 then emit (String "008" EmptyString) rest'
                else if eb =? 0x66 then emit (String "012" EmptyString) rest'
                else if eb =? 0x6E then emit (String "010" EmptyString) rest'
                else if eb =? 0x72 then emit (String "013" EmptyString) rest'
                else if eb =? 0x74 then emit (String "009" EmptyString) rest'
                else if eb =? 0x75 then
                  let rr := getu4 s in
                  if rr <? 0 then None
                  else
                    let s6 := utf8.drop 6 s in
                    if IsSurrogate rr then
                      let rr1 := getu4 s6 in
                      let dec := utf16_DecodeRune rr rr1 in
                      if negb (dec =? utf8.RuneError)
                      then emit (utf8.EncodeRune dec) (utf8.drop 6 s6)
                      else emit (utf8.EncodeRune utf8.RuneError) s6
                    else emit (utf8.EncodeRune rr) s6
                else None
            end
          else if b <? 0x20 then None
          else if b <? utf8.RuneSelf then emit (String c EmptyString) rest
          else
            let '(rr, size) := utf8.DecodeRuneInString s in
            emit (utf8.EncodeRune rr) (utf8.drop size s)
      end
  end.

(** A string literal whose opening quote has been read. *)
Definition unquote (s : string) : option (string * string) :=
  unquote_loop (String.length s) s.

(** A number literal at the head of [s], by the grammar of JSON: an
    optional minus sign; then a zero, or a digit from 1 to 9 and any number
    of digits; then optionally a point and one digit or more; then
    optionally [e] or [E], an optional sign and one digit or more.  Each
    part returns what it read and what follows. *)
Definition scan_sign (s : string) : string * string :=
  match s with
  | String c t => if Ascii.eqb c "-" then ("-", t) else (EmptyString, s)
  | EmptyString => (EmptyString, s)
  end.

Definition scan_int (s : string) : option (string * string) :=
  match s with
  | String c t =>
      if Ascii.eqb c "0" then Some ("0", t)
      else if is_digit c then let '(ds, r) := span_digits t in Some (String c ds, r)
      else None
  | EmptyString => None
  end.

Definition scan_frac (s : string) : option (string * string) :=
  match s with
  | String c t =>
      if Ascii.eqb c "." then
        match span_digits t with
        | (String d ds, r) => Some (String c (String d ds), r)
        | (EmptyString, _) => None
        end
      else Some (EmptyString, s)
  | EmptyString => Some (EmptyString, s)
  end.

Definition scan_exp (s : string) : option (string * string) :=
  match s with
  | String c t =>
      if Ascii.eqb c "e" || Ascii.eqb c "E" then
        let '(sg, t') :=
          match t with
          | String g u =>
              if Ascii.eqb g "+" || Ascii.eqb g "-" then (String g EmptyString, u)
              else (EmptyString, t)
          | EmptyString => (EmptyString, t)
          end in
        match span_digits t' with
        | (String d ds, r) => Some (String c (sg ++ String d ds), r)
        | (EmptyString, _) => None
        end
      else Some (EmptyString, s)
  | EmptyString => Some (EmptyString, s)
  end.

Definition scan_number (s : string) : option (string * string) :=
  let '(sign, s1) := scan_sign s in
  match scan_int s1 with
  | None => None
  | Some (ip, r1) =>
      match scan_frac r1 with
      | None => None
      | Some (fp, r2) =>
          match scan_exp r2 with
          | None => None
          | Some (ep, r3) => Some (sign ++ ip ++ fp ++ ep, r3)
          end
      end
  end.

Definition is_space (c : ascii) : bool :=
  Ascii.eqb c " " || Ascii.eqb c "009" || Ascii.eqb c "013" || Ascii.eqb c "010".

Fixpoint skip_ws (s : string) : string :=
  match s with
  | String c t => if is_space c then skip_ws t else s
  | EmptyString => EmptyString
  end.

(** The members of an object after its opening brace, the first of which
    exists: [key : value] separated by commas, up to the closing brace.
    [pv] parses a value.  Every member reads at least one character, so the
    length of the text bounds the loop. *)
Fixpoint parse_members (pv : string -> option (value * string)) (fuel : nat) (s : string)
  : option (list (string * value) * string) :=
  match fuel with
  | O => None
  | S fuel' =>
      match skip_ws s with
      | String q t =>
          if Ascii.eqb q dquote then
            match unquote t with
            | Some (key, t1) =>
                match skip_ws t1 with
                | String colon t2 =>
                    if Ascii.eqb colon ":" then
                      match pv t2 with
                      | Some (v, t3) =>
                          match skip_ws t3 with
                          | String sep t4 =>
                              if Ascii.eqb sep "," then
                                match parse_members pv fuel' t4 with
                                | Some (ms, r) => Some ((key, v) :: ms, r)
                                | None => None
                                end
                              else if Ascii.eqb sep "}" then Some ([(key, v)], t4)
                              else None
                          | EmptyString => None
                          end
                      | None => None
                      end
                    else None
                | EmptyString => None
                end
            | None => None
            end
          else None
      | EmptyString => None
      end
  end.

(** The elements of an array after its opening bracket, the first of which
    exists. *)
Fixpoint parse_elements (pv : string -> option (value * string)) (fuel : nat) (s : string)
  : option (list value * string) :=
  match fuel with
  | O => None
  | S fuel' =>
      match pv s with
      | Some (v, t) =>
          match skip_ws t with
          | String sep t' =>
              if Ascii.eqb sep "," then
                match parse_elements pv fuel' t' with
                | Some (vs, r) => Some (v :: vs, r)
                | None => None
                end
              else if Ascii.eqb sep "]" then Some ([v], t')
              else None
          | EmptyString => None
          end
      | None => None
      end
  end.

(** One JSON value at the head of [s], after optional white space, and
    what follows it; [fuel] bounds the nesting. *)
Fixpoint parse_value (fuel : nat) (s : string) : option (value * string) :=
  match fuel with
  | O => None
  | S fuel' =>
      match skip_ws s with
      | EmptyString => None
      | String c t =>
          if Ascii.eqb c "{" then
            match skip_ws t with
            | String c' t' =>
                if Ascii.eqb c' "}" then Some (Object [], t')
                else
                  match parse_members (parse_value fuel') (String.length t) t with
                  | Some (ms, r) => Some (Object ms, r)
                  | None => None
                  end
            | EmptyString => None
            end
          else if Ascii.eqb c "[" then
            match skip_ws t with
            | String c' t' =>
                if Ascii.eqb c' "]" then Some (Array [], t')
                else
                  match parse_elements (parse_value fuel') (String.length t) t with
                  | Some (vs, r) => Some (Array vs, r)
                  | None => None
                  end
            | EmptyString => None
            end
          else if Ascii.eqb c dquote then
            match unquote t with
            | Some (str, r) => Some (Str str, r)
            | None => None
            end
          else if Ascii.eqb c "-" || is_digit c then
            match scan_number (String c t) with
            | Some (lit, r) => Some (Number lit, r)
            | None => None
            end
          else
            match literal "true" (String c t), literal "false" (String c t),
                  literal "null" (String c t) with
            | Some r, _, _ => Some (Bool true, r)
            | _, Some r, _ => Some (Bool false, r)
            | _, _, Some r => Some (Null, r)
            | None, None, None => None
            end
      end
  end.

(** A whole JSON text: one value, with nothing but white space around it.
    [fuel] bounds the nesting of arrays and objects; every level of nesting
    reads at least one character, so the length of the text is enough. *)
Definition parse (data : string) : option value :=
  match parse_value (S (String.length data)) data with
  | Some (v, rest) =>
      match skip_ws rest with
      | EmptyString => Some v
      | String _ _ => None
      end
  | None => None
  end.

(** ** Matching an object key with a field name: the exact name, or the
    name up to the case of ASCII letters.  (The decoder folds the case by
    the simple folding of Unicode, under which the Kelvin sign and the
    long s also match [k] and [s]; these two are left out.) *)
Definition lower (c : ascii) : ascii :=
  if (0x41 <=? byte_val c) && (byte_val c <=? 0x5A) then byte_of (byte_val c + 0x20) else c.

Fixpoint fold_name (s : string) : string :=
  match s with
  | EmptyString => EmptyString
  | String c t => String (lower c) (fold_name t)
  end.

Definition key_is (key name : string) : bool :=
  String.eqb key name || String.eqb (fold_name key) (fold_name name).

(** ** The values that [render] writes and [parse_value] reads back *)

(** What may follow a number: nothing, or a character that cannot go on
    with the literal. *)
Definition stops (rest : string) : Prop :=
  match rest with
  | EmptyString => True
  | String c _ =>
      is_digit c = false /\ Ascii.eqb c "." = false /\
      Ascii.eqb c "e" = false /\ Ascii.eqb c "E" = false
  end.

(** A literal that the scanner reads as one number, whatever stops it. *)
Definition num_lit (lit : string) : Prop :=
  (exists c l, lit = String c l /\ (c = "-"%char \/ is_digit c = true)) /\
  forall rest, stops rest -> scan_number (lit ++ rest) = Some (lit, rest).

(** [fits n v]: the strings of [v] are valid UTF-8, its numbers are
    literals of JSON, and it nests arrays and objects less than [n] deep. *)
#[warnings="-register-all"]
Inductive fits : nat -> value -> Prop :=
| fits_Null n : fits (S n) Null
| fits_Bool n b : fits (S n) (Bool b)
| fits_Number n lit : num_lit lit -> fits (S n) (Number lit)
| fits_Str n s : utf8.ValidString s = true -> fits (S n) (Str s)
| fits_Array n l : Forall (fits n) l -> fits (S n) (Array l)
| fits_Object n ms :
    Forall (fun kv => utf8.ValidString (fst kv) = true /\ fits n (snd kv)) ms ->
    fits (S n) (Object ms).

(** What one step of [unquote_loop] makes of the rest of the literal. *)
Definition emit (out : string) (r : option (string * string)) : option (string * string) :=
  match r with
  | Some (t, after) => Some (out ++ t, after)
  | None => None
  end.

(** What a rendered value starts with: never white space, never a closing
    bracket. *)
Definition opens (s : string) : Prop :=
  exists c t, s = String c t /\ is_space c = false /\
              Ascii.eqb c "]" = false /\ Ascii.eqb c "}" = false.

End json.
(* ===================================================================== *)
(** * Package components: the Health State *)
(* ===================================================================== *)
Module components.

Record State := mkState {
  Name : string;
  Healthy : bool;
  Reason : string;
  ExtraInfo : gmap string string;
}.

End components.

(** [m[k]] on a Go map: the zero value when the key is absent. *)
Definition map_get (m : gmap string string) (k : string) : string :=
  default "" (m !! k).

(* ===================================================================== *)
(** * Package os: components/os/component_output.go *)
(* ===================================================================== *)
Module os.
Import components.

Record Host := mkHost { Host_ID : string }.

Record Kernel := mkKernel { Kernel_Arch : string; Kernel_Version : string }.

Record Platform := mkPlatform {
  Platform_Name : string;
  Platform_Family : string;
  Platform_Version : string;
}.

Record Uptimes := mkUptimes {
  Seconds : Z;                      (* uint64 *)
  SecondsHumanized : string;
  BootTimeUnixSeconds : Z;          (* uint64 *)
  BootTimeHumanized : string;
}.

Record Output := mkOutput {
  Host_ : Host;
  Kernel_ : Kernel;
  Platform_ : Platform;
  Uptimes_ : Uptimes;
  ProcessCountZombieProcesses : Z;  (* int *)
}.

(** The values a Go program can hold in these fields. *)
Definition is_uint64 (z : Z) : Prop := 0 <= z <= strconv.maxUint64.
Definition is_int (z : Z) : Prop := strconv.minInt64 <= z <= strconv.maxInt64.

Definition Output_wf (o : Output) : Prop :=
  is_uint64 (Seconds (Uptimes_ o)) /\
  is_uint64 (BootTimeUnixSeconds (Uptimes_ o)) /\
  is_int (ProcessCountZombieProcesses o).

(** Zero values. *)
Definition Host_zero := mkHost "".
Definition Kernel_zero := mkKernel "" "".
Definition Platform_zero := mkPlatform "" "" "".
Definition Uptimes_zero := mkUptimes 0 "" 0 "".
Definition Output_zero := mkOutput Host_zero Kernel_zero Platform_zero Uptimes_zero 0.

Definition StateNameHost := "host".
Definition StateKeyHostID := "id".

Definition StateNameKernel := "kernel".
Definition StateKeyKernelArch := "arch".
Definition StateKeyKernelVersion := "version".

Definition StateNamePlatform := "platform".
Definition StateKeyPlatformName := "name".
Definition StateKeyPlatformFamily := "family".
Definition StateKeyPlatformVersion := "version".

Definition StateNameUptimes := "uptimes".
Definition StateKeyUptimesSeconds := "uptime_seconds".
Definition StateKeyUptimesHumanized := "uptime_humanized".
Definition StateKeyUptimesBootTimeUnixSeconds := "boot_time_unix_seconds".
Definition StateKeyUptimesBootTimeHumanized := "boot_time_humanized".

Definition StateNameProcessCountsByStatus := "process_counts_by_status".
Definition StateKeyProcessCountZombieProcesses := "process_count_zombie_processes".

(** The errors these functions can return. *)
Inductive error :=
| ErrNum (e : strconv.NumError)
| ErrUnknownStateName (name : string)   (* fmt.Errorf("unknown state name: %s", name) *)
| ErrSyntax                             (* *json.SyntaxError *)
| ErrUnmarshalType.                     (* *json.UnmarshalTypeError *)

(** ** JSON

    [json.Marshal] writes the fields of a struct in the order of their
    declaration, under the names of their [json] tags; a string is quoted
    by [appendString], an integer is written in decimal. *)
Definition Host_toJSON (h : Host) : json.value :=
  json.Object [("id", json.Str (Host_ID h))].

Definition Kernel_toJSON (k : Kernel) : json.value :=
  json.Object [("arch", json.Str (Kernel_Arch k)); ("version", json.Str (Kernel_Version k))].

Definition Platform_toJSON (p : Platform) : json.value :=
  json.Object [("name", json.Str (Platform_Name p));
               ("family", json.Str (Platform_Family p));
               ("version", json.Str (Platform_Version p))].

Definition Uptimes_toJSON (u : Uptimes) : json.value :=
  json.Object [("seconds", json.Number (strconv.FormatUint (Seconds u)));
               ("seconds_humanized", json.Str (SecondsHumanized u));
               ("boot_time_unix_seconds", json.Number (strconv.FormatUint (BootTimeUnixSeconds u)));
               ("boot_time_humanized", json.Str (BootTimeHumanized u))].

Definition Output_toJSON (o : Output) : json.value :=
  json.Object [("host", Host_toJSON (Host_ o));
               ("kernel", Kernel_toJSON (Kernel_ o));
               ("platform", Platform_toJSON (Platform_ o));
               ("uptimes", Uptimes_toJSON (Uptimes_ o));
               ("process_count_zombie_processes",
                json.Number (strconv.FormatInt (ProcessCountZombieProcesses o)))].

(** [o.JSON()]: [json.Marshal(o)], which cannot fail on this type. *)
Definition JSON (o : Output) : result string error :=
  Ok (json.render (Output_toJSON o)).

(** [json.Unmarshal] stores a JSON value in a field by the type of the
    field; [null] leaves the field as it is, a value of another kind is an
    [UnmarshalTypeError], the key of an object that matches no field is
    skipped, and a key that occurs again overwrites. *)
Definition set_string (v : json.value) (cur : string) : result string error :=
  match v with
  | json.Str s => Ok s
  | json.Null => Ok cur
  | _ => Fail ErrUnmarshalType
  end.

Definition set_uint64 (v : json.value) (cur : Z) : result Z error :=
  match v with
  | json.Number lit =>
      match strconv.ParseUint lit with
      | (n, None) => Ok n
      | (_, Some _) => Fail ErrUnmarshalType
      end
  | json.Null => Ok cur
  | _ => Fail ErrUnmarshalType
  end.

Definition set_int (v : json.value) (cur : Z) : result Z error :=
  match v with
  | json.Number lit =>
      match strconv.ParseInt lit with
      | (n, None) => Ok n
      | (_, Some _) => Fail ErrUnmarshalType
      end
  | json.Null => Ok cur
  | _ => Fail ErrUnmarshalType
  end.

Definition set_struct {A : Type} (fields : A -> list (string * json.value) -> result A error)
    (v : json.value) (cur : A) : result A error :=
  match v with
  | json.Object members => fields cur members
  | json.Null => Ok cur
  | _ => Fail ErrUnmarshalType
  end.

(** [x <- r ;; k]: go on with the value of [r], or stop at its error. *)
Definition bind {A B : Type} (r : result A error) (k : A -> result B error) : result B error :=
  match r with
  | Ok a => k a
  | Fail e => Fail e
  end.

Fixpoint Host_fields (h : Host) (members : list (string * json.value)) : result Host error :=
  match members with
  | [] => Ok h
  | (key, v) :: rest =>
      if json.key_is key "id" then
        bind (set_string v (Host_ID h)) (fun s => Host_fields (mkHost s) rest)
      else Host_fields h rest
  end.

Fixpoint Kernel_fields (k : Kernel) (members : list (string * json.value)) : result Kernel error :=
  match members with
  | [] => Ok k
  | (key, v) :: rest =>
      if json.key_is key "arch" then
        bind (set_string v (Kernel_Arch k))
             (fun s => Kernel_fields (mkKernel s (Kernel_Version k)) rest)
      else if json.key_is key "version" then
        bind (set_string v (Kernel_Version k))
             (fun s => Kernel_fields (mkKernel (Kernel_Arch k) s) rest)
      else Kernel_fields k rest
  end.

Fixpoint Platform_fields (p : Platform) (members : list (string * json.value))
  : result Platform error :=
  match members with
  | [] => Ok p
  | (key, v) :: rest =>
      if json.key_is key "name" then
        bind (set_string v (Platform_Name p))
             (fun s => Platform_fields (mkPlatform s (Platform_Family p) (Platform_Version p)) rest)
      else if json.key_is key "family" then
        bind (set_string v (Platform_Family p))
             (fun s => Platform_fields (mkPlatform (Platform_Name p) s (Platform_Version p)) rest)
      else if json.key_is key "version" then
        bind (set_string v (Platform_Version p))
             (fun s => Platform_fields (mkPlatform (Platform_Name p) (Platform_Family p) s) rest)
      else Platform_fields p rest
  end.

Fixpoint Uptimes_fields (u : Uptimes) (members : list (string * json.value))
  : result Uptimes error :=
  match members with
  | [] => Ok u
  | (key, v) :: rest =>
      if json.key_is key "seconds" then
        bind (set_uint64 v (Seconds u))
             (fun n => Uptimes_fields
                         (mkUptimes n (SecondsHumanized u) (BootTimeUnixSeconds u)
                                    (BootTimeHumanized u)) rest)
      else if json.key_is key "seconds_humanized" then
        bind (set_string v (SecondsHumanized u))
             (fun s => Uptimes_fields
                         (mkUptimes (Seconds u) s (BootTimeUnixSeconds u)
                                    (BootTimeHumanized u)) rest)
      else if json.key_is key "boot_time_unix_seconds" then
        bind (set_uint64 v (BootTimeUnixSeconds u))
             (fun n => Uptimes_fields
                         (mkUptimes (Seconds u) (SecondsHumanized u) n
                                    (BootTimeHumanized u)) rest)
      else if json.key_is key "boot_time_humanized" then
        bind (set_string v (BootTimeHumanized u))
             (fun s => Uptimes_fields
                         (mkUptimes (Seconds u) (SecondsHumanized u) (BootTimeUnixSeconds u)
                                    s) rest)
      else Uptimes_fields u rest
  end.

Fixpoint Output_fields (o : Output) (members : list (string * json.value)) : result Output error :=
  match members with
  | [] => Ok o
  | (key, v) :: rest =>
      if json.key_is key "host" then
        bind (set_struct Host_fields v (Host_ o))
             (fun h => Output_fields
                         (mkOutput h (Kernel_ o) (Platform_ o) (Uptimes_ o)
                                   (ProcessCountZombieProcesses o)) rest)
      else if json.key_is key "kernel" then
        bind (set_struct Kernel_fields v (Kernel_ o))
             (fun k => Output_fields
                         (mkOutput (Host_ o) k (Platform_ o) (Uptimes_ o)
                                   (ProcessCountZombieProcesses o)) rest)
      else if json.key_is key "platform" then
        bind (set_struct Platform_fields v (Platform_ o))
             (fun p => Output_fields
                         (mkOutput (Host_ o) (Kernel_ o) p (Uptimes_ o)
                                   (ProcessCountZombieProcesses o)) rest)
      else if json.key_is key "uptimes" then
        bind (set_struct Uptimes_fields v (Uptimes_ o))
             (fun u => Output_fields
                         (mkOutput (Host_ o) (Kernel_ o) (Platform_ o) u
                                   (ProcessCountZombieProcesses o)) rest)
      else if json.key_is key "process_count_zombie_processes" then
        bind (set_int v (ProcessCountZombieProcesses o))
             (fun n => Output_fields
                         (mkOutput (Host_ o) (Kernel_ o) (Platform_ o) (Uptimes_ o) n) rest)
      else Output_fields o rest
  end.

(** [ParseOutputJSON(data)]: [json.Unmarshal(data, new(Output))]. *)
Definition ParseOutputJSON (data : string) : result Output error :=
  match json.parse data with
  | None => Fail ErrSyntax
  | Some v => set_struct Output_fields v Output_zero
  end.

(** The strings of an Output are all valid UTF-8. *)
Definition Output_utf8 (o : Output) : Prop :=
  utf8.ValidString (Host_ID (Host_ o)) = true /\
  utf8.ValidString (Kernel_Arch (Kernel_ o)) = true /\
  utf8.ValidString (Kernel_Version (Kernel_ o)) = true /\
  utf8.ValidString (Platform_Name (Platform_ o)) = true /\
  utf8.ValidString (Platform_Family (Platform_ o)) = true /\
  utf8.ValidString (Platform_Version (Platform_ o)) = true /\
  utf8.ValidString (SecondsHumanized (Uptimes_ o)) = true /\
  utf8.ValidString (BootTimeHumanized (Uptimes_ o)) = true.

Definition ParseStateHost (m : gmap string string) : result Host error :=
  let h := Host_zero in
  let h := mkHost (map_get m StateKeyHostID) in
  Ok h.

Definition ParseStateKernel (m : gmap string string) : result Kernel error :=
  let k := Kernel_zero in
  let k := mkKernel (map_get m StateKeyKernelArch) (Kernel_Version k) in
  let k := mkKernel (Kernel_Arch k) (map_get m StateKeyKernelVersion) in
  Ok k.

Definition ParseStatePlatform (m : gmap string string) : result Platform error :=
  let p := Platform_zero in
  let p := mkPlatform (map_get m StateKeyPlatformName) (Platform_Family p) (Platform_Version p) in
  let p := mkPlatform (Platform_Name p) (map_get m StateKeyPlatformFamily) (Platform_Version p) in
  let p := mkPlatform (Platform_Name p) (Platform_Family p) (map_get m StateKeyPlatformVersion) in
  Ok p.

Definition ParseStateUptimes (m : gmap string string) : result Uptimes error :=
  let u := Uptimes_zero in
  let '(seconds, err) := strconv.ParseUint (map_get m StateKeyUptimesSeconds) in
  match err with
  | Some e => Fail (ErrNum e)
  | None =>
      let u := mkUptimes seconds (map_get m StateKeyUptimesHumanized)
                         (BootTimeUnixSeconds u) (BootTimeHumanized u) in
      let '(boot, err) := strconv.ParseUint (map_get m StateKeyUptimesBootTimeUnixSeconds) in
      match err with
      | Some e => Fail (ErrNum e)
      | None =>
          let u := mkUptimes (Seconds u) (SecondsHumanized u)
                             boot (map_get m StateKeyUptimesBootTimeHumanized) in
          Ok u
      end
  end.

Definition ParseStateProcessCountZombieProcesses (m : gmap string string) : result Z error :=
  match m !! StateKeyProcessCountZombieProcesses with
  | Some s =>
      let '(count, err) := strconv.Atoi s in
      match err with
      | Some e => Fail (ErrNum e)
      | None => Ok count
      end
  | None => Ok 0
  end.

Definition set_Host (o : Output) (h : Host) : Output :=
  mkOutput h (Kernel_ o) (Platform_ o) (Uptimes_ o) (ProcessCountZombieProcesses o).
Definition set_Kernel (o : Output) (k : Kernel) : Output :=
  mkOutput (Host_ o) k (Platform_ o) (Uptimes_ o) (ProcessCountZombieProcesses o).
Definition set_Platform (o : Output) (p : Platform) : Output :=
  mkOutput (Host_ o) (Kernel_ o) p (Uptimes_ o) (ProcessCountZombieProcesses o).
Definition set_Uptimes (o : Output) (u : Uptimes) : Output :=
  mkOutput (Host_ o) (Kernel_ o) (Platform_ o) u (ProcessCountZombieProcesses o).
Definition set_ProcessCountZombieProcesses (o : Output) (n : Z) : Output :=
  mkOutput (Host_ o) (Kernel_ o) (Platform_ o) (Uptimes_ o) n.

(** One iteration of the [for _, state := range states] loop: the
    [switch state.Name]. *)
Definition ParseStatesToOutput_step (o : Output) (state : State) : result Output error :=
  if String.eqb (Name state) StateNameHost then
    match ParseStateHost (ExtraInfo state) with
    | Fail e => Fail e
    | Ok host => Ok (set_Host o host)
    end
  else if String.eqb (Name state) StateNameKernel then
    match ParseStateKernel (ExtraInfo state) with
    | Fail e => Fail e
    | Ok kernel => Ok (set_Kernel o kernel)
    end
  else if String.eqb (Name state) StateNamePlatform then
    match ParseStatePlatform (ExtraInfo state) with
    | Fail e => Fail e
    | Ok platform => Ok (set_Platform o platform)
    end
  else if String.eqb (Name state) StateNameUptimes then
    match ParseStateUptimes (ExtraInfo state) with
    | Fail e => Fail e
    | Ok uptimes => Ok (set_Uptimes o uptimes)
    end
  else if String.eqb (Name state) StateNameProcessCountsByStatus then
    match ParseStateProcessCountZombieProcesses (ExtraInfo state) with
    | Fail e => Fail e
    | Ok n => Ok (set_ProcessCountZombieProcesses o n)
    end
  else Fail (ErrUnknownStateName (Name state)).

Fixpoint ParseStatesToOutput_loop (o : Output) (states : list State) : result Output error :=
  match states with
  | [] => Ok o
  | state :: rest =>
      match ParseStatesToOutput_step o state with
      | Fail e => Fail e
      | Ok o' => ParseStatesToOutput_loop o' rest
      end
  end.

Definition ParseStatesToOutput (states : list State) : result Output error :=
  ParseStatesToOutput_loop Output_zero states.

(** The state names that the [switch] knows. *)
Definition known_name (name : string) : Prop :=
  name = StateNameHost \/ name = StateNameKernel \/ name = StateNamePlatform \/
  name = StateNameUptimes \/ name = StateNameProcessCountsByStatus.


Section States.
(** The package variable, set once by [init] (1000, or 20% of the
    file-descriptor limit) and read-only afterwards. *)
Variable DefaultZombieProcessCountThreshold : Z.

Definition stateProcCounts (o : Output) : State :=
  let st := mkState StateNameProcessCountsByStatus true ""
              {[ StateKeyProcessCountZombieProcesses :=
                   strconv.FormatInt (ProcessCountZombieProcesses o) ]} in
  if DefaultZombieProcessCountThreshold <=? ProcessCountZombieProcesses o then
    mkState (Name st) false
      ("too many zombie processes: " +:+ strconv.FormatInt (ProcessCountZombieProcesses o)
         +:+ " (threshold: " +:+ strconv.FormatInt DefaultZombieProcessCountThreshold +:+ ")")
      (ExtraInfo st)
  else
    mkState (Name st) (Healthy st)
      ("zombie processes: " +:+ strconv.FormatInt (ProcessCountZombieProcesses o)
         +:+ " (threshold: " +:+ strconv.FormatInt DefaultZombieProcessCountThreshold +:+ ")")
      (ExtraInfo st).

Definition States (o : Output) : result (list State) error :=
  let states :=
    [ mkState StateNameHost true
        ("host id: " +:+ Host_ID (Host_ o))
        {[ StateKeyHostID := Host_ID (Host_ o) ]};
      mkState StateNameKernel true
        ("arch: " +:+ Kernel_Arch (Kernel_ o) +:+ ", version: " +:+ Kernel_Version (Kernel_ o))
        (<[ StateKeyKernelArch := Kernel_Arch (Kernel_ o) ]>
           {[ StateKeyKernelVersion := Kernel_Version (Kernel_ o) ]});
      mkState StateNamePlatform true
        ("name: " +:+ Platform_Name (Platform_ o) +:+ ", family: " +:+ Platform_Family (Platform_ o)
           +:+ ", version: " +:+ Platform_Version (Platform_ o))
        (<[ StateKeyPlatformName := Platform_Name (Platform_ o) ]>
           (<[ StateKeyPlatformFamily := Platform_Family (Platform_ o) ]>
              {[ StateKeyPlatformVersion := Platform_Version (Platform_ o) ]}));
      mkState StateNameUptimes true
        ("uptime: " +:+ SecondsHumanized (Uptimes_ o) +:+ ", boot time: "
           +:+ BootTimeHumanized (Uptimes_ o))
        (<[ StateKeyUptimesSeconds := strconv.FormatUint (Seconds (Uptimes_ o)) ]>
           (<[ StateKeyUptimesHumanized := SecondsHumanized (Uptimes_ o) ]>
              (<[ StateKeyUptimesBootTimeUnixSeconds :=
                    strconv.FormatUint (BootTimeUnixSeconds (Uptimes_ o)) ]>
                 {[ StateKeyUptimesBootTimeHumanized := BootTimeHumanized (Uptimes_ o) ]})))
    ] in
  let states := (states ++ [stateProcCounts o])%list in
  Ok states.
End States.

(** An Output with a host id that is not valid UTF-8: the single byte
    0xFF. *)
Definition invalid_utf8_output : Output :=
  mkOutput (mkHost (String "255" EmptyString)) (mkKernel "amd64" "6.8.0")
           (mkPlatform "ubuntu" "debian" "22.04") (mkUptimes 3600 "1 hour ago" 1700000000 "1 year ago")
           0.

(** ** Groups

    [merge_groups names o o0] takes from [o] the groups (host, kernel,
    platform, uptimes, zombie count) whose state name is in [names], and
    from [o0] the others. *)
Definition has_name (name : string) (names : list string) : bool :=
  existsb (String.eqb name) names.

Definition merge_groups (names : list string) (o o0 : Output) : Output :=
  mkOutput
    (if has_name StateNameHost names then Host_ o else Host_ o0)
    (if has_name StateNameKernel names then Kernel_ o else Kernel_ o0)
    (if has_name StateNamePlatform names then Platform_ o else Platform_ o0)
    (if has_name StateNameUptimes names then Uptimes_ o else Uptimes_ o0)
    (if has_name StateNameProcessCountsByStatus names
     then ProcessCountZombieProcesses o else ProcessCountZombieProcesses o0).

(** ** The default poller

    [defaultPollerOnce] is a [sync.Once]: the function given to [Do] runs
    the first time only.  The poller type, the configuration and
    [query.New] are declared in files that are not part of this
    development. *)
Section DefaultPoller.
Variable Poller : Type.
Variable Config : Type.
Variable QueryConfig : Type.
(** The component name [Name], and [cfg.Query]. *)
Variable Name_ : string.
Variable Query_ : Config -> QueryConfig.
(** [query.New(name, cfg, Get)], [Get] being the package's probe. *)
Variable query_New : string -> QueryConfig -> Poller.

Record PollerState := mkPollerState {
  defaultPollerOnce : bool;           (* has [Do] already run? *)
  defaultPoller : option Poller;      (* [None] is the nil interface *)
}.

Definition PollerState_init : PollerState := mkPollerState false None.

Definition setDefaultPoller (cfg : Config) (st : PollerState) : PollerState :=
  if defaultPollerOnce st then st
  else mkPollerState true (Some (query_New Name_ (Query_ cfg))).

Definition getDefaultPoller (st : PollerState) : option Poller := defaultPoller st.
End DefaultPoller.

Arguments mkPollerState {Poller} _ _.
Arguments defaultPollerOnce {Poller} _.
Arguments defaultPoller {Poller} _.
Arguments PollerState_init {Poller}.
Arguments setDefaultPoller {Poller Config QueryConfig} Name_ Query_ query_New cfg st.
Arguments getDefaultPoller {Poller} st.

(** ** The probe [Get]

    The host and process libraries, [time] and [humanize.RelTime] are
    outside of the repository: what they return is given, in the order in
    which [Get] calls them. *)
Inductive metric := SetGetFailed | SetGetSuccess.

Section Get.
Variable E : Type.                    (* the errors of the probes *)
Variable Time : Type.
Variable Process : Type.
(** [t.Add(d)], [d] in nanoseconds; [time.Unix(sec, 0)]; and
    [humanize.RelTime(a, b, albl, blbl)]. *)
Variable Time_Add : Time -> Z -> Time.
Variable Time_Unix : Z -> Time.
Variable Time_UTC : Time -> Time.
Variable RelTime : Time -> Time -> string -> string -> string.
(** [procs.Zombie], the status under which zombie processes are counted. *)
Variable Zombie : string.

Record Probes := mkProbes {
  HostID : result string E;
  KernelArch : result string E;
  KernelVersion : result string E;
  PlatformInformation : result (string * string * string) E;
  UptimeWithContext : result Z E;             (* uint64 *)
  BootTimeWithContext : result Z E;           (* uint64 *)
  Now : Time;                                 (* time.Now() *)
  CountProcessesByStatus : result (gmap string (list Process)) E;
}.

(** [x <- r ;; k] for the errors of the probes. *)
Definition and_then {A B : Type} (r : result A E) (k : A -> result B E) : result B E :=
  match r with
  | Ok a => k a
  | Fail e => Fail e
  end.

(** [time.Duration(-int64(uptime)) * time.Second], on 64 bits. *)
Definition uptime_duration (uptime : Z) : Z :=
  strconv.wrap_int64
    (strconv.wrap_int64 (- strconv.wrap_int64 uptime) * 1000000000).

(** The loop [for status, procsWithStatus := range allProcs] with its
    [break]: a map holds a key once, so the loop finds the zombies if the
    map has them and leaves the count at zero otherwise. *)
Definition count_zombies (allProcs : gmap string (list Process)) : Z :=
  match allProcs !! Zombie with
  | Some procsWithStatus => Z.of_nat (List.length procsWithStatus)
  | None => 0
  end.

(** The body of [Get], without the deferred metric. *)
Definition Get_body (p : Probes) : result Output E :=
  let o := Output_zero in
  and_then (HostID p) (fun hostID =>
  let o := set_Host o (mkHost hostID) in
  and_then (KernelArch p) (fun arch =>
  and_then (KernelVersion p) (fun kernelVer =>
  let o := set_Kernel o (mkKernel arch kernelVer) in
  and_then (PlatformInformation p) (fun '(platform, family, version) =>
  let o := set_Platform o (mkPlatform platform family version) in
  and_then (UptimeWithContext p) (fun uptime =>
  and_then (BootTimeWithContext p) (fun boottime =>
  let now := Time_UTC (Now p) in
  let o := set_Uptimes o
             (mkUptimes uptime
                (RelTime (Time_Add now (uptime_duration uptime)) now "ago" "from now")
                boottime
                (RelTime (Time_Unix (strconv.wrap_int64 boottime)) now "ago" "from now")) in
  and_then (CountProcessesByStatus p) (fun allProcs =>
  let o := set_ProcessCountZombieProcesses o (count_zombies allProcs) in
  Ok o))))))).

(** [Get(ctx)]: the result, and the metric that the deferred function
    sets. *)
Definition Get (p : Probes) : result Output E * metric :=
  let r := Get_body p in
  (r, if is_ok r then SetGetSuccess else SetGetFailed).
End Get.

End os.

(* ===================================================================== *)
(** * Package strings *)
(* ===================================================================== *)
Module strings.

(** [strings.HasPrefix(s, prefix)] *)
Fixpoint HasPrefix (s prefix : string) : bool :=
  match prefix, s with
  | EmptyString, _ => true
  | String p prefix', String c s' => Ascii.eqb c p && HasPrefix s' prefix'
  | String _ _, EmptyString => false
  end.

(** [strings.Contains(s, substr)] *)
Fixpoint Contains (s substr : string) : bool :=
  HasPrefix s substr ||
  match s with
  | EmptyString => false
  | String _ s' => Contains s' substr
  end.

End strings.

(* ===================================================================== *)
(** * Package sxid: components/accelerator/nvidia/query/sxid/dmesg.go *)
(* ===================================================================== *)
Module sxid.

(** ** The regular expression [SXid.*?: (\d+),]

    [FindStringSubmatch] returns the leftmost match, and among the matches
    at one start the one preferred by the pattern: [.*?] takes as few
    characters as possible, [\d+] as many.  [.] matches any character but
    a newline.  All literal characters of the pattern are ASCII, so a
    match position is always at a character boundary and the search can
    be done on bytes. *)

(** [: (\d+),] at the head of [s]; the result is the capture group.
    [\d+] takes the longest run of digits: a shorter run is followed by a
    digit, never by the comma, so no other choice can match. *)
Definition match_code (s : string) : option string :=
  match literal ": " s with
  | Some t =>
      match span_digits t with
      | (String d ds, rest) =>
          match literal "," rest with
          | Some _ => Some (String d ds)
          | None => None
          end
      | (EmptyString, _) => None
      end
  | None => None
  end.

(** [.*?: (\d+),] at the head of [s]: the first position, reached
    without crossing a newline, where [: (\d+),] matches. *)
Fixpoint match_lazy (s : string) : option string :=
  match match_code s with
  | Some ds => Some ds
  | None =>
      match s with
      | String c s' => if Ascii.eqb c "010"%char then None else match_lazy s'
      | EmptyString => None
      end
  end.

(** The pattern at the head of [s]. *)
Definition match_here (s : string) : option string :=
  match literal "SXid" s with
  | Some t => match_lazy t
  | None => None
  end.

(** [CompiledRegexNVSwitchSXidDmesg.FindStringSubmatch(line)], reduced to
    [match[1]]: the unanchored search tries every start from the left. *)
Fixpoint FindStringSubmatch1 (line : string) : option string :=
  match match_here line with
  | Some ds => Some ds
  | None =>
      match line with
      | String _ s' => FindStringSubmatch1 s'
      | EmptyString => None
      end
  end.

Definition ExtractNVSwitchSXid (line : string) : Z :=
  match FindStringSubmatch1 line with
  | Some m1 =>
      match strconv.Atoi m1 with
      | (id, None) => id
      | (_, Some _) => 0
      end
  | None => 0
  end.

(** ** Time *)
Inductive Location := UTC | Local.

(** A [time.Time]: an instant (nanoseconds since the Unix epoch) seen in a
    location. *)
Record Time := mkTime { instant : Z; location : Location }.

(** [t.UTC()] *)
Definition Time_UTC (t : Time) : Time := mkTime (instant t) UTC.

Section Classifier.
(** The static catalog and the log-item types live in files of the
    repository that are not part of this development; the classifier is
    parametric in them. *)
Variable Detail : Type.
Variable Filter : Type.
Variable error : Type.
(** [GetDetail(id)]: the catalog lookup, [(detail, ok)]. *)
Variable GetDetail : Z -> option Detail.
(** [pkg_dmesg.ParseCtimeWithError]: the line's own timestamp. *)
Variable ParseCtimeWithError : string -> result Time error.

(** [query_log.Item] *)
Record Item := mkItem {
  Line : string;
  Matched : option Filter;
  Time_ : Time;
}.

Record DmesgError := mkDmesgError {
  Detail_ : option Detail;
  LogItem : Item;
}.

(** [now] is what [time.Now()] returns when the line is observed. *)
Definition ParseDmesgLogLine (now : Time) (line : string) : result DmesgError error :=
  let timestamp :=
    match ParseCtimeWithError line with
    | Ok t => t
    | Fail _ => now
    end in
  let de := mkDmesgError None (mkItem line None (Time_UTC timestamp)) in
  let errCode := ExtractNVSwitchSXid line in
  let de :=
    match GetDetail errCode with
    | Some errDetail => mkDmesgError (Some errDetail) (LogItem de)
    | None => de
    end in
  Ok de.
End Classifier.

Arguments Line {Filter} _.
Arguments Matched {Filter} _.
Arguments Time_ {Filter} _.
Arguments Detail_ {Detail Filter} _.
Arguments LogItem {Detail Filter} _.
Arguments ParseDmesgLogLine {Detail Filter error} GetDetail ParseCtimeWithError now line.

End sxid.

(* ===================================================================== *)
(** * Subprocesses: the part of pkg/process the callers observe *)
(* ===================================================================== *)

(** An error value made by [errors.New], or one coming from the runtime;
    the code below looks at its message only. *)
Inductive goerror := errorString (msg : string).

Definition Error (e : goerror) : string := match e with errorString m => m end.

Module process.

(** The non-blocking receive [select { case err := <-proc.Wait(): ...
    default: }]: either nothing is ready, or the exit error arrives. *)
Inductive WaitPoll :=
| NotReady
| Exited (err : option goerror).

(** What one run of a subprocess does, as seen by the code that drives
    it: whether [process.New] and [Start] succeed, the lines the scanner
    yields, each with the outcome of the poll of [Wait()] made right
    after it, and [scanner.Err()] once [Scan] has returned false. *)
Record Run := mkRun {
  new_err : option goerror;
  start_err : option goerror;
  stdout : list (string * WaitPoll);
  scanner_err : option goerror;
}.

(** What the caller does to the outside world. *)
Inductive event :=
| EvNew (command : string)            (* process.New(WithCommand, WithRunAsBashScript) *)
| EvStart                             (* proc.Start(ctx) *)
| EvPrintln (line : string)           (* fmt.Println("stdout:", line) *)
| EvLog (msg : string)                (* log.Logger.Infow / Warnw *)
| EvGo (delaySeconds : Z).            (* go func() { ... }() with its timer *)

End process.

(* ===================================================================== *)
(** * Package reboot: pkg/reboot/reboot.go *)
(* ===================================================================== *)
Module reboot.
Import process.

Record Op := mkOp { delaySeconds : Z; useSystemctl : bool }.

Definition OpOption := Op -> Op.

Definition applyOpts (op : Op) (opts : list OpOption) : Op * option goerror :=
  (fold_left (fun op opt => opt op) opts op, None).

Definition WithDelaySeconds (delaySeconds : Z) : OpOption :=
  fun op => mkOp delaySeconds (useSystemctl op).

Definition WithSystemctl (b : bool) : OpOption :=
  fun op => mkOp (reboot.delaySeconds op) b.

Definition ErrNotRoot : goerror := errorString "must be run as sudo/root".

(** The scan loop of [rebootFunc]. [None] when the loop runs to the end of
    the output, [Some e] when it returns [e] from inside. *)
Fixpoint scan (lines : list (string * WaitPoll)) : option goerror * list event :=
  match lines with
  | [] => (None, [])
  | (line, poll) :: rest =>
      match poll with
      | Exited (Some err) => (Some err, [EvPrintln line])
      | _ => let '(r, tr) := scan rest in (r, EvPrintln line :: tr)
      end
  end.

(** The closure [rebootFunc].  [err] is the variable of the enclosing
    function that the closure captures: the one assigned by
    [proc, err := process.New(...)]. *)
Definition rebootFunc (run : Run) (cmd : string) (err : option goerror)
  : option goerror * list event :=
  match start_err run with
  | Some err => (Some err, [EvStart])
  | None =>
      let '(r, tr) := scan (stdout run) in
      match r with
      | Some err => (Some err, EvStart :: tr)
      | None =>
          let continue_ := (None, (EvStart :: tr) ++ [EvLog "successfully rebooted"])%list in
          match scanner_err run with
          | Some serr =>
              if negb (strings.Contains (Error serr) "file already closed")
              then (err, EvStart :: tr)
              else continue_
          | None => continue_
          end
      end
  end.

(** Which branch of the goroutine's [select] fires first. *)
Inductive Race := TimerFired | ContextDone.

(** The body of the goroutine started for a delayed reboot. *)
Definition delayed (race : Race) (run : Run) (cmd : string) (err : option goerror)
  : list event :=
  match race with
  | ContextDone => [EvLog "context done, aborting reboot"]
  | TimerFired =>
      let '(rerr, tr) := rebootFunc run cmd err in
      (EvLog "delay expired, rebooting now" :: tr ++ [EvLog "successfully rebooted"])%list
  end.

(** [Reboot(ctx, opts...)].  [euid] is [os.Geteuid()]. *)
Definition Reboot (euid : Z) (run : Run) (opts : list OpOption)
  : option goerror * list event :=
  let '(options, err) := applyOpts (mkOp 0 false) opts in
  match err with
  | Some err => (Some err, [])
  | None =>
      let asRoot := euid =? 0 in
      if negb asRoot then (Some ErrNotRoot, [])
      else
        let cmd := if useSystemctl options then "sudo systemctl reboot" else "sudo reboot" in
        let err := new_err run in
        match err with
        | Some e => (Some e, [EvNew cmd])
        | None =>
            if delaySeconds options =? 0 then
              let '(r, tr) := rebootFunc run cmd err in
              (r, EvNew cmd :: EvLog "rebooting immediately" :: tr)
            else
              (None, [EvNew cmd; EvGo (delaySeconds options); EvLog "triggering reboot after delay"])
        end
  end.

End reboot.

(* ===================================================================== *)
(** * Package query: GPU presence through the PCI listing *)
(* ===================================================================== *)
Module query.
Import process.

(** The final [select]: the exit error arrives, or the context is done
    first. *)
Inductive FinalSelect :=
| WaitDone (err : option goerror)
| CtxDone (ctxErr : goerror).

(** The scan loop: the lines kept so far, or the error returned from
    inside the loop. *)
Fixpoint scan (lines : list string) (out : list (string * WaitPoll))
  : result (list string) goerror :=
  match out with
  | [] => Ok lines
  | (line, poll) :: rest =>
      let lines := if strings.Contains line "NVIDIA" then (lines ++ [line])%list else lines in
      match poll with
      | Exited (Some err) => Fail err
      | _ => scan lines rest
      end
  end.

(** [ListNVIDIAPCIs(ctx)].  [lspciPath] is what [file.LocateExecutable]
    returns; a nil slice is the empty list. *)
Definition ListNVIDIAPCIs (lspciPath : result string goerror) (run : Run) (final : FinalSelect)
  : result (list string) goerror :=
  match lspciPath with
  | Fail _ => Ok []
  | Ok path =>
      if String.eqb path "" then Ok []
      else
        match new_err run with
        | Some err => Fail err
        | None =>
            match start_err run with
            | Some err => Fail err
            | None =>
                match scan [] (stdout run) with
                | Fail err => Fail err
                | Ok lines =>
                    let after_scan :=
                      match final with
                      | WaitDone (Some err) => Fail err
                      | WaitDone None => Ok lines
                      | CtxDone ctxErr => Fail ctxErr
                      end in
                    match scanner_err run with
                    | Some serr =>
                        if negb (strings.Contains (Error serr) "file already closed")
                        then Fail serr
                        else after_scan
                    | None => after_scan
                    end
                end
            end
        end
  end.

(** ** NVML

    The NVML library and its devices are outside of the repository: what
    their calls return is given.  [ErrorString] is [nvml.ErrorString]. *)
Section NVML.
Variable Return : Type.
Context `{EqDecision Return}.
Variable SUCCESS : Return.
Variable ErrorString : Return -> string.

Record Device := mkDevice {
  GetName : string * Return;
}.

Record Lib := mkLib {
  Init : Return;                                  (* nvmlLib.Init() *)
  HasNvml : bool * string;                        (* infoLib.HasNvml() *)
  GetDevices : result (list Device) goerror;      (* deviceLib.GetDevices() *)
}.

(** The loop over the devices: the first name that is not empty. *)
Fixpoint first_device_name (devices : list Device) : result string goerror :=
  match devices with
  | [] => Ok EmptyString
  | d :: rest =>
      let '(name, ret) := GetName d in
      if decide (ret = SUCCESS) then
        if String.eqb name "" then first_device_name rest else Ok name
      else Fail (errorString ("failed to get device name: " ++ ErrorString ret))
  end.

Definition LoadGPUDeviceName (lib : Lib) : result string goerror :=
  if decide (Init lib = SUCCESS) then
    let '(nvmlExists, nvmlExistsMsg) := HasNvml lib in
    if negb nvmlExists then Fail (errorString ("NVML not found: " ++ nvmlExistsMsg))
    else
      match GetDevices lib with
      | Fail err => Fail err
      | Ok devices => first_device_name devices
      end
  else Fail (errorString ("failed to initialize NVML: " ++ ErrorString (Init lib))).

(** [GPUsInstalled(ctx)].  [smiInstalled] is what [SMIExists()] returns. *)
Definition GPUsInstalled (smiInstalled : bool) (lspciPath : result string goerror)
    (run : Run) (final : FinalSelect) (lib : Lib) : result bool goerror :=
  if negb smiInstalled then Ok false
  else
    match ListNVIDIAPCIs lspciPath run final with
    | Fail err => Fail err
    | Ok pciDevices =>
        if (List.length pciDevices =? 0)%nat then Ok false
        else
          match LoadGPUDeviceName lib with
          | Fail err => Fail err
          | Ok gpuDeviceName => Ok true
          end
    end.
End NVML.

End query.

(* ===================================================================== *)
(** * Package common: suggested repair actions *)
(* ===================================================================== *)
Module common.

Section SuggestedActions.
(** The type of repair-action tags and its constants are declared in a
    file of the repository that is not part of this development. *)
Context {RepairActionType : Type} `{EqDecision RepairActionType}.
Variable RepairActionTypeRebootSystem : RepairActionType.

Record SuggestedActions := mkSuggestedActions {
  RepairActions : list RepairActionType;
}.

(** Modelled from the spec: the method [RequiresReboot] itself (only its
    test is available).  The spec makes it a computed predicate: true
    iff the repair actions contain the reboot tag.  It is written as
    the scan over [RepairActions] that computes this. *)
Fixpoint contains_reboot (actions : list RepairActionType) : bool :=
  match actions with
  | [] => false
  | action :: rest =>
      if decide (action = RepairActionTypeRebootSystem) then true
      else contains_reboot rest
  end.

Definition RequiresReboot (sa : SuggestedActions) : bool :=
  contains_reboot (RepairActions sa).
End SuggestedActions.

End common.

(* ===================================================================== *)
(** * Facts about strconv: decimal text round-trips *)
(* ===================================================================== *)
Module strconv_facts.
Import strconv.

Lemma byte_val_of (z : Z) : 0 <= z < 256 -> byte_val (byte_of z) = z.
Proof.
  intros Hz. unfold byte_val, byte_of.
  rewrite Z.mod_small by lia.
  rewrite N_ascii_embedding by lia. lia.
Qed.

Lemma byte_val_range (c : ascii) : 0 <= byte_val c < 256.
Proof.
  unfold byte_val. pose proof (N_ascii_bounded c). lia.
Qed.

Lemma digit_is_digit (d : Z) : 0 <= d < 10 -> is_digit (byte_of (48 + d)) = true.
Proof.
  intros Hd. unfold is_digit. rewrite byte_val_of by lia.
  apply andb_true_iff; split; apply Z.leb_le; lia.
Qed.

Lemma digit_value (d : Z) : 0 <= d < 10 -> byte_val (byte_of (48 + d)) - 48 = d.
Proof. intros Hd. rewrite byte_val_of by lia. lia. Qed.

Lemma is_digit_bounds (c : ascii) : is_digit c = true -> 48 <= byte_val c <= 57.
Proof.
  unfold is_digit. intros H. apply andb_true_iff in H as [H1 H2].
  apply Z.leb_le in H1, H2. lia.
Qed.

Lemma is_digit_not_sign (c : ascii) :
  is_digit c = true -> Ascii.eqb c "-"%char = false /\ Ascii.eqb c "+"%char = false.
Proof.
  intros H. split.
  - destruct (Ascii.eqb_spec c "-"%char) as [->|]; [discriminate H | reflexivity].
  - destruct (Ascii.eqb_spec c "+"%char) as [->|]; [discriminate H | reflexivity].
Qed.

Lemma last_digit_range (u : Z) : 0 <= u -> 0 <= u - u / 10 * 10 < 10.
Proof. intros Hu. pose proof (Z.div_mod u 10). pose proof (Z.mod_pos_bound u 10). lia. Qed.

Lemma formatBits_head (fuel : nat) : forall u acc,
  0 <= u -> (fuel = O -> head_digit acc) -> head_digit (formatBits fuel u acc).
Proof.
  induction fuel as [|fuel IH]; intros u acc Hu Hacc; simpl.
  - auto.
  - destruct (u <? 10) eqn:Hlt.
    + apply Z.ltb_lt in Hlt. simpl. apply digit_is_digit. lia.
    + apply IH.
      * apply Z.div_pos; lia.
      * intros _. simpl. apply digit_is_digit, last_digit_range, Hu.
Qed.

Lemma maxUint64_eq : maxUint64 = 18446744073709551615.
Proof. reflexivity. Qed.

Lemma cutoff10_eq : cutoff10 = 1844674407370955162.
Proof. reflexivity. Qed.

(** The digit loop of [ParseUint] reads back what [formatBits] wrote. *)
Lemma ParseUint_loop_formatBits (fn s0 : string) (fuel : nat) : forall u acc,
  0 <= u <= maxUint64 -> u < 10 ^ Z.of_nat fuel ->
  ParseUint_loop fn s0 0 (formatBits fuel u acc) = ParseUint_loop fn s0 u acc.
Proof.
  induction fuel as [|fuel IH]; intros u acc Hu Hfuel.
  - simpl in *. assert (u = 0) as -> by lia. reflexivity.
  - cbn [formatBits]. destruct (u <? 10) eqn:Hlt.
    + apply Z.ltb_lt in Hlt. cbn [ParseUint_loop].
      rewrite digit_is_digit by lia. rewrite digit_value by lia.
      rewrite cutoff10_eq.
      destruct (1844674407370955162 <=? 0) eqn:Hc; [apply Z.leb_le in Hc; lia|].
      replace (0 * 10 + u) with u by lia.
      destruct (maxUint64 <? u) eqn:Hm; [apply Z.ltb_lt in Hm; lia|]. reflexivity.
    + apply Z.ltb_ge in Hlt.
      pose proof (last_digit_range u ltac:(lia)) as Hd.
      assert (Hq : 0 <= u / 10) by (apply Z.div_pos; lia).
      assert (Hq' : u / 10 * 10 <= u) by lia.
      rewrite maxUint64_eq in *.
      rewrite IH.
      * cbn [ParseUint_loop].
        rewrite digit_is_digit by lia. rewrite digit_value by lia.
        rewrite cutoff10_eq.
        destruct (1844674407370955162 <=? u / 10) eqn:Hc; [apply Z.leb_le in Hc; lia|].
        replace (u / 10 * 10 + (u - u / 10 * 10)) with u by lia.
        rewrite maxUint64_eq.
        destruct (18446744073709551615 <? u) eqn:Hm; [apply Z.ltb_lt in Hm; lia|]. reflexivity.
      * lia.
      * replace (Z.of_nat (S fuel)) with (Z.succ (Z.of_nat fuel)) in Hfuel by lia.
        rewrite Z.pow_succ_r in Hfuel by lia. lia.
Qed.

Lemma pow10_20 : 10 ^ Z.of_nat 20 = 100000000000000000000.
Proof. reflexivity. Qed.

Lemma ParseUint_formatBits (u : Z) :
  0 <= u <= maxUint64 -> ParseUint (formatBits 20 u "") = (u, None).
Proof.
  intros Hu.
  pose proof (formatBits_head 20 u "" ltac:(lia) ltac:(discriminate)) as Hh.
  unfold ParseUint.
  destruct (formatBits 20 u "") as [|c s] eqn:E; [destruct Hh|].
  rewrite <- E at 2.
  rewrite ParseUint_loop_formatBits; [reflexivity | exact Hu |].
  rewrite pow10_20. rewrite maxUint64_eq in Hu. lia.
Qed.

(** [ParseUint] inverts [FormatUint] on every [uint64]. *)
Lemma ParseUint_FormatUint (u : Z) :
  0 <= u <= maxUint64 -> ParseUint (FormatUint u) = (u, None).
Proof. apply ParseUint_formatBits. Qed.

Lemma wrap_int64_id (z : Z) : - 2 ^ 63 <= z < 2 ^ 63 -> wrap_int64 z = z.
Proof.
  intros Hz. unfold wrap_int64.
  change (2 ^ 63) with 9223372036854775808 in *.
  change (2 ^ 64) with 18446744073709551616.
  rewrite Z.mod_small by lia. lia.
Qed.

(** The loop of the fast path of [Atoi] reads back what [formatBits]
    wrote, as long as the value is below [2^63]. *)
Lemma Atoi_fast_loop_formatBits (s0 : string) (fuel : nat) : forall u acc,
  0 <= u < 2 ^ 63 -> u < 10 ^ Z.of_nat fuel ->
  Atoi_fast_loop s0 0 (formatBits fuel u acc) = Atoi_fast_loop s0 u acc.
Proof.
  change (2 ^ 63) with 9223372036854775808.
  induction fuel as [|fuel IH]; intros u acc Hu Hfuel.
  - simpl in *. assert (u = 0) as -> by lia. reflexivity.
  - assert (Hstep : forall n d, 0 <= d < 10 -> 0 <= n * 10 + d < 9223372036854775808 ->
              Atoi_fast_loop s0 n (String (byte_of (48 + d)) acc)
              = Atoi_fast_loop s0 (n * 10 + d) acc).
    { intros n d Hd Hn. cbn [Atoi_fast_loop].
      rewrite byte_val_of by lia.
      replace (48 + d - 48) with d by lia. rewrite Z.mod_small by lia.
      destruct (9 <? d) eqn:H9; [apply Z.ltb_lt in H9; lia|].
      rewrite wrap_int64_id; [reflexivity|].
      change (2 ^ 63) with 9223372036854775808. lia. }
    cbn [formatBits]. destruct (u <? 10) eqn:Hlt.
    + apply Z.ltb_lt in Hlt. rewrite Hstep by lia. f_equal.
    + apply Z.ltb_ge in Hlt.
      pose proof (last_digit_range u ltac:(lia)) as Hd.
      assert (Hq : 0 <= u / 10) by (apply Z.div_pos; lia).
      rewrite IH.
      * rewrite Hstep by lia. f_equal. lia.
      * lia.
      * replace (Z.of_nat (S fuel)) with (Z.succ (Z.of_nat fuel)) in Hfuel by lia.
        rewrite Z.pow_succ_r in Hfuel by lia. lia.
Qed.

(** [Atoi] on the digits of a natural number below [2^63], with or
    without a leading minus sign, whichever path it takes. *)
Lemma Atoi_digits (neg : bool) (u : Z) :
  0 <= u < 2 ^ 63 ->
  Atoi (if neg then String "-"%char (formatBits 20 u "") else formatBits 20 u "")
  = (if neg then - u else u, None).
Proof.
  intros Hu.
  assert (Hu' : 0 <= u < 9223372036854775808) by exact Hu.
  pose proof (formatBits_head 20 u "" ltac:(lia) ltac:(discriminate)) as Hh.
  assert (Hp : ParseUint (formatBits 20 u "") = (u, None)).
  { apply ParseUint_formatBits. rewrite maxUint64_eq. lia. }
  assert (Hf : forall s0, Atoi_fast_loop s0 0 (formatBits 20 u "") = (u, None)).
  { intros s0. rewrite Atoi_fast_loop_formatBits; [reflexivity | exact Hu |].
    rewrite pow10_20. lia. }
  destruct (formatBits 20 u "") as [|c s] eqn:E; [destruct Hh|].
  simpl in Hh. destruct (is_digit_not_sign c Hh) as [Hm Hpl].
  unfold Atoi.
  destruct neg.
  - match goal with |- context [if ?b then _ else _] => destruct b end.
    + cbn [Ascii.eqb Bool.eqb orb andb].
      replace (Ascii.eqb "-" "-") with true by reflexivity.
      cbn [orb andb].
      destruct (Z.of_nat (String.length (String c s)) <? 1) eqn:Hl.
      { apply Z.ltb_lt in Hl. simpl in Hl. lia. }
      rewrite Hf. f_equal. apply wrap_int64_id.
      change (2 ^ 63) with 9223372036854775808. lia.
    + unfold ParseInt.
      replace (Ascii.eqb "-" "+") with false by reflexivity.
      replace (Ascii.eqb "-" "-") with true by reflexivity.
      rewrite Hp. cbn [negb andb option_map].
      change (2 ^ 63) with 9223372036854775808.
      destruct (9223372036854775808 <? u) eqn:Hc; [apply Z.ltb_lt in Hc; lia|].
      reflexivity.
  - match goal with |- context [if ?b then _ else _] => destruct b end.
    + rewrite Hm, Hpl. cbn [orb andb]. rewrite Hf. reflexivity.
    + unfold ParseInt. rewrite Hm, Hpl. rewrite Hp. cbn [negb andb option_map].
      change (2 ^ 63) with 9223372036854775808.
      destruct (9223372036854775808 <=? u) eqn:Hc; [apply Z.leb_le in Hc; lia|].
      reflexivity.
Qed.

(** [Atoi] inverts [FormatInt] on every [int]. *)
Lemma Atoi_FormatInt (i : Z) :
  minInt64 <= i <= maxInt64 -> Atoi (FormatInt i) = (i, None).
Proof.
  unfold minInt64, maxInt64. change (2 ^ 63) with 9223372036854775808.
  intros Hi. unfold FormatInt.
  destruct (i <? 0) eqn:Hneg.
  - apply Z.ltb_lt in Hneg.
    destruct (Z.eq_dec i (-9223372036854775808)) as [->|Hne].
    + vm_compute. reflexivity.
    + pose proof (Atoi_digits true (- i)) as H. cbn iota in H.
      rewrite H; [f_equal; lia|].
      change (2 ^ 63) with 9223372036854775808. lia.
  - apply Z.ltb_ge in Hneg.
    pose proof (Atoi_digits false i) as H. cbn iota in H.
    apply H. change (2 ^ 63) with 9223372036854775808. lia.
Qed.

(** [ParseInt] inverts [FormatInt] on every [int]. *)
Lemma ParseInt_FormatInt (i : Z) :
  minInt64 <= i <= maxInt64 -> ParseInt (FormatInt i) = (i, None).
Proof.
  unfold minInt64, maxInt64. change (2 ^ 63) with 9223372036854775808.
  intros Hi. unfold FormatInt.
  destruct (i <? 0) eqn:Hneg.
  - apply Z.ltb_lt in Hneg.
    assert (Hp : ParseUint (formatBits 20 (- i) "") = (- i, None)).
    { apply ParseUint_formatBits. rewrite maxUint64_eq. lia. }
    unfold ParseInt.
    replace (Ascii.eqb "-" "+") with false by reflexivity.
    replace (Ascii.eqb "-" "-") with true by reflexivity.
    rewrite Hp. cbn [negb andb option_map].
    change (2 ^ 63) with 9223372036854775808.
    destruct (9223372036854775808 <? - i) eqn:Hc; [apply Z.ltb_lt in Hc; lia|].
    f_equal. lia.
  - apply Z.ltb_ge in Hneg.
    pose proof (formatBits_head 20 i "" ltac:(lia) ltac:(discriminate)) as Hh.
    assert (Hp : ParseUint (formatBits 20 i "") = (i, None)).
    { apply ParseUint_formatBits. rewrite maxUint64_eq. lia. }
    destruct (formatBits 20 i "") as [|c s] eqn:E; [destruct Hh|].
    simpl in Hh. destruct (is_digit_not_sign c Hh) as [Hm Hpl].
    unfold ParseInt. rewrite Hm, Hpl, Hp. cbn [negb andb option_map].
    change (2 ^ 63) with 9223372036854775808.
    destruct (9223372036854775808 <=? i) eqn:Hc; [apply Z.leb_le in Hc; lia|].
    reflexivity.
Qed.

(** The text that [formatBits] writes: digits only, and no leading zero
    but for the number zero. *)
Lemma formatBits_all_digits (fuel : nat) : forall u acc,
  0 <= u -> all_digits acc -> all_digits (formatBits fuel u acc).
Proof.
  induction fuel as [|fuel IH]; intros u acc Hu Hacc; cbn [formatBits].
  - exact Hacc.
  - destruct (u <? 10) eqn:Hlt.
    + apply Z.ltb_lt in Hlt. split; [apply digit_is_digit; lia | exact Hacc].
    + apply IH; [apply Z.div_pos; lia|].
      split; [apply digit_is_digit, last_digit_range, Hu | exact Hacc].
Qed.

Lemma formatBits_zero (fuel : nat) (acc : string) :
  formatBits (S fuel) 0 acc = String "0" acc.
Proof. reflexivity. Qed.

Lemma formatBits_head_nonzero (fuel : nat) : forall u acc,
  1 <= u < 10 ^ Z.of_nat fuel ->
  exists c ds, formatBits fuel u acc = String c ds /\
               is_digit c = true /\ Ascii.eqb c "0" = false.
Proof.
  induction fuel as [|fuel IH]; intros u acc Hu.
  - simpl in Hu. lia.
  - cbn [formatBits]. destruct (u <? 10) eqn:Hlt.
    + apply Z.ltb_lt in Hlt. eexists _, _. split; [reflexivity|].
      split; [apply digit_is_digit; lia|].
      assert (Hc : u = 1 \/ u = 2 \/ u = 3 \/ u = 4 \/ u = 5 \/ u = 6 \/ u = 7 \/ u = 8 \/ u = 9)
        by lia.
      destruct Hc as [->|[->|[->|[->|[->|[->|[->|[->| ->]]]]]]]]; reflexivity.
    + apply Z.ltb_ge in Hlt. apply IH.
      replace (Z.of_nat (S fuel)) with (Z.succ (Z.of_nat fuel)) in Hu by lia.
      rewrite Z.pow_succ_r in Hu by lia.
      pose proof (Z.div_mod u 10 ltac:(lia)). pose proof (Z.mod_pos_bound u 10 ltac:(lia)).
      lia.
Qed.

End strconv_facts.

(* ===================================================================== *)
(** * Facts about UTF-8: encoding a decoded rune gives its bytes back *)
(* ===================================================================== *)
Module utf8_facts.
Import utf8.

#[local] Arguments String.append !s1 s2.

Lemma byte_of_val (c : ascii) : byte_of (byte_val c) = c.
Proof.
  unfold byte_of, byte_val.
  pose proof (N_ascii_bounded c) as Hb.
  rewrite Z.mod_small by lia.
  rewrite N2Z.id. apply ascii_N_embedding.
Qed.

(** On disjoint bits, [lor] is addition. *)
Lemma lor_add (hi lo k : Z) :
  0 <= k -> 0 <= lo < 2 ^ k -> hi mod 2 ^ k = 0 -> Z.lor hi lo = hi + lo.
Proof.
  intros Hk Hlo Hhi. symmetry. apply Z.add_nocarry_lor.
  apply Z.bits_inj'. intros n Hn.
  rewrite Z.land_spec, Z.bits_0.
  destruct (Z.lt_ge_cases n k) as [Hlt|Hge].
  - assert (E : hi = hi / 2 ^ k * 2 ^ k).
    { pose proof (Z.div_mod hi (2 ^ k) ltac:(lia)). lia. }
    rewrite E, Z.mul_pow2_bits_low by lia. reflexivity.
  - destruct (Z.eq_dec lo 0) as [->|Hnz].
    + rewrite Z.bits_0. apply andb_false_r.
    + assert (Hpow : 2 ^ k <= 2 ^ n) by (apply Z.pow_le_mono_r; lia).
      assert (Hlog : Z.log2 lo < n) by (apply Z.log2_lt_pow2; lia).
      rewrite (Z.bits_above_log2 lo n) by lia.
      apply andb_false_r.
Qed.

Lemma land_mask (x k : Z) : 0 <= k -> Z.land x (2 ^ k - 1) = x mod 2 ^ k.
Proof.
  intros Hk. rewrite <- Z.land_ones by lia. f_equal.
  rewrite Z.ones_equiv. lia.
Qed.

Lemma land_maskx (x : Z) : Z.land x maskx = x mod 64.
Proof. exact (land_mask x 6 ltac:(lia)). Qed.

Lemma land_mask2 (x : Z) : Z.land x mask2 = x mod 32.
Proof. exact (land_mask x 5 ltac:(lia)). Qed.

Lemma land_mask3 (x : Z) : Z.land x mask3 = x mod 16.
Proof. exact (land_mask x 4 ltac:(lia)). Qed.

Lemma land_mask4 (x : Z) : Z.land x mask4 = x mod 8.
Proof. exact (land_mask x 3 ltac:(lia)). Qed.

Lemma shiftl_6 (x : Z) : Z.shiftl x 6 = x * 64.
Proof. rewrite Z.shiftl_mul_pow2 by lia. reflexivity. Qed.

Lemma shiftl_12 (x : Z) : Z.shiftl x 12 = x * 4096.
Proof. rewrite Z.shiftl_mul_pow2 by lia. reflexivity. Qed.

Lemma shiftl_18 (x : Z) : Z.shiftl x 18 = x * 262144.
Proof. rewrite Z.shiftl_mul_pow2 by lia. reflexivity. Qed.

Lemma shiftr_6 (x : Z) : Z.shiftr x 6 = x / 64.
Proof. rewrite Z.shiftr_div_pow2 by lia. reflexivity. Qed.

Lemma shiftr_12 (x : Z) : Z.shiftr x 12 = x / 4096.
Proof. rewrite Z.shiftr_div_pow2 by lia. reflexivity. Qed.

Lemma shiftr_18 (x : Z) : Z.shiftr x 18 = x / 262144.
Proof. rewrite Z.shiftr_div_pow2 by lia. reflexivity. Qed.

Lemma lor_tx (v : Z) : 0 <= v < 64 -> Z.lor tx v = 128 + v.
Proof. intros Hv. apply (lor_add 128 v 6); [lia | exact Hv | reflexivity]. Qed.

Lemma lor_t2 (v : Z) : 0 <= v < 32 -> Z.lor t2 v = 192 + v.
Proof. intros Hv. apply (lor_add 192 v 5); [lia | exact Hv | reflexivity]. Qed.

Lemma lor_t3 (v : Z) : 0 <= v < 16 -> Z.lor t3 v = 224 + v.
Proof. intros Hv. apply (lor_add 224 v 4); [lia | exact Hv | reflexivity]. Qed.

Lemma lor_t4 (v : Z) : 0 <= v < 8 -> Z.lor t4 v = 240 + v.
Proof. intros Hv. apply (lor_add 240 v 3); [lia | exact Hv | reflexivity]. Qed.

Ltac arith := Z.div_mod_to_equations; lia.

(** The rune of a two-byte encoding, and its bytes. *)
Lemma rune2 (a0 a1 : Z) :
  0xC2 <= a0 <= 0xDF -> 0x80 <= a1 <= 0xBF ->
  Z.lor (Z.shiftl (Z.land a0 mask2) 6) (Z.land a1 maskx) = (a0 - 192) * 64 + (a1 - 128).
Proof.
  intros H0 H1. rewrite land_mask2, land_maskx, shiftl_6.
  rewrite (lor_add _ _ 6); [arith | lia | | ]; change (2 ^ 6) with 64; arith.
Qed.

Lemma rune3 (a0 a1 a2 : Z) :
  0xE0 <= a0 <= 0xEF -> 0x80 <= a1 <= 0xBF -> 0x80 <= a2 <= 0xBF ->
  Z.lor (Z.lor (Z.shiftl (Z.land a0 mask3) 12) (Z.shiftl (Z.land a1 maskx) 6))
        (Z.land a2 maskx)
  = (a0 - 224) * 4096 + (a1 - 128) * 64 + (a2 - 128).
Proof.
  intros H0 H1 H2. rewrite land_mask3, !land_maskx, shiftl_6, shiftl_12.
  rewrite (lor_add _ (a1 mod 64 * 64) 12); [ | lia | | ]; change (2 ^ 12) with 4096; try arith.
  rewrite (lor_add _ _ 6); [arith | lia | | ]; change (2 ^ 6) with 64; arith.
Qed.

Lemma rune4 (a0 a1 a2 a3 : Z) :
  0xF0 <= a0 <= 0xF4 -> 0x80 <= a1 <= 0xBF -> 0x80 <= a2 <= 0xBF -> 0x80 <= a3 <= 0xBF ->
  Z.lor (Z.lor (Z.lor (Z.shiftl (Z.land a0 mask4) 18) (Z.shiftl (Z.land a1 maskx) 12))
               (Z.shiftl (Z.land a2 maskx) 6))
        (Z.land a3 maskx)
  = (a0 - 240) * 262144 + (a1 - 128) * 4096 + (a2 - 128) * 64 + (a3 - 128).
Proof.
  intros H0 H1 H2 H3. rewrite land_mask4, !land_maskx, shiftl_6, shiftl_12, shiftl_18.
  rewrite (lor_add _ (a1 mod 64 * 4096) 18); [ | lia | | ];
    change (2 ^ 18) with 262144; try arith.
  rewrite (lor_add _ (a2 mod 64 * 64) 12); [ | lia | | ]; change (2 ^ 12) with 4096; try arith.
  rewrite (lor_add _ _ 6); [arith | lia | | ]; change (2 ^ 6) with 64; arith.
Qed.

Lemma EncodeRune_2 (p0 p1 : Z) :
  2 <= p0 < 32 -> 0 <= p1 < 64 ->
  EncodeRune (p0 * 64 + p1)
  = String (byte_of (192 + p0)) (String (byte_of (128 + p1)) EmptyString).
Proof.
  intros H0 H1. unfold EncodeRune, rune1Max, rune2Max.
  destruct (Z.leb_spec 0 (p0 * 64 + p1)); [|lia].
  destruct (Z.leb_spec (p0 * 64 + p1) 127); [lia|].
  destruct (Z.leb_spec (p0 * 64 + p1) 2047); [|lia].
  cbn [andb]. unfold byte. rewrite shiftr_6, land_maskx.
  rewrite lor_t2 by arith. rewrite lor_tx by arith.
  do 2 f_equal; f_equal; arith.
Qed.

Lemma EncodeRune_3 (p0 p1 p2 : Z) :
  0 <= p0 < 16 -> 0 <= p1 < 64 -> 0 <= p2 < 64 ->
  (p0 = 0 -> 32 <= p1) -> (p0 = 13 -> p1 < 32) ->
  EncodeRune (p0 * 4096 + p1 * 64 + p2)
  = String (byte_of (224 + p0))
      (String (byte_of (128 + p1)) (String (byte_of (128 + p2)) EmptyString)).
Proof.
  intros H0 H1 H2 Hlo Hsur.
  unfold EncodeRune, rune1Max, rune2Max, rune3Max, MaxRune, surrogateMin, surrogateMax.
  set (r := p0 * 4096 + p1 * 64 + p2).
  assert (Hr : 2048 <= r <= 65535 /\ (r < 55296 \/ 57343 < r)) by (subst r; lia).
  destruct (Z.leb_spec 0 r); [|lia].
  destruct (Z.leb_spec r 127); [lia|].
  destruct (Z.leb_spec r 2047); [lia|].
  destruct (Z.ltb_spec r 0); [lia|].
  destruct (Z.ltb_spec 1114111 r); [lia|].
  cbn [andb orb].
  replace ((55296 <=? r) && (r <=? 57343)) with false
    by (symmetry; apply andb_false_iff;
        destruct Hr as [_ [?|?]]; [left; apply Z.leb_gt | right; apply Z.leb_gt]; lia).
  destruct (Z.leb_spec r 65535); [|lia].
  unfold encode3, byte. rewrite shiftr_6, shiftr_12, !land_maskx.
  rewrite lor_t3 by (subst r; arith). rewrite !lor_tx by arith.
  subst r. do 3 f_equal; f_equal; arith.
Qed.

Lemma EncodeRune_4 (p0 p1 p2 p3 : Z) :
  0 <= p0 <= 4 -> 0 <= p1 < 64 -> 0 <= p2 < 64 -> 0 <= p3 < 64 ->
  (p0 = 0 -> 16 <= p1) -> (p0 = 4 -> p1 < 16) ->
  EncodeRune (p0 * 262144 + p1 * 4096 + p2 * 64 + p3)
  = String (byte_of (240 + p0))
      (String (byte_of (128 + p1))
         (String (byte_of (128 + p2)) (String (byte_of (128 + p3)) EmptyString))).
Proof.
  intros H0 H1 H2 H3 Hlo Hhi.
  unfold EncodeRune, rune1Max, rune2Max, rune3Max, MaxRune, surrogateMin, surrogateMax.
  set (r := p0 * 262144 + p1 * 4096 + p2 * 64 + p3).
  assert (Hr : 65536 <= r <= 1114111) by (subst r; lia).
  destruct (Z.leb_spec 0 r); [|lia].
  destruct (Z.leb_spec r 127); [lia|].
  destruct (Z.leb_spec r 2047); [lia|].
  destruct (Z.ltb_spec r 0); [lia|].
  destruct (Z.ltb_spec 1114111 r); [lia|].
  cbn [andb orb].
  destruct (Z.leb_spec r 57343); [lia|]. rewrite andb_false_r.
  destruct (Z.leb_spec r 65535); [lia|].
  unfold encode4, byte. rewrite shiftr_6, shiftr_12, shiftr_18, !land_maskx.
  rewrite lor_t4 by (subst r; arith). rewrite !lor_tx by arith.
  subst r. do 4 f_equal; f_equal; arith.
Qed.

Lemma byte_val_bounds (c : ascii) : 0 <= byte_val c < 256.
Proof. unfold byte_val. pose proof (N_ascii_bounded c). lia. Qed.

Lemma first_cases (a0 : Z) :
  0x80 <= a0 < 256 ->
  first a0 = xx \/ exists lo hi, first_class a0 (first a0) lo hi.
Proof.
  intros Ha. unfold first.
  repeat match goal with
  | |- context [?a <? ?b] => destruct (Z.ltb_spec a b)
  | |- context [?a =? ?b] => destruct (Z.eqb_spec a b)
  end; try lia; try (left; reflexivity); right; do 2 eexists;
  first [ apply fc_s1; lia | apply fc_s2; lia | apply fc_s3; lia | apply fc_s4; lia
        | apply fc_s5; lia | apply fc_s6; lia | apply fc_s7; lia ].
Qed.

Lemma out_of_false (lo hi : Z) (c : ascii) : out_of lo hi c = false -> lo <= byte_val c <= hi.
Proof.
  unfold out_of. intros H. apply orb_false_iff in H as [H1 H2].
  apply Z.ltb_ge in H1, H2. lia.
Qed.

(** Conditions that evaluate are replaced by their value, the others are
    split. *)
Ltac eval_conditions :=
  repeat match goal with
  | |- context [fst (acceptRanges ?e)] =>
      let v := eval vm_compute in (fst (acceptRanges e)) in
      change (fst (acceptRanges e)) with v
  | |- context [snd (acceptRanges ?e)] =>
      let v := eval vm_compute in (snd (acceptRanges e)) in
      change (snd (acceptRanges e)) with v
  | |- context [if ?b then _ else _] =>
      let v := eval vm_compute in b in
      lazymatch v with
      | true => change b with true; cbv iota
      | false => change b with false; cbv iota
      end
  end.

(** What [DecodeRuneInString] computes, by class of the first byte. *)
Lemma decode_short (c0 : ascii) (x lo hi : Z) :
  first_class (byte_val c0) x lo hi -> first (byte_val c0) = x ->
  DecodeRuneInString (String c0 EmptyString) = (RuneError, 1%nat).
Proof.
  intros Hc Hx. unfold DecodeRuneInString. cbv zeta. rewrite Hx.
  destruct Hc; eval_conditions; reflexivity.
Qed.

Lemma decode_two (c0 c1 : ascii) (t : string) (x lo hi : Z) :
  first_class (byte_val c0) x lo hi -> first (byte_val c0) = x ->
  DecodeRuneInString (String c0 (String c1 t)) =
    if out_of lo hi c1 then (RuneError, 1%nat)
    else if (x =? s1) then (rune_2 c0 c1, 2%nat)
    else match t with
         | EmptyString => (RuneError, 1%nat)
         | String c2 t2 =>
             if out_of locb hicb c2 then (RuneError, 1%nat)
             else if (x =? s2) || (x =? s3) || (x =? s4) then (rune_3 c0 c1 c2, 3%nat)
             else match t2 with
                  | EmptyString => (RuneError, 1%nat)
                  | String c3 _ =>
                      if out_of locb hicb c3 then (RuneError, 1%nat)
                      else (rune_4 c0 c1 c2 c3, 4%nat)
                  end
         end.
Proof.
  intros Hc Hx. unfold DecodeRuneInString. cbv zeta. rewrite Hx.
  unfold out_of, locb, hicb.
  destruct Hc; destruct t as [|c2 [|c3 t3]]; eval_conditions;
    repeat match goal with
    | |- context [if ?b then _ else _] => destruct b; eval_conditions; try reflexivity
    end.
Qed.

Lemma decode_invalid_first (c0 : ascii) (t : string) :
  first (byte_val c0) = xx -> DecodeRuneInString (String c0 t) = (RuneError, 1%nat).
Proof.
  intros Hx. unfold DecodeRuneInString. cbv zeta. rewrite Hx.
  eval_conditions. reflexivity.
Qed.

Lemma Encode_rune_2 (c0 c1 : ascii) :
  0xC2 <= byte_val c0 <= 0xDF -> 0x80 <= byte_val c1 <= 0xBF ->
  EncodeRune (rune_2 c0 c1) = String c0 (String c1 EmptyString).
Proof.
  intros H0 H1. unfold rune_2. rewrite rune2 by assumption.
  rewrite EncodeRune_2 by lia.
  replace (192 + (byte_val c0 - 192)) with (byte_val c0) by lia.
  replace (128 + (byte_val c1 - 128)) with (byte_val c1) by lia.
  rewrite !byte_of_val. reflexivity.
Qed.

Lemma Encode_rune_3 (c0 c1 c2 : ascii) :
  0xE0 <= byte_val c0 <= 0xEF -> 0x80 <= byte_val c1 <= 0xBF -> 0x80 <= byte_val c2 <= 0xBF ->
  (byte_val c0 = 0xE0 -> 0xA0 <= byte_val c1) ->
  (byte_val c0 = 0xED -> byte_val c1 <= 0x9F) ->
  EncodeRune (rune_3 c0 c1 c2) = String c0 (String c1 (String c2 EmptyString)).
Proof.
  intros H0 H1 H2 Hlo Hsur. unfold rune_3. rewrite rune3 by assumption.
  rewrite EncodeRune_3 by lia.
  replace (224 + (byte_val c0 - 224)) with (byte_val c0) by lia.
  replace (128 + (byte_val c1 - 128)) with (byte_val c1) by lia.
  replace (128 + (byte_val c2 - 128)) with (byte_val c2) by lia.
  rewrite !byte_of_val. reflexivity.
Qed.

Lemma Encode_rune_4 (c0 c1 c2 c3 : ascii) :
  0xF0 <= byte_val c0 <= 0xF4 -> 0x80 <= byte_val c1 <= 0xBF ->
  0x80 <= byte_val c2 <= 0xBF -> 0x80 <= byte_val c3 <= 0xBF ->
  (byte_val c0 = 0xF0 -> 0x90 <= byte_val c1) ->
  (byte_val c0 = 0xF4 -> byte_val c1 <= 0x8F) ->
  EncodeRune (rune_4 c0 c1 c2 c3)
  = String c0 (String c1 (String c2 (String c3 EmptyString))).
Proof.
  intros H0 H1 H2 H3 Hlo Hhi. unfold rune_4. rewrite rune4 by assumption.
  rewrite EncodeRune_4 by lia.
  replace (240 + (byte_val c0 - 240)) with (byte_val c0) by lia.
  replace (128 + (byte_val c1 - 128)) with (byte_val c1) by lia.
  replace (128 + (byte_val c2 - 128)) with (byte_val c2) by lia.
  replace (128 + (byte_val c3 - 128)) with (byte_val c3) by lia.
  rewrite !byte_of_val. reflexivity.
Qed.

(** A valid multi-byte encoding at the head of a string: the rune encodes
    back to exactly the bytes that were read, and the decoding depends on
    these bytes only. *)
Lemma DecodeRuneInString_valid (c0 : ascii) (t : string) (r : Z) (size : nat) :
  RuneSelf <= byte_val c0 ->
  DecodeRuneInString (String c0 t) = (r, size) -> size <> 1%nat ->
  exists p tail,
    t = p +:+ tail /\ S (String.length p) = size /\
    EncodeRune r = String c0 p /\
    forall t', DecodeRuneInString (String c0 (p +:+ t')) = (r, size).
Proof.
  unfold RuneSelf. intros H0 Hd Hsize.
  pose proof (byte_val_bounds c0) as Hb0.
  destruct (first_cases (byte_val c0) ltac:(lia)) as [Hxx|(lo & hi & Hc)].
  { rewrite decode_invalid_first in Hd by assumption. congruence. }
  destruct t as [|c1 t1].
  { rewrite (decode_short c0 _ lo hi Hc eq_refl) in Hd. congruence. }
  pose proof (decode_two c0 c1 t1 _ lo hi Hc eq_refl) as E2.
  rewrite E2 in Hd.
  destruct (out_of lo hi c1) eqn:Ho1; [congruence|].
  apply out_of_false in Ho1.
  destruct (first (byte_val c0) =? s1) eqn:Es1.
  { (* two bytes *)
    injection Hd as <- <-.
    exists (String c1 EmptyString), t1. split; [reflexivity|]. split; [reflexivity|].
    split.
    - apply Encode_rune_2; [|inversion Hc; subst; lia].
      apply Z.eqb_eq in Es1. inversion Hc; subst; try lia;
        match goal with H : _ = first _ |- _ => rewrite <- H in Es1; discriminate Es1 end.
    - intros t'. cbn [String.append].
      rewrite (decode_two c0 c1 t' _ lo hi Hc eq_refl).
      unfold out_of.
      destruct (Z.ltb_spec (byte_val c1) lo); [lia|].
      destruct (Z.ltb_spec hi (byte_val c1)); [lia|].
      cbn [orb]. rewrite Es1. reflexivity. }
  destruct t1 as [|c2 t2]; [congruence|].
  destruct (out_of locb hicb c2) eqn:Ho2; [congruence|].
  apply out_of_false in Ho2. unfold locb, hicb in Ho2.
  destruct ((first (byte_val c0) =? s2) || (first (byte_val c0) =? s3)
            || (first (byte_val c0) =? s4)) eqn:Es3.
  { (* three bytes *)
    injection Hd as <- <-.
    exists (String c1 (String c2 EmptyString)), t2.
    split; [reflexivity|]. split; [reflexivity|].
    split.
    - inversion Hc; subst;
        match goal with H : _ = first _ |- _ => rewrite <- H in Es3, Es1 end;
        try discriminate Es3; try discriminate Es1;
        apply Encode_rune_3; lia.
    - intros t'. cbn [String.append].
      rewrite (decode_two c0 c1 (String c2 t') _ lo hi Hc eq_refl).
      unfold out_of, locb, hicb.
      destruct (Z.ltb_spec (byte_val c1) lo); [lia|].
      destruct (Z.ltb_spec hi (byte_val c1)); [lia|].
      destruct (Z.ltb_spec (byte_val c2) 128); [lia|].
      destruct (Z.ltb_spec 191 (byte_val c2)); [lia|].
      cbn [orb]. rewrite Es1, Es3. reflexivity. }
  destruct t2 as [|c3 t3]; [congruence|].
  destruct (out_of locb hicb c3) eqn:Ho3; [congruence|].
  apply out_of_false in Ho3. unfold locb, hicb in Ho3.
  injection Hd as <- <-.
  exists (String c1 (String c2 (String c3 EmptyString))), t3.
  split; [reflexivity|]. split; [reflexivity|].
  split.
  - inversion Hc; subst;
      match goal with H : _ = first _ |- _ => rewrite <- H in Es3, Es1 end;
      try discriminate Es3; try discriminate Es1;
      apply Encode_rune_4; lia.
  - intros t'. cbn [String.append].
    rewrite (decode_two c0 c1 (String c2 (String c3 t')) _ lo hi Hc eq_refl).
    unfold out_of, locb, hicb.
    destruct (Z.ltb_spec (byte_val c1) lo); [lia|].
    destruct (Z.ltb_spec hi (byte_val c1)); [lia|].
    destruct (Z.ltb_spec (byte_val c2) 128); [lia|].
    destruct (Z.ltb_spec 191 (byte_val c2)); [lia|].
    destruct (Z.ltb_spec (byte_val c3) 128); [lia|].
    destruct (Z.ltb_spec 191 (byte_val c3)); [lia|].
    cbn [orb]. rewrite Es1, Es3. reflexivity.
Qed.

End utf8_facts.

(* ===================================================================== *)
(** * Facts about the JSON encoding: what is written is read back *)
(* ===================================================================== *)
Module json_facts.
Import json.

#[local] Arguments String.append !s1 s2.

Lemma app_assoc (a b c : string) : (a ++ b) ++ c = a ++ (b ++ c).
Proof. induction a as [|x a IH]; cbn [String.append]; [reflexivity | now rewrite IH]. Qed.

Lemma app_nil_r (a : string) : a ++ "" = a.
Proof. induction a as [|x a IH]; cbn [String.append]; [reflexivity | now rewrite IH]. Qed.

Lemma length_app (a b : string) :
  String.length (a ++ b) = (String.length a + String.length b)%nat.
Proof. induction a as [|x a IH]; cbn [String.append String.length]; [reflexivity | now rewrite IH]. Qed.

(** ** Numbers *)

Lemma span_digits_app (ds rest : string) :
  strconv.all_digits ds ->
  match rest with EmptyString => True | String c _ => is_digit c = false end ->
  span_digits (ds ++ rest) = (ds, rest).
Proof.
  intros Hds Hrest. induction ds as [|d ds IH]; cbn [String.append].
  - destruct rest as [|c rest]; [reflexivity|]. cbn [span_digits]. now rewrite Hrest.
  - destruct Hds as [Hd Hds]. cbn [span_digits]. rewrite Hd, (IH Hds). reflexivity.
Qed.

Lemma stops_not_digit (rest : string) :
  stops rest -> match rest with EmptyString => True | String c _ => is_digit c = false end.
Proof. destruct rest; [trivial | intros (H & _); exact H]. Qed.

Lemma scan_frac_stops (rest : string) : stops rest -> scan_frac rest = Some (EmptyString, rest).
Proof.
  destruct rest as [|c t]; [reflexivity|]. intros (_ & Hdot & _).
  unfold scan_frac. now rewrite Hdot.
Qed.

Lemma scan_exp_stops (rest : string) : stops rest -> scan_exp rest = Some (EmptyString, rest).
Proof.
  destruct rest as [|c t]; [reflexivity|]. intros (_ & _ & He & HE).
  unfold scan_exp. now rewrite He, HE.
Qed.

Lemma scan_int_digits (c : ascii) (ds rest : string) :
  is_digit c = true -> strconv.all_digits ds ->
  (Ascii.eqb c "0" = true -> ds = EmptyString) ->
  stops rest ->
  scan_int (String c (ds ++ rest)) = Some (String c ds, rest).
Proof.
  intros Hc Hds Hzero Hstop. unfold scan_int.
  destruct (Ascii.eqb c "0") eqn:E0.
  - rewrite (Hzero eq_refl). cbn [String.append].
    apply Ascii.eqb_eq in E0. subst c. reflexivity.
  - rewrite Hc. rewrite span_digits_app; [reflexivity | exact Hds |].
    apply stops_not_digit, Hstop.
Qed.

(** A run of digits without a leading zero, with or without a minus sign,
    is read as one number when a text that stops it follows. *)
Lemma scan_number_digits (c : ascii) (ds rest : string) :
  is_digit c = true -> strconv.all_digits ds ->
  (Ascii.eqb c "0" = true -> ds = EmptyString) ->
  stops rest ->
  scan_number (String c ds ++ rest) = Some (String c ds, rest) /\
  scan_number (String "-" (String c ds) ++ rest) = Some (String "-" (String c ds), rest).
Proof.
  intros Hc Hds Hzero Hstop.
  destruct (strconv_facts.is_digit_not_sign c Hc) as [Hminus _].
  pose proof (scan_int_digits c ds rest Hc Hds Hzero Hstop) as Hint.
  split; unfold scan_number, scan_sign; cbn [String.append].
  - rewrite Hminus, Hint, (scan_frac_stops rest Hstop), (scan_exp_stops rest Hstop).
    cbn [String.append]. now rewrite !app_nil_r.
  - replace (Ascii.eqb "-" "-") with true by reflexivity.
    rewrite Hint, (scan_frac_stops rest Hstop), (scan_exp_stops rest Hstop).
    cbn [String.append]. now rewrite !app_nil_r.
Qed.

Lemma num_lit_formatBits (neg : bool) (u : Z) :
  0 <= u < 10 ^ Z.of_nat 20 ->
  num_lit (if neg then String "-" (strconv.formatBits 20 u "") else strconv.formatBits 20 u "").
Proof.
  intros Hu.
  assert (Hall : strconv.all_digits (strconv.formatBits 20 u ""))
    by (apply strconv_facts.formatBits_all_digits; [lia | exact I]).
  assert (Hshape : exists c ds, strconv.formatBits 20 u "" = String c ds /\
                     is_digit c = true /\ (Ascii.eqb c "0" = true -> ds = EmptyString)).
  { destruct (Z.eq_dec u 0) as [->|Hnz].
    - exists "0"%char, EmptyString. repeat split; reflexivity.
    - destruct (strconv_facts.formatBits_head_nonzero 20 u "" ltac:(lia))
        as (c & ds & E & Hd & Hz).
      exists c, ds. repeat split; [exact E | exact Hd | congruence]. }
  destruct Hshape as (c & ds & E & Hd & Hz).
  rewrite E in *. destruct Hall as [_ Hds].
  split.
  - destruct neg; eexists _, _; (split; [reflexivity|]); [left; reflexivity | right; exact Hd].
  - intros rest Hstop.
    destruct (scan_number_digits c ds rest Hd Hds Hz Hstop) as [H1 H2].
    destruct neg; assumption.
Qed.

Lemma num_lit_FormatUint (u : Z) : 0 <= u <= strconv.maxUint64 -> num_lit (strconv.FormatUint u).
Proof.
  intros Hu. apply (num_lit_formatBits false).
  rewrite strconv_facts.pow10_20. rewrite strconv_facts.maxUint64_eq in Hu. lia.
Qed.

Lemma num_lit_FormatInt (i : Z) :
  strconv.minInt64 <= i <= strconv.maxInt64 -> num_lit (strconv.FormatInt i).
Proof.
  unfold strconv.minInt64, strconv.maxInt64. change (2 ^ 63) with 9223372036854775808.
  intros Hi. unfold strconv.FormatInt. destruct (i <? 0) eqn:Hneg.
  - apply Z.ltb_lt in Hneg. apply (num_lit_formatBits true).
    rewrite strconv_facts.pow10_20. lia.
  - apply Z.ltb_ge in Hneg. apply (num_lit_formatBits false).
    rewrite strconv_facts.pow10_20. lia.
Qed.

(** ** Strings *)

Lemma drop_app (a b : string) : utf8.drop (String.length a) (a ++ b) = b.
Proof. induction a as [|x a IH]; cbn [String.length utf8.drop String.append]; auto. Qed.

Lemma take_app (a b : string) : utf8.take (String.length a) (a ++ b) = a.
Proof.
  induction a as [|x a IH]; cbn [String.length utf8.take String.append]; [reflexivity|].
  now rewrite IH.
Qed.

Ltac each_byte c := destruct c as [[] [] [] [] [] [] [] []].

(** A character written as it is is read as it is. *)
Lemma unquote_step_safe (c : ascii) (X : string) (f : nat) :
  htmlSafeSet (byte_val c) = true ->
  unquote_loop (S f) (String c X) = emit (String c EmptyString) (unquote_loop f X).
Proof. each_byte c; intros H; (discriminate H || reflexivity). Qed.

(** The escape of an ASCII character is read as this character. *)
Lemma unquote_step_escape (c : ascii) (X : string) (f : nat) :
  byte_val c < utf8.RuneSelf -> htmlSafeSet (byte_val c) = false ->
  unquote_loop (S f) (escape_ascii c ++ X) = emit (String c EmptyString) (unquote_loop f X).
Proof.
  each_byte c; intros Hlt H;
    first [ discriminate H | (exfalso; revert Hlt; vm_compute; congruence) | reflexivity ].
Qed.

Lemma escape_ascii_length (c : ascii) : (1 <= String.length (escape_ascii c))%nat.
Proof.
  unfold escape_ascii.
  repeat match goal with |- context [if ?b then _ else _] => destruct b end;
    cbn [String.length String.append]; lia.
Qed.

(** The escapes of U+2028 and U+2029 are read as these runes. *)
Lemma unquote_step_u202x (r : Z) (Y : string) (f : nat) :
  r = 0x2028 \/ r = 0x2029 ->
  unquote_loop (S f) (("\u202" ++ String (hex_at (Z.land r 0xF)) EmptyString) ++ Y)
  = emit (utf8.EncodeRune r) (unquote_loop f Y).
Proof. intros [-> | ->]; reflexivity. Qed.

(** A byte that is not ASCII starts a rune: it is decoded, and encoded
    again. *)
Lemma unquote_step_high (c : ascii) (X : string) (f : nat) :
  utf8.RuneSelf <= byte_val c ->
  unquote_loop (S f) (String c X) =
    emit (utf8.EncodeRune (fst (utf8.DecodeRuneInString (String c X))))
         (unquote_loop f (utf8.drop (snd (utf8.DecodeRuneInString (String c X))) (String c X))).
Proof.
  unfold utf8.RuneSelf. intros Hc.
  unfold unquote_loop; fold unquote_loop.
  destruct (Z.eqb_spec (byte_val c) 34); [lia|].
  destruct (Z.eqb_spec (byte_val c) 92); [lia|].
  destruct (Z.ltb_spec (byte_val c) 32); [lia|].
  unfold utf8.RuneSelf.
  destruct (Z.ltb_spec (byte_val c) 128); [lia|].
  destruct (utf8.DecodeRuneInString (String c X)) as [rr size]. reflexivity.
Qed.

Lemma emit_Some (out t after : string) : emit out (Some (t, after)) = Some (out ++ t, after).
Proof. reflexivity. Qed.

(** The contents of a string literal written by [appendString_loop] from a
    valid string are read back as this string. *)
Lemma unquote_appendString_loop (fuel : nat) : forall s,
  utf8.ValidString_loop fuel s = true ->
  forall fuel2 rest,
    (String.length (appendString_loop fuel s) < fuel2)%nat ->
    unquote_loop fuel2 (appendString_loop fuel s ++ String dquote rest) = Some (s, rest).
Proof.
  induction fuel as [|fuel IH]; intros s Hv fuel2 rest Hlen.
  - destruct s as [|c t]; [|discriminate Hv].
    destruct fuel2 as [|f2]; [cbn in Hlen; lia|]. reflexivity.
  - destruct s as [|c t].
    { destruct fuel2 as [|f2]; [cbn in Hlen; lia|]. reflexivity. }
    destruct fuel2 as [|f2]; [lia|].
    cbn [utf8.ValidString_loop] in Hv. cbn [appendString_loop] in Hlen |- *.
    destruct (byte_val c <? utf8.RuneSelf) eqn:Hascii.
    + (* ASCII *)
      apply Z.ltb_lt in Hascii.
      cbv iota in Hv, Hlen |- *.
      rewrite length_app in Hlen.
      rewrite (app_assoc _ (appendString_loop fuel t) (String dquote rest)).
      destruct (htmlSafeSet (byte_val c)) eqn:Hsafe.
      * cbn [String.append String.length] in Hlen |- *.
        rewrite unquote_step_safe by exact Hsafe.
        rewrite (IH t Hv) by lia. reflexivity.
      * pose proof (escape_ascii_length c).
        rewrite unquote_step_escape by assumption.
        rewrite (IH t Hv) by lia. reflexivity.
    + (* a rune of several bytes *)
      apply Z.ltb_ge in Hascii.
      cbv iota in Hv, Hlen |- *.
      destruct (utf8.DecodeRuneInString (String c t)) as [r size] eqn:Hd.
      destruct (Nat.eqb_spec size 1) as [->|Hsize]; [discriminate Hv|].
      destruct (utf8_facts.DecodeRuneInString_valid c t r size Hascii Hd Hsize)
        as (p & tail & -> & Hp & Henc & Hstable).
      assert (Hdrop : utf8.drop size (String c (p ++ tail)) = tail).
      { rewrite <- Hp. cbn [utf8.drop]. apply drop_app. }
      assert (Htake : utf8.take size (String c (p ++ tail)) = String c p).
      { rewrite <- Hp. cbn [utf8.take]. now rewrite take_app. }
      rewrite Hdrop in *. rewrite andb_false_r in *.
      assert (Hstep : forall Y, unquote_loop (S f2) (String c (p ++ Y))
                                = emit (String c p) (unquote_loop f2 Y)).
      { intros Y. rewrite unquote_step_high by exact Hascii.
        rewrite Hstable. cbn [fst snd]. rewrite Henc.
        rewrite <- Hp. cbn [utf8.drop]. now rewrite drop_app. }
      destruct ((r =? 8232) || (r =? 8233)) eqn:Hsep.
      * rewrite length_app in Hlen.
        rewrite (app_assoc _ (appendString_loop fuel tail) (String dquote rest)).
        rewrite unquote_step_u202x.
        2:{ apply orb_true_iff in Hsep as [H|H]; apply Z.eqb_eq in H; auto. }
        cbn [String.append String.length] in Hlen.
        rewrite (IH tail Hv) by lia. rewrite Henc. reflexivity.
      * rewrite Htake in *. rewrite length_app in Hlen.
        cbn [String.append String.length] in Hlen |- *.
        rewrite (app_assoc p (appendString_loop fuel tail) (String dquote rest)).
        rewrite Hstep.
        rewrite (IH tail Hv) by lia.
        cbn [emit String.append]. reflexivity.
Qed.

(** A valid string, quoted by [appendString], is read back by [unquote]. *)
Lemma unquote_appendString (s rest : string) :
  utf8.ValidString s = true ->
  exists body, appendString s ++ rest = String dquote body /\ unquote body = Some (s, rest).
Proof.
  intros Hv. unfold appendString.
  exists (appendString_loop (String.length s) s ++ String dquote rest).
  split.
  - cbn [String.append]. now rewrite app_assoc.
  - unfold unquote. apply unquote_appendString_loop; [exact Hv|].
    rewrite length_app. cbn [String.length]. lia.
Qed.

(** ** Values *)

Lemma stops_comma (Y : string) : stops (String "," Y).
Proof. repeat split; reflexivity. Qed.

Lemma stops_brace (Y : string) : stops (String "}" Y).
Proof. repeat split; reflexivity. Qed.

Lemma stops_bracket (Y : string) : stops (String "]" Y).
Proof. repeat split; reflexivity. Qed.

(** The first character of a number chooses the number scanner. *)
Lemma parse_value_number (n : nat) (c : ascii) (t : string) :
  c = "-"%char \/ is_digit c = true ->
  parse_value (S n) (String c t) =
    match scan_number (String c t) with
    | Some (lit, r) => Some (Number lit, r)
    | None => None
    end.
Proof. each_byte c; intros [H|H]; try discriminate H; reflexivity. Qed.

Lemma parse_value_string (n : nat) (body : string) :
  parse_value (S n) (String dquote body) =
    match unquote body with
    | Some (str, r) => Some (Str str, r)
    | None => None
    end.
Proof. reflexivity. Qed.

Lemma parse_value_object (n : nat) (t : string) :
  parse_value (S n) (String "{" t) =
    match skip_ws t with
    | String c' t' =>
        if Ascii.eqb c' "}" then Some (Object [], t')
        else
          match parse_members (parse_value n) (String.length t) t with
          | Some (ms, r) => Some (Object ms, r)
          | None => None
          end
    | EmptyString => None
    end.
Proof. reflexivity. Qed.

Lemma parse_value_array (n : nat) (t : string) :
  parse_value (S n) (String "[" t) =
    match skip_ws t with
    | String c' t' =>
        if Ascii.eqb c' "]" then Some (Array [], t')
        else
          match parse_elements (parse_value n) (String.length t) t with
          | Some (vs, r) => Some (Array vs, r)
          | None => None
          end
    | EmptyString => None
    end.
Proof. reflexivity. Qed.

Lemma opens_skip_ws (s : string) : opens s -> skip_ws s = s.
Proof. intros (c & t & -> & Hs & _). cbn [skip_ws]. now rewrite Hs. Qed.

Lemma opens_app (s rest : string) : opens s -> opens (s ++ rest).
Proof.
  intros (c & t & -> & H). exists c, (t ++ rest). split; [reflexivity | exact H].
Qed.

Lemma digit_opens (c : ascii) :
  c = "-"%char \/ is_digit c = true ->
  is_space c = false /\ Ascii.eqb c "]" = false /\ Ascii.eqb c "}" = false.
Proof. each_byte c; intros [H|H]; try discriminate H; repeat split; reflexivity. Qed.

Lemma render_opens (n : nat) (v : value) : fits n v -> opens (render v).
Proof.
  intros H. destruct H as [n|n b|n lit Hlit|n s Hs|n l Hl|n ms Hms].
  - eexists _, _. split; [reflexivity|]. repeat split; reflexivity.
  - destruct b; eexists _, _; (split; [reflexivity|]); repeat split; reflexivity.
  - destruct Hlit as [(c & l & -> & Hc) _]. exists c, l. split; [reflexivity|].
    apply digit_opens, Hc.
  - eexists _, _. split; [reflexivity|]. repeat split; reflexivity.
  - eexists _, _. split; [reflexivity|]. repeat split; reflexivity.
  - eexists _, _. split; [reflexivity|]. repeat split; reflexivity.
Qed.

Lemma fields_cons (k : string) (x : value) (m : string * value) (l : list (string * value)) :
  fields ((k, x) :: m :: l) = appendString k ++ ":" ++ render x ++ "," ++ fields (m :: l).
Proof. reflexivity. Qed.

Lemma fields_one (k : string) (x : value) :
  fields [(k, x)] = appendString k ++ ":" ++ render x.
Proof. reflexivity. Qed.

Lemma elements_cons (x y : value) (l : list value) :
  elements (x :: y :: l) = render x ++ "," ++ elements (y :: l).
Proof. reflexivity. Qed.

Lemma elements_one (x : value) : elements [x] = render x.
Proof. reflexivity. Qed.

Lemma render_Object (ms : list (string * value)) :
  render (Object ms) = String "{" (fields ms ++ "}").
Proof. reflexivity. Qed.

Lemma render_Array (l : list value) :
  render (Array l) = String "[" (elements l ++ "]").
Proof. reflexivity. Qed.

(** One member of an object, followed by a comma or by the closing brace. *)
Lemma parse_members_step (pv : string -> option (value * string)) (fm : nat)
    (k : string) (x : value) (sep : ascii) (Y : string) :
  utf8.ValidString k = true ->
  pv (render x ++ String sep Y) = Some (x, String sep Y) ->
  is_space sep = false ->
  parse_members pv (S fm) (appendString k ++ ":" ++ render x ++ String sep Y) =
    if Ascii.eqb sep ","
    then match parse_members pv fm Y with
         | Some (ms, r) => Some ((k, x) :: ms, r)
         | None => None
         end
    else if Ascii.eqb sep "}" then Some ([(k, x)], Y)
    else None.
Proof.
  intros Hk Hpv Hsep.
  destruct (unquote_appendString k (":" ++ render x ++ String sep Y) Hk) as (body & E & Hu).
  rewrite E. unfold parse_members; fold parse_members.
  change (skip_ws (String dquote body)) with (String dquote body).
  change (Ascii.eqb dquote dquote) with true. cbv iota.
  rewrite Hu.
  change (skip_ws (":" ++ render x ++ String sep Y))
    with (String ":" (render x ++ String sep Y)).
  change (Ascii.eqb ":" ":") with true. cbv iota.
  rewrite Hpv. cbn [skip_ws]. rewrite Hsep. reflexivity.
Qed.

Lemma parse_elements_step (pv : string -> option (value * string)) (fm : nat)
    (x : value) (sep : ascii) (Y : string) :
  pv (render x ++ String sep Y) = Some (x, String sep Y) ->
  is_space sep = false ->
  parse_elements pv (S fm) (render x ++ String sep Y) =
    if Ascii.eqb sep ","
    then match parse_elements pv fm Y with
         | Some (vs, r) => Some (x :: vs, r)
         | None => None
         end
    else if Ascii.eqb sep "]" then Some ([x], Y)
    else None.
Proof.
  intros Hpv Hsep. unfold parse_elements; fold parse_elements.
  rewrite Hpv. cbn [skip_ws]. rewrite Hsep. reflexivity.
Qed.

Section Nesting.
Variable n : nat.
Hypothesis IH : forall v, fits n v -> forall rest, stops rest ->
  parse_value n (render v ++ rest) = Some (v, rest).

Lemma parse_members_fields (ms : list (string * value)) : forall fm rest,
  ms <> [] -> (List.length ms <= fm)%nat ->
  Forall (fun kv => utf8.ValidString (fst kv) = true /\ fits n (snd kv)) ms ->
  parse_members (parse_value n) fm (fields ms ++ String "}" rest) = Some (ms, rest).
Proof.
  induction ms as [|[k x] ms IHms]; intros fm rest Hne Hlen Hall; [congruence|].
  apply Forall_cons in Hall as [[Hk Hx] Hall]. cbn [fst snd] in Hk, Hx.
  destruct fm as [|fm]; [cbn in Hlen; lia|].
  destruct ms as [|m ms].
  - rewrite fields_one.
    rewrite (app_assoc (appendString k) (":" ++ render x) (String "}" rest)).
    rewrite (app_assoc ":" (render x) (String "}" rest)).
    rewrite parse_members_step;
      [reflexivity | exact Hk | apply IH; [exact Hx | apply stops_brace] | reflexivity].
  - rewrite fields_cons.
    rewrite (app_assoc (appendString k) _ (String "}" rest)).
    rewrite (app_assoc ":" _ (String "}" rest)).
    rewrite (app_assoc (render x) _ (String "}" rest)).
    change (("," ++ fields (m :: ms)) ++ String "}" rest)
      with (String "," (fields (m :: ms) ++ String "}" rest)).
    rewrite parse_members_step;
      [ | exact Hk | apply IH; [exact Hx | apply stops_comma] | reflexivity].
    change (Ascii.eqb "," ",") with true. cbv iota.
    rewrite IHms; [reflexivity | discriminate | cbn in Hlen |- *; lia | exact Hall].
Qed.

Lemma parse_elements_elements (l : list value) : forall fm rest,
  l <> [] -> (List.length l <= fm)%nat ->
  Forall (fits n) l ->
  parse_elements (parse_value n) fm (elements l ++ String "]" rest) = Some (l, rest).
Proof.
  induction l as [|x l IHl]; intros fm rest Hne Hlen Hall; [congruence|].
  apply Forall_cons in Hall as [Hx Hall].
  destruct fm as [|fm]; [cbn in Hlen; lia|].
  destruct l as [|y l].
  - rewrite elements_one.
    rewrite parse_elements_step;
      [reflexivity | apply IH; [exact Hx | apply stops_bracket] | reflexivity].
  - rewrite elements_cons.
    rewrite (app_assoc (render x) _ (String "]" rest)).
    change (("," ++ elements (y :: l)) ++ String "]" rest)
      with (String "," (elements (y :: l) ++ String "]" rest)).
    rewrite parse_elements_step;
      [ | apply IH; [exact Hx | apply stops_comma] | reflexivity].
    change (Ascii.eqb "," ",") with true. cbv iota.
    rewrite IHl; [reflexivity | discriminate | cbn in Hlen |- *; lia | exact Hall].
Qed.

End Nesting.

Lemma appendString_length (k : string) : (1 <= String.length (appendString k))%nat.
Proof. unfold appendString. cbn [String.length]. lia. Qed.

Lemma fields_length (ms : list (string * value)) :
  (List.length ms <= String.length (fields ms))%nat.
Proof.
  induction ms as [|[k x] ms IHms]; [cbn; lia|].
  destruct ms as [|m ms].
  - rewrite fields_one, length_app. pose proof (appendString_length k). cbn [List.length]. lia.
  - rewrite fields_cons, length_app. pose proof (appendString_length k).
    rewrite (length_app ":"), (length_app (render x)), (length_app ",").
    cbn [List.length String.length] in *. lia.
Qed.

Lemma opens_length (s : string) : opens s -> (1 <= String.length s)%nat.
Proof. intros (c & t & -> & _). cbn [String.length]. lia. Qed.

Lemma elements_length (n : nat) (l : list value) :
  Forall (fits n) l -> (List.length l <= String.length (elements l))%nat.
Proof.
  induction l as [|x l IHl]; intros Hall; [cbn; lia|].
  apply Forall_cons in Hall as [Hx Hall].
  pose proof (opens_length _ (render_opens n x Hx)).
  destruct l as [|y l].
  - rewrite elements_one. cbn [List.length]. lia.
  - rewrite elements_cons, length_app, (length_app ",").
    specialize (IHl Hall). cbn [List.length String.length] in *. lia.
Qed.

(** What [render] writes, [parse_value] reads back, whatever follows that
    stops a number. *)
Theorem parse_value_render (n : nat) : forall v, fits n v -> forall rest, stops rest ->
  parse_value n (render v ++ rest) = Some (v, rest).
Proof.
  induction n as [|n IH]; intros v Hfits rest Hstop; [inversion Hfits|].
  inversion Hfits as [n0|n0 b|n0 lit Hlit|n0 s Hs|n0 l Hl|n0 ms Hms]; subst.
  - reflexivity.
  - destruct b; reflexivity.
  - destruct Hlit as [(c & l & -> & Hc) Hscan].
    cbn [render String.append]. rewrite parse_value_number by exact Hc.
    change (String c (l ++ rest)) with (String c l ++ rest).
    now rewrite (Hscan rest Hstop).
  - cbn [render].
    destruct (unquote_appendString s rest Hs) as (body & E & Hu).
    rewrite E, parse_value_string, Hu. reflexivity.
  - rewrite render_Array. cbn [String.append]. rewrite parse_value_array.
    rewrite (app_assoc (elements l) "]" rest). cbn [String.append].
    destruct l as [|x l]; [reflexivity|].
    assert (Ho : opens (elements (x :: l) ++ String "]" rest)).
    { apply opens_app. apply Forall_cons in Hl as [Hx _].
      destruct l; [rewrite elements_one | rewrite elements_cons; apply opens_app];
        exact (render_opens n x Hx). }
    rewrite (opens_skip_ws _ Ho).
    destruct Ho as (c & t & E & _ & Hb & _). rewrite E at 1. rewrite Hb.
    rewrite (parse_elements_elements n IH); [reflexivity | discriminate | | exact Hl].
    rewrite length_app. pose proof (elements_length n _ Hl). lia.
  - rewrite render_Object. cbn [String.append]. rewrite parse_value_object.
    rewrite (app_assoc (fields ms) "}" rest). cbn [String.append].
    destruct ms as [|[k x] ms]; [reflexivity|].
    assert (Ho : opens (fields ((k, x) :: ms) ++ String "}" rest)).
    { apply opens_app.
      destruct ms; [rewrite fields_one | rewrite fields_cons]; apply opens_app;
        eexists _, _; (split; [reflexivity|]); repeat split; reflexivity. }
    rewrite (opens_skip_ws _ Ho).
    destruct Ho as (c & t & E & _ & _ & Hb). rewrite E at 1. rewrite Hb.
    rewrite (parse_members_fields n IH); [reflexivity | discriminate | | exact Hms].
    rewrite length_app. pose proof (fields_length ((k, x) :: ms)). lia.
Qed.

Lemma fits_mono (n : nat) : forall v, fits n v -> forall m, (n <= m)%nat -> fits m v.
Proof.
  induction n as [|n IH]; intros v H m Hle; [inversion H|].
  destruct m as [|m]; [lia|]. assert (Hle' : (n <= m)%nat) by lia.
  inversion H as [n0|n0 b|n0 lit Hlit|n0 s Hs|n0 l Hl|n0 ms Hms]; subst.
  - constructor.
  - constructor.
  - constructor; assumption.
  - constructor; assumption.
  - constructor. eapply Forall_impl; [exact Hl|]. intros x Hx. exact (IH x Hx m Hle').
  - constructor. eapply Forall_impl; [exact Hms|].
    intros [k x] [Hk Hx]. split; [exact Hk | exact (IH x Hx m Hle')].
Qed.

(** A whole text written by [render] is parsed back. *)
Theorem parse_render (n : nat) (v : value) :
  fits n v -> (n <= S (String.length (render v)))%nat -> parse (render v) = Some v.
Proof.
  intros Hfits Hn. unfold parse.
  pose proof (parse_value_render _ v (fits_mono n v Hfits _ Hn) EmptyString I) as H.
  rewrite app_nil_r in H. rewrite H. reflexivity.
Qed.

End json_facts.

(* ===================================================================== *)
(** * The OS collector: states and their parsers *)
(* ===================================================================== *)
Module os_spec.
Import components os.

Ltac lookup_keys :=
  unfold map_get;
  repeat first
    [ rewrite lookup_insert_eq
    | rewrite lookup_singleton_eq
    | rewrite lookup_insert_ne by discriminate
    | rewrite lookup_singleton_ne by discriminate
    | rewrite lookup_empty ];
  cbn [default from_option id].

(** [States] never fails and emits five states: host, kernel, platform,
    uptimes and the process counts, in this order. *)
Lemma States_names (thr : Z) (o : Output) :
  exists states, States thr o = Ok states /\
    map Name states =
      [StateNameHost; StateNameKernel; StateNamePlatform; StateNameUptimes;
       StateNameProcessCountsByStatus].
Proof.
  eexists; split; [reflexivity|].
  cbn [map app Name]. unfold stateProcCounts.
  destruct (thr <=? ProcessCountZombieProcesses o); reflexivity.
Qed.

Lemma stateProcCounts_Healthy (thr : Z) (o : Output) :
  Healthy (stateProcCounts thr o) = negb (thr <=? ProcessCountZombieProcesses o).
Proof.
  unfold stateProcCounts.
  destruct (thr <=? ProcessCountZombieProcesses o); reflexivity.
Qed.

(** C5: the process_counts_by_status state that [States] emits is
    unhealthy exactly when the zombie count is greater than or equal to
    [DefaultZombieProcessCountThreshold], and healthy exactly when the
    count is strictly below it. *)
Theorem States_zombie_threshold (DefaultZombieProcessCountThreshold : Z) (o : Output) :
  exists states st,
    States DefaultZombieProcessCountThreshold o = Ok states /\
    filter (fun s => Name s = StateNameProcessCountsByStatus) states = [st] /\
    (Healthy st = false <->
       DefaultZombieProcessCountThreshold <= ProcessCountZombieProcesses o) /\
    (Healthy st = true <->
       ProcessCountZombieProcesses o < DefaultZombieProcessCountThreshold).
Proof.
  eexists.
  exists (stateProcCounts DefaultZombieProcessCountThreshold o).
  split; [reflexivity|]. split.
  - assert (HN : Name (stateProcCounts DefaultZombieProcessCountThreshold o)
                 = StateNameProcessCountsByStatus).
    { unfold stateProcCounts.
      destruct (DefaultZombieProcessCountThreshold <=? ProcessCountZombieProcesses o);
        reflexivity. }
    cbn [app].
    repeat (rewrite filter_cons_False by (cbn; discriminate)).
    rewrite filter_cons_True by exact HN. reflexivity.
  - rewrite stateProcCounts_Healthy.
    destruct (Z.leb_spec DefaultZombieProcessCountThreshold (ProcessCountZombieProcesses o));
      cbn; split; split; intros; (lia || discriminate || reflexivity).
Qed.


Lemma step_unknown (o : Output) (st : State) :
  ~ known_name (Name st) ->
  ParseStatesToOutput_step o st = Fail (ErrUnknownStateName (Name st)).
Proof.
  intros Hn. unfold ParseStatesToOutput_step.
  repeat match goal with
  | |- context [String.eqb ?a ?b] =>
      destruct (String.eqb_spec a b) as [E|_];
      [exfalso; apply Hn; unfold known_name; tauto|]
  end.
  reflexivity.
Qed.

Lemma loop_unknown (states : list State) : forall o,
  Exists (fun st => ~ known_name (Name st)) states ->
  exists e, ParseStatesToOutput_loop o states = Fail e.
Proof.
  induction states as [|st rest IH]; intros o Hex.
  - inversion Hex.
  - cbn [ParseStatesToOutput_loop].
    destruct (ParseStatesToOutput_step o st) as [o'|e] eqn:Hstep; [|eauto].
    apply IH. inversion Hex as [? ? Hbad|]; subst; [|assumption].
    rewrite step_unknown in Hstep by assumption. discriminate.
Qed.

(** C10: [ParseStatesToOutput] returns an error, and no Output, as soon as
    one of the given states has a name that is not one of the five known
    state names. *)
Theorem ParseStatesToOutput_unknown_name (states : list State) :
  Exists (fun st => ~ known_name (Name st)) states ->
  exists e, ParseStatesToOutput states = Fail e.
Proof. apply loop_unknown. Qed.

Lemma ParseStatesToOutput_unknown_name_witness :
  Exists (fun st => ~ known_name (Name st))
    [mkState "host" true "" ∅; mkState "gpu" true "" ∅] /\
  exists e, ParseStatesToOutput [mkState "host" true "" ∅; mkState "gpu" true "" ∅] = Fail e.
Proof.
  assert (H : Exists (fun st => ~ known_name (Name st))
                [mkState "host" true "" ∅; mkState "gpu" true "" ∅]).
  { apply Exists_cons_tl, Exists_cons_hd. cbn. unfold known_name.
    intros [H|[H|[H|[H|H]]]]; discriminate H. }
  split; [exact H | exact (ParseStatesToOutput_unknown_name _ H)].
Defined.

(** The parsers of host, kernel and platform never fail, and the parser of
    the zombie count treats an absent key as zero. *)
Lemma ParseStateHost_total (m : gmap string string) : is_ok (ParseStateHost m) = true.
Proof. reflexivity. Qed.

Lemma ParseStateKernel_total (m : gmap string string) : is_ok (ParseStateKernel m) = true.
Proof. reflexivity. Qed.

Lemma ParseStatePlatform_total (m : gmap string string) : is_ok (ParseStatePlatform m) = true.
Proof. reflexivity. Qed.

Lemma ParseStateProcessCountZombieProcesses_absent (m : gmap string string) :
  m !! StateKeyProcessCountZombieProcesses = None ->
  ParseStateProcessCountZombieProcesses m = Ok 0.
Proof. intros H. unfold ParseStateProcessCountZombieProcesses. rewrite H. reflexivity. Qed.

(** [ParseStateUptimes] fails as soon as one of its two numeric keys is
    absent: the empty text is not a number. *)
Lemma ParseStateUptimes_absent_seconds (m : gmap string string) :
  m !! StateKeyUptimesSeconds = None ->
  ParseStateUptimes m = Fail (ErrNum (strconv.syntaxError "ParseUint" "")).
Proof.
  intros H. unfold ParseStateUptimes, map_get. rewrite H. reflexivity.
Qed.

(** C6 (fails on the code): on a map from which the uptime keys are absent
    (here a map of an older schema holding only the humanized uptime),
    [ParseStateUptimes] returns the syntax error of [strconv.ParseUint] on
    the empty text, while the parser of the zombie count, given the same
    map, tolerates its absent key and returns zero. *)
Theorem ParseStateUptimes_missing_key_fails :
  ParseStateUptimes {[ StateKeyUptimesHumanized := "3 days ago" ]}
    = Fail (ErrNum (strconv.syntaxError "ParseUint" "")) /\
  ParseStateProcessCountZombieProcesses {[ StateKeyUptimesHumanized := "3 days ago" ]} = Ok 0.
Proof.
  split.
  - apply ParseStateUptimes_absent_seconds. apply lookup_singleton_ne. discriminate.
  - apply ParseStateProcessCountZombieProcesses_absent. apply lookup_singleton_ne. discriminate.
Qed.

Lemma ParseStateHost_States (o : Output) :
  ParseStateHost {[ StateKeyHostID := Host_ID (Host_ o) ]} = Ok (Host_ o).
Proof. destruct o as [[id] ? ? ? ?]. unfold ParseStateHost. lookup_keys. reflexivity. Qed.

Lemma ParseStateKernel_States (o : Output) :
  ParseStateKernel (<[ StateKeyKernelArch := Kernel_Arch (Kernel_ o) ]>
                      {[ StateKeyKernelVersion := Kernel_Version (Kernel_ o) ]})
  = Ok (Kernel_ o).
Proof. destruct o as [? [arch ver] ? ? ?]. unfold ParseStateKernel. lookup_keys. reflexivity. Qed.

Lemma ParseStatePlatform_States (o : Output) :
  ParseStatePlatform (<[ StateKeyPlatformName := Platform_Name (Platform_ o) ]>
                        (<[ StateKeyPlatformFamily := Platform_Family (Platform_ o) ]>
                           {[ StateKeyPlatformVersion := Platform_Version (Platform_ o) ]}))
  = Ok (Platform_ o).
Proof.
  destruct o as [? ? [name fam ver] ? ?]. unfold ParseStatePlatform. lookup_keys. reflexivity.
Qed.

Lemma ParseStateUptimes_States (o : Output) :
  is_uint64 (Seconds (Uptimes_ o)) -> is_uint64 (BootTimeUnixSeconds (Uptimes_ o)) ->
  ParseStateUptimes
    (<[ StateKeyUptimesSeconds := strconv.FormatUint (Seconds (Uptimes_ o)) ]>
       (<[ StateKeyUptimesHumanized := SecondsHumanized (Uptimes_ o) ]>
          (<[ StateKeyUptimesBootTimeUnixSeconds :=
                strconv.FormatUint (BootTimeUnixSeconds (Uptimes_ o)) ]>
             {[ StateKeyUptimesBootTimeHumanized := BootTimeHumanized (Uptimes_ o) ]})))
  = Ok (Uptimes_ o).
Proof.
  destruct o as [? ? ? [secs secsh boot booth] ?].
  cbn [Uptimes_ Seconds SecondsHumanized BootTimeUnixSeconds BootTimeHumanized].
  intros Hs Hb.
  unfold ParseStateUptimes. lookup_keys.
  rewrite (strconv_facts.ParseUint_FormatUint secs Hs).
  rewrite (strconv_facts.ParseUint_FormatUint boot Hb).
  reflexivity.
Qed.

Lemma ParseStateProcessCountZombieProcesses_States (thr : Z) (o : Output) :
  is_int (ProcessCountZombieProcesses o) ->
  ParseStateProcessCountZombieProcesses (ExtraInfo (stateProcCounts thr o))
  = Ok (ProcessCountZombieProcesses o).
Proof.
  intros Hz.
  assert (E : ExtraInfo (stateProcCounts thr o)
              = {[ StateKeyProcessCountZombieProcesses :=
                     strconv.FormatInt (ProcessCountZombieProcesses o) ]}).
  { unfold stateProcCounts. destruct (thr <=? ProcessCountZombieProcesses o); reflexivity. }
  rewrite E. unfold ParseStateProcessCountZombieProcesses.
  rewrite lookup_singleton_eq.
  rewrite (strconv_facts.Atoi_FormatInt _ Hz). reflexivity.
Qed.

Lemma stateProcCounts_Name (thr : Z) (o : Output) :
  Name (stateProcCounts thr o) = StateNameProcessCountsByStatus.
Proof.
  unfold stateProcCounts. destruct (thr <=? ProcessCountZombieProcesses o); reflexivity.
Qed.

Lemma step_process_counts (o : Output) (st : State) :
  Name st = StateNameProcessCountsByStatus ->
  ParseStatesToOutput_step o st =
    match ParseStateProcessCountZombieProcesses (ExtraInfo st) with
    | Fail e => Fail e
    | Ok n => Ok (set_ProcessCountZombieProcesses o n)
    end.
Proof. intros E. unfold ParseStatesToOutput_step. rewrite E. reflexivity. Qed.

(** Flatten-then-parse: the five states of [States] parse back to the
    Output they were made from. *)
Lemma ParseStatesToOutput_States (thr : Z) (o : Output) :
  Output_wf o ->
  exists states, States thr o = Ok states /\ ParseStatesToOutput states = Ok o.
Proof.
  intros (Hs & Hb & Hz).
  eexists; split; [reflexivity|].
  cbn [app]. unfold ParseStatesToOutput.
  cbn [ParseStatesToOutput_loop].
  change (ParseStatesToOutput_step Output_zero ?st)
    with (match ParseStateHost (ExtraInfo st) with
          | Fail e => Fail e | Ok h => Ok (set_Host Output_zero h) end) at 1.
  cbn [ExtraInfo]. rewrite ParseStateHost_States.
  match goal with |- context [ParseStatesToOutput_step ?o0 ?st] =>
    change (ParseStatesToOutput_step o0 st)
      with (match ParseStateKernel (ExtraInfo st) with
            | Fail e => Fail e | Ok k => Ok (set_Kernel o0 k) end) end.
  cbn [ExtraInfo]. rewrite ParseStateKernel_States.
  match goal with |- context [ParseStatesToOutput_step ?o0 ?st] =>
    change (ParseStatesToOutput_step o0 st)
      with (match ParseStatePlatform (ExtraInfo st) with
            | Fail e => Fail e | Ok k => Ok (set_Platform o0 k) end) end.
  cbn [ExtraInfo]. rewrite ParseStatePlatform_States.
  match goal with |- context [ParseStatesToOutput_step ?o0 ?st] =>
    change (ParseStatesToOutput_step o0 st)
      with (match ParseStateUptimes (ExtraInfo st) with
            | Fail e => Fail e | Ok k => Ok (set_Uptimes o0 k) end) end.
  cbn [ExtraInfo]. rewrite (ParseStateUptimes_States o Hs Hb).
  rewrite step_process_counts by apply stateProcCounts_Name.
  rewrite (ParseStateProcessCountZombieProcesses_States thr o Hz).
  destruct o; reflexivity.
Qed.

(** ** JSON *)

Ltac eval_keys :=
  repeat match goal with
  | |- context [json.key_is ?a ?b] =>
      let v := eval vm_compute in (json.key_is a b) in
      change (json.key_is a b) with v; cbv iota
  end.

Lemma set_uint64_FormatUint (u cur : Z) :
  is_uint64 u -> set_uint64 (json.Number (strconv.FormatUint u)) cur = Ok u.
Proof.
  intros Hu. unfold set_uint64. now rewrite (strconv_facts.ParseUint_FormatUint u Hu).
Qed.

Lemma set_int_FormatInt (i cur : Z) :
  is_int i -> set_int (json.Number (strconv.FormatInt i)) cur = Ok i.
Proof.
  intros Hi. unfold set_int. now rewrite (strconv_facts.ParseInt_FormatInt i Hi).
Qed.

(** The fields of the parsed object are stored back where they came
    from. *)
Lemma Output_fields_toJSON (o : Output) :
  Output_wf o -> set_struct Output_fields (Output_toJSON o) Output_zero = Ok o.
Proof.
  intros (Hs & Hb & Hz).
  destruct o as [[id] [arch kver] [pname pfam pver] [secs secsh boot booth] zombies].
  cbn [Uptimes_ Seconds BootTimeUnixSeconds ProcessCountZombieProcesses] in Hs, Hb, Hz.
  unfold Output_toJSON, Host_toJSON, Kernel_toJSON, Platform_toJSON, Uptimes_toJSON.
  cbn [set_struct Output_fields Host_ Kernel_ Platform_ Uptimes_ ProcessCountZombieProcesses
       Host_ID Kernel_Arch Kernel_Version Platform_Name Platform_Family Platform_Version
       Seconds SecondsHumanized BootTimeUnixSeconds BootTimeHumanized Output_zero].
  eval_keys.
  cbn [set_struct Host_fields Kernel_fields Platform_fields Uptimes_fields bind set_string
       Host_zero Kernel_zero Platform_zero Uptimes_zero
       Host_ID Kernel_Arch Kernel_Version Platform_Name Platform_Family Platform_Version
       Seconds SecondsHumanized BootTimeUnixSeconds BootTimeHumanized].
  eval_keys.
  cbn [set_struct Output_fields Host_fields Kernel_fields Platform_fields Uptimes_fields
       bind set_string Host_ Kernel_ Platform_ Uptimes_ ProcessCountZombieProcesses
       Host_ID Kernel_Arch Kernel_Version Platform_Name Platform_Family Platform_Version
       Seconds SecondsHumanized BootTimeUnixSeconds BootTimeHumanized].
  repeat first
    [ rewrite set_uint64_FormatUint by assumption
    | rewrite set_int_FormatInt by assumption
    | progress eval_keys
    | progress cbn [set_struct Output_fields Host_fields Kernel_fields Platform_fields
                    Uptimes_fields bind set_string
                    Host_ Kernel_ Platform_ Uptimes_ ProcessCountZombieProcesses
                    Host_ID Kernel_Arch Kernel_Version Platform_Name Platform_Family
                    Platform_Version
                    Seconds SecondsHumanized BootTimeUnixSeconds BootTimeHumanized] ].
  reflexivity.
Qed.

Lemma Output_toJSON_fits (o : Output) :
  Output_wf o -> Output_utf8 o -> json.fits 3 (Output_toJSON o).
Proof.
  intros (Hs & Hb & Hz) (H1 & H2 & H3 & H4 & H5 & H6 & H7 & H8).
  unfold Output_toJSON, Host_toJSON, Kernel_toJSON, Platform_toJSON, Uptimes_toJSON.
  repeat first
    [ apply json.fits_Object
    | apply Forall_cons; split
    | apply Forall_nil
    | split; [reflexivity|]
    | apply json.fits_Str; assumption
    | apply json.fits_Number, json_facts.num_lit_FormatUint; assumption
    | apply json.fits_Number, json_facts.num_lit_FormatInt; assumption
    | exact I ].
Qed.

(** Encode-then-decode: the JSON text of an Output whose strings are valid
    UTF-8 decodes to this Output. *)
Lemma ParseOutputJSON_JSON (o : Output) :
  Output_wf o -> Output_utf8 o ->
  exists data, JSON o = Ok data /\ ParseOutputJSON data = Ok o.
Proof.
  intros Hwf Hutf. eexists; split; [reflexivity|].
  unfold ParseOutputJSON.
  rewrite (json_facts.parse_render 3).
  - apply Output_fields_toJSON, Hwf.
  - apply Output_toJSON_fits; assumption.
  - unfold Output_toJSON. rewrite json_facts.render_Object.
    cbn [String.length]. rewrite json_facts.length_app. cbn [String.length]. lia.
Qed.

(** The text that [JSON] writes, and a text written by hand that
    [ParseOutputJSON] reads: white space, another order of the keys, a key
    in capitals, an unknown key, an escaped character. *)
Example JSON_text :
  JSON (mkOutput (mkHost "4c4c4544") (mkKernel "amd64" "6.8.0") (mkPlatform "ubuntu" "debian" "22.04")
                 (mkUptimes 3600 "1 hour ago" 1700000000 "<1 year ago>") 12)
  = Ok (with_quotes
      "{'host':{'id':'4c4c4544'},'kernel':{'arch':'amd64','version':'6.8.0'},'platform':{'name':'ubuntu','family':'debian','version':'22.04'},'uptimes':{'seconds':3600,'seconds_humanized':'1 hour ago','boot_time_unix_seconds':1700000000,'boot_time_humanized':'\u003c1 year ago\u003e'},'process_count_zombie_processes':12}").
Proof. vm_compute. reflexivity. Qed.

Example ParseOutputJSON_text :
  ParseOutputJSON (with_quotes
    " { 'process_count_zombie_processes' : -3, 'extra' : [1.5e3, null, {}],
        'KERNEL' : { 'version' : '6.8\u002e0' }, 'host' : { 'id' : 'h' } } ")
  = Ok (mkOutput (mkHost "h") (mkKernel "" "6.8.0") Platform_zero Uptimes_zero (-3)).
Proof. vm_compute. reflexivity. Qed.

Example ParseOutputJSON_errors :
  ParseOutputJSON (with_quotes "{'host':{'id':'h'},}") = Fail ErrSyntax /\
  ParseOutputJSON (with_quotes "{'uptimes':{'seconds':-1}}") = Fail ErrUnmarshalType /\
  ParseOutputJSON (with_quotes "{'host':{'id':7}}") = Fail ErrUnmarshalType.
Proof. vm_compute. repeat split; reflexivity. Qed.

(** C2 (fails on the code as stated): the Output whose host id is the byte
    0xFF is a value of the type, and its JSON text does not decode to it:
    [json.Marshal] writes the invalid byte as the escape of U+FFFD, which
    decodes to the three bytes EF BF BD. *)
Lemma JSON_round_trip_fails_on_invalid_utf8 :
  Output_wf invalid_utf8_output /\
  (exists data, JSON invalid_utf8_output = Ok data /\
     ParseOutputJSON data
     = Ok (set_Host invalid_utf8_output (mkHost (String "239" (String "191" (String "189" EmptyString)))))) /\
  ~ (exists data, JSON invalid_utf8_output = Ok data /\
       ParseOutputJSON data = Ok invalid_utf8_output).
Proof.
  split; [|split].
  - unfold Output_wf, is_uint64, is_int. vm_compute. intuition discriminate.
  - eexists; split; [reflexivity|]. vm_compute. reflexivity.
  - intros (data & HJ & HP). injection HJ as <-.
    revert HP. vm_compute. discriminate.
Qed.

(** C2, as amended: for every Output (its integers being [uint64] and
    [int] values), the states of [States] parse back to the Output with
    [ParseStatesToOutput], the integers going through their decimal text
    without loss; and when the strings of the Output are valid UTF-8, the
    text of [JSON] decodes back to the Output with [ParseOutputJSON]. *)
Theorem Output_round_trips (DefaultZombieProcessCountThreshold : Z) (o : Output) :
  Output_wf o ->
  (exists states,
     States DefaultZombieProcessCountThreshold o = Ok states /\
     ParseStatesToOutput states = Ok o) /\
  (Output_utf8 o ->
   exists data, JSON o = Ok data /\ ParseOutputJSON data = Ok o).
Proof.
  intros Hwf. split.
  - apply ParseStatesToOutput_States, Hwf.
  - intros Hutf. apply ParseOutputJSON_JSON; assumption.
Qed.

Lemma Output_round_trips_witness :
  let o := mkOutput (mkHost "4c4c4544-0042") (mkKernel "amd64" "6.8.0-45-generic")
                    (mkPlatform "ubuntu" "debian" "22.04")
                    (mkUptimes 3600 "1 hour ago" 18446744073709551615 "<1 year ago>")
                    (-9223372036854775808) in
  Output_wf o /\ Output_utf8 o /\
  (exists states, States 1000 o = Ok states /\ ParseStatesToOutput states = Ok o) /\
  (exists data, JSON o = Ok data /\ ParseOutputJSON data = Ok o).
Proof.
  intros o.
  assert (Hwf : Output_wf o).
  { unfold Output_wf, is_uint64, is_int. vm_compute. intuition discriminate. }
  assert (Hutf : Output_utf8 o) by (repeat split; reflexivity).
  split; [exact Hwf|]. split; [exact Hutf|].
  destruct (Output_round_trips 1000 o Hwf) as [Hstates Hjson].
  split; [exact Hstates | exact (Hjson Hutf)].
Defined.

End os_spec.

(* ===================================================================== *)
(** * The SXid log line classifier *)
(* ===================================================================== *)
Module sxid_spec.
Import sxid.

Lemma literal_HasPrefix (lit : string) : forall s t,
  literal lit s = Some t -> strings.HasPrefix s lit = true.
Proof.
  induction lit as [|a lit IH]; intros s t H.
  - destruct s; reflexivity.
  - destruct s as [|c s]; [discriminate H|].
    cbn [literal] in H. cbn [strings.HasPrefix].
    destruct (Ascii.eqb c a); [|discriminate H].
    cbn [andb]. exact (IH s t H).
Qed.

(** A line without the marker [SXid] is not matched by the pattern. *)
Lemma no_marker_no_match (line : string) :
  strings.Contains line "SXid" = false -> FindStringSubmatch1 line = None.
Proof.
  induction line as [|c line IH]; intros H.
  - reflexivity.
  - cbn [strings.Contains] in H. apply orb_false_iff in H as [Hp Hc].
    cbn [FindStringSubmatch1].
    replace (match_here (String c line)) with (@None string); [exact (IH Hc)|].
    unfold match_here.
    destruct (literal "SXid" (String c line)) as [t|] eqn:E; [|reflexivity].
    apply literal_HasPrefix in E. congruence.
Qed.

Lemma no_match_code_zero (line : string) :
  FindStringSubmatch1 line = None -> ExtractNVSwitchSXid line = 0.
Proof. intros H. unfold ExtractNVSwitchSXid. rewrite H. reflexivity. Qed.

(** C3: classification is total: [ParseDmesgLogLine] returns a record and
    no error for every line; the record keeps the line and has no matched
    filter.  When the pattern does not match (in particular when the line
    has no [SXid] marker) the extracted code is 0 and, the catalog having
    no entry for code 0, the detail is absent.  When no timestamp can be
    parsed from the line, the record's time is the observation time, in
    UTC. *)
Theorem ParseDmesgLogLine_total
    (Detail Filter error : Type) (GetDetail : Z -> option Detail)
    (ParseCtimeWithError : string -> result Time error)
    (now : Time) (line : string) :
  GetDetail 0 = None ->
  exists de,
    ParseDmesgLogLine (Filter := Filter) GetDetail ParseCtimeWithError now line = Ok de /\
    Line (LogItem de) = line /\
    Matched (LogItem de) = None /\
    (FindStringSubmatch1 line = None ->
       ExtractNVSwitchSXid line = 0 /\ Detail_ de = None) /\
    (strings.Contains line "SXid" = false -> FindStringSubmatch1 line = None) /\
    (forall e, ParseCtimeWithError line = Fail e ->
       Time_ (LogItem de) = Time_UTC now /\
       instant (Time_ (LogItem de)) = instant now).
Proof.
  intros Hcat. unfold ParseDmesgLogLine.
  eexists; split; [reflexivity|].
  split; [destruct (GetDetail (ExtractNVSwitchSXid line)); reflexivity|].
  split; [destruct (GetDetail (ExtractNVSwitchSXid line)); reflexivity|].
  split; [|split].
  - intros Hno. pose proof (no_match_code_zero line Hno) as H0.
    split; [exact H0|]. rewrite H0, Hcat. reflexivity.
  - apply no_marker_no_match.
  - intros e He. rewrite He.
    destruct (GetDetail (ExtractNVSwitchSXid line)); split; reflexivity.
Qed.

Lemma ParseDmesgLogLine_total_witness :
  let GetDetail := fun code : Z => if code =? 20034 then Some "LTSSM Fault Up" else None in
  let ParseCtimeWithError := fun _ : string => @Fail Time unit tt in
  let now := mkTime 1700000000000000000 Local in
  let line := "usb 1-1: new high-speed USB device" in
  GetDetail 0 = None /\
  exists de,
    ParseDmesgLogLine (Filter := unit) GetDetail ParseCtimeWithError now line = Ok de /\
    Line (LogItem de) = line /\
    Matched (LogItem de) = None /\
    (FindStringSubmatch1 line = None ->
       ExtractNVSwitchSXid line = 0 /\ Detail_ de = None) /\
    (strings.Contains line "SXid" = false -> FindStringSubmatch1 line = None) /\
    (forall e, ParseCtimeWithError line = Fail e ->
       Time_ (LogItem de) = Time_UTC now /\
       instant (Time_ (LogItem de)) = instant now).
Proof.
  intros GetDetail ParseCtimeWithError now line.
  split; [reflexivity|].
  apply (ParseDmesgLogLine_total string unit unit GetDetail ParseCtimeWithError now line).
  reflexivity.
Defined.

(** C4: on the NVSwitch line of the documentation the extracted fault
    code is 20034. *)
Theorem ExtractNVSwitchSXid_20034 :
  ExtractNVSwitchSXid
    "[131453.740743] nvidia-nvswitch0: SXid (PCI:0000:00:00.0): 20034, Fatal, Link 30 LTSSM Fault Up"
  = 20034.
Proof. vm_compute. reflexivity. Qed.

End sxid_spec.

(* ===================================================================== *)
(** * Suggested actions *)
(* ===================================================================== *)
Module common_spec.
Import common.

Lemma contains_reboot_iff {T : Type} `{EqDecision T} (reboot : T) (actions : list T) :
  contains_reboot reboot actions = true <-> reboot ∈ actions.
Proof.
  induction actions as [|a rest IH]; cbn [contains_reboot].
  - split; [discriminate | intros H; inversion H].
  - destruct (decide (a = reboot)) as [->|Hne].
    + split; [intros _; left | reflexivity].
    + rewrite IH. split.
      * intros H. right. exact H.
      * intros H. inversion H; subst; [congruence | assumption].
Qed.

(** C7: [RequiresReboot] is true if and only if the repair actions
    contain the reboot tag: false for no action, true for {reboot} and
    {reboot, repair-hardware}, false for {repair-hardware}; it is a
    function of the set of repair actions alone. *)
Theorem RequiresReboot_iff {RepairActionType : Type} `{EqDecision RepairActionType}
    (RepairActionTypeRebootSystem RepairActionTypeRepairHardware : RepairActionType) :
  RepairActionTypeRepairHardware <> RepairActionTypeRebootSystem ->
  (forall sa, RequiresReboot RepairActionTypeRebootSystem sa = true <->
              RepairActionTypeRebootSystem ∈ RepairActions sa) /\
  RequiresReboot RepairActionTypeRebootSystem (mkSuggestedActions []) = false /\
  RequiresReboot RepairActionTypeRebootSystem
    (mkSuggestedActions [RepairActionTypeRebootSystem]) = true /\
  RequiresReboot RepairActionTypeRebootSystem
    (mkSuggestedActions [RepairActionTypeRebootSystem; RepairActionTypeRepairHardware]) = true /\
  RequiresReboot RepairActionTypeRebootSystem
    (mkSuggestedActions [RepairActionTypeRepairHardware]) = false /\
  (forall sa sa', (forall a, a ∈ RepairActions sa <-> a ∈ RepairActions sa') ->
     RequiresReboot RepairActionTypeRebootSystem sa
     = RequiresReboot RepairActionTypeRebootSystem sa').
Proof.
  intros Hne.
  assert (Hiff : forall sa, RequiresReboot RepairActionTypeRebootSystem sa = true <->
                            RepairActionTypeRebootSystem ∈ RepairActions sa).
  { intros sa. apply contains_reboot_iff. }
  split; [exact Hiff|].
  split; [reflexivity|].
  split; [apply Hiff; cbn; left|].
  split; [apply Hiff; cbn; left|].
  split.
  - unfold RequiresReboot; cbn.
    destruct (decide (RepairActionTypeRepairHardware = RepairActionTypeRebootSystem));
      [contradiction | reflexivity].
  - intros sa sa' Hsame.
    destruct (RequiresReboot RepairActionTypeRebootSystem sa) eqn:E.
    + symmetry. apply Hiff, Hsame, Hiff, E.
    + destruct (RequiresReboot RepairActionTypeRebootSystem sa') eqn:E'; [|reflexivity].
      apply Hiff, Hsame, Hiff in E'. congruence.
Qed.

Lemma RequiresReboot_iff_witness :
  "REPAIR_HARDWARE" <> "REBOOT_SYSTEM" /\
  RequiresReboot "REBOOT_SYSTEM" (mkSuggestedActions ["REBOOT_SYSTEM"; "REPAIR_HARDWARE"]) = true /\
  RequiresReboot "REBOOT_SYSTEM" (mkSuggestedActions ["REPAIR_HARDWARE"]) = false.
Proof.
  assert (Hne : "REPAIR_HARDWARE" <> "REBOOT_SYSTEM") by discriminate.
  split; [exact Hne|].
  pose proof (RequiresReboot_iff "REBOOT_SYSTEM" "REPAIR_HARDWARE" Hne)
    as (_ & _ & _ & H3 & H4 & _).
  split; [exact H3 | exact H4].
Defined.

End common_spec.

(* ===================================================================== *)
(** * The reboot runner and the PCI listing *)
(* ===================================================================== *)
Module reboot_spec.
Import process reboot.

(** C9: called by a process whose effective user id is not root,
    [Reboot] returns [ErrNotRoot] and has done nothing: no subprocess was
    constructed or started and no delayed action was scheduled, whatever
    the options. *)
Theorem Reboot_not_root (euid : Z) (run : Run) (opts : list OpOption) :
  euid <> 0 -> Reboot euid run opts = (Some ErrNotRoot, []).
Proof.
  intros Hne. unfold Reboot, applyOpts.
  destruct (Z.eqb_spec euid 0) as [->|_]; [contradiction|]. reflexivity.
Qed.

Lemma Reboot_not_root_witness :
  1000 <> 0 /\
  Reboot 1000 (mkRun None None [("", NotReady)] None) [WithDelaySeconds 5; WithSystemctl true]
    = (Some ErrNotRoot, []).
Proof. split; [lia | apply Reboot_not_root; lia]. Defined.

(** A delayed reboot whose context is done before the delay expires starts
    nothing. *)
Lemma delayed_cancelled (run : Run) (cmd : string) (err : option goerror) :
  delayed ContextDone run cmd err = [EvLog "context done, aborting reboot"].
Proof. reflexivity. Qed.

(** Whatever [scanner.Err()] is, [rebootFunc] never returns it: when the
    message is not the one of a closed pipe it returns the captured [err]
    of the enclosing function. *)
Lemma rebootFunc_scanner_error (run : Run) (cmd : string) (err : option goerror)
    (serr : goerror) (tr : list event) :
  start_err run = None ->
  reboot.scan (stdout run) = (None, tr) ->
  scanner_err run = Some serr ->
  strings.Contains (Error serr) "file already closed" = false ->
  rebootFunc run cmd err = (err, EvStart :: tr).
Proof.
  intros Hs Hscan Herr Hc. unfold rebootFunc.
  rewrite Hs, Hscan, Herr, Hc. reflexivity.
Qed.

(** In the PCI listing a scanner error other than the closed pipe is
    returned to the caller. *)
Lemma ListNVIDIAPCIs_scanner_error (path : string) (run : Run) (final : query.FinalSelect)
    (serr : goerror) (lines : list string) :
  path <> "" ->
  new_err run = None -> start_err run = None ->
  query.scan [] (stdout run) = Ok lines ->
  scanner_err run = Some serr ->
  strings.Contains (Error serr) "file already closed" = false ->
  query.ListNVIDIAPCIs (Ok path) run final = Fail serr.
Proof.
  intros Hp Hn Hs Hscan Herr Hc. unfold query.ListNVIDIAPCIs.
  destruct (String.eqb_spec path "") as [->|_]; [contradiction|].
  rewrite Hn, Hs, Hscan, Herr, Hc. reflexivity.
Qed.

(** In both functions the closed-pipe error is dropped and the function
    goes on as if the scan had ended normally. *)
Lemma rebootFunc_closed_pipe (run : Run) (cmd : string) (err : option goerror)
    (serr : goerror) :
  scanner_err run = Some serr ->
  strings.Contains (Error serr) "file already closed" = true ->
  rebootFunc run cmd err
  = rebootFunc (mkRun (new_err run) (start_err run) (stdout run) None) cmd err.
Proof.
  intros Herr Hc. unfold rebootFunc. cbn [start_err stdout scanner_err].
  rewrite Herr, Hc. reflexivity.
Qed.

Lemma ListNVIDIAPCIs_closed_pipe (lspci : result string goerror) (run : Run)
    (final : query.FinalSelect) (serr : goerror) :
  scanner_err run = Some serr ->
  strings.Contains (Error serr) "file already closed" = true ->
  query.ListNVIDIAPCIs lspci run final
  = query.ListNVIDIAPCIs lspci (mkRun (new_err run) (start_err run) (stdout run) None) final.
Proof.
  intros Herr Hc. unfold query.ListNVIDIAPCIs. cbn [new_err start_err stdout scanner_err].
  rewrite Herr, Hc. reflexivity.
Qed.

(** C1 (fails on the code): a run as root, without delay, in which the
    subprocess starts, prints one line and the scanner then fails with an
    I/O error that is not the closed pipe.  The PCI listing returns this
    error to its caller; [Reboot] returns no error at all, because its
    closure returns the variable [err] of the enclosing function, which is
    nil there, instead of the scanner's error. *)
Theorem Reboot_drops_scanner_error :
  let serr := errorString "read |0: input/output error" in
  let run := mkRun None None [("Rebooting.", NotReady)] (Some serr) in
  strings.Contains (Error serr) "file already closed" = false /\
  query.ListNVIDIAPCIs (Ok "/usr/bin/lspci") run (query.WaitDone None) = Fail serr /\
  fst (Reboot 0 run []) = None.
Proof. vm_compute. repeat split; reflexivity. Qed.

End reboot_spec.

(* ===================================================================== *)
(** * More about strconv: what the parsers accept, and the values they
      give *)
(* ===================================================================== *)
Module strconv_values.
Import strconv.

Lemma digit_of_char (c : ascii) : is_digit c = true -> 0 <= byte_val c - 48 <= 9.
Proof. intros H. apply strconv_facts.is_digit_bounds in H. lia. Qed.

Lemma value_from_ge (s : string) : forall n,
  all_digits s -> 0 <= n -> n <= decimal_value_from n s.
Proof.
  induction s as [|c s IH]; intros n Hs Hn; cbn [decimal_value_from]; [lia|].
  destruct Hs as [Hc Hs]. pose proof (digit_of_char c Hc).
  specialize (IH (n * 10 + (byte_val c - 48)) Hs ltac:(lia)). lia.
Qed.

Lemma value_from_lt (s : string) : forall n,
  all_digits s -> 0 <= n ->
  decimal_value_from n s < (n + 1) * 10 ^ Z.of_nat (String.length s).
Proof.
  induction s as [|c s IH]; intros n Hs Hn; cbn [decimal_value_from String.length].
  - change (10 ^ Z.of_nat 0) with 1. lia.
  - destruct Hs as [Hc Hs]. pose proof (digit_of_char c Hc).
    specialize (IH (n * 10 + (byte_val c - 48)) Hs ltac:(lia)).
    replace (Z.of_nat (S (String.length s))) with (Z.succ (Z.of_nat (String.length s))) by lia.
    rewrite Z.pow_succ_r by lia.
    assert (0 < 10 ^ Z.of_nat (String.length s)) by (apply Z.pow_pos_nonneg; lia).
    nia.
Qed.

(** The digit loop of [ParseUint] on a text of digits: the value, or the
    range error when the value does not fit 64 bits. *)
Lemma ParseUint_loop_digits (fn s0 : string) (s : string) : forall n,
  all_digits s -> 0 <= n <= maxUint64 ->
  ParseUint_loop fn s0 n s =
    if decimal_value_from n s <=? maxUint64 then (decimal_value_from n s, None)
    else (maxUint64, Some (rangeError fn s0)).
Proof.
  induction s as [|c s IH]; intros n Hs Hn; cbn [ParseUint_loop decimal_value_from].
  - destruct (Z.leb_spec n maxUint64); [reflexivity | lia].
  - destruct Hs as [Hc Hs]. rewrite Hc. pose proof (digit_of_char c Hc) as Hd.
    rewrite strconv_facts.cutoff10_eq, strconv_facts.maxUint64_eq in *.
    pose proof (value_from_ge s (n * 10 + (byte_val c - 48)) Hs ltac:(lia)) as Hge.
    destruct (Z.leb_spec 1844674407370955162 n).
    + destruct (Z.leb_spec (decimal_value_from (n * 10 + (byte_val c - 48)) s)
                           18446744073709551615); [lia | reflexivity].
    + destruct (Z.ltb_spec 18446744073709551615 (n * 10 + (byte_val c - 48))).
      * destruct (Z.leb_spec (decimal_value_from (n * 10 + (byte_val c - 48)) s)
                             18446744073709551615); [lia | reflexivity].
      * rewrite IH by (try assumption; lia). reflexivity.
Qed.

(** When the digit loop returns no error, the text is made of digits. *)
Lemma ParseUint_loop_ok_digits (fn s0 : string) (s : string) : forall n v,
  ParseUint_loop fn s0 n s = (v, None) -> all_digits s.
Proof.
  induction s as [|c s IH]; intros n v H; cbn [ParseUint_loop all_digits] in *; [exact I|].
  destruct (is_digit c) eqn:Hc; [|discriminate H].
  split; [reflexivity|].
  destruct (cutoff10 <=? n); [discriminate H|].
  destruct (maxUint64 <? n * 10 + (byte_val c - 48)); [discriminate H|].
  exact (IH _ _ H).
Qed.

(** [ParseUint] accepts exactly the non-empty texts of digits whose value
    fits 64 bits, and gives their value. *)
Lemma ParseUint_accepts (s : string) (v : Z) :
  ParseUint s = (v, None) <->
  s <> EmptyString /\ all_digits s /\ v = decimal_value s /\ v <= maxUint64.
Proof.
  split.
  - intros H. destruct s as [|c s]; [discriminate H|].
    unfold ParseUint in H.
    pose proof (ParseUint_loop_ok_digits _ _ _ _ _ H) as Hd.
    rewrite ParseUint_loop_digits in H
      by (try assumption; rewrite strconv_facts.maxUint64_eq; lia).
    fold (decimal_value (String c s)) in H.
    destruct (Z.leb_spec (decimal_value (String c s)) maxUint64); [|discriminate H].
    injection H as <-. repeat split; [discriminate | apply Hd | apply Hd | assumption].
  - intros (Hne & Hd & -> & Hle). destruct s as [|c s]; [congruence|].
    unfold ParseUint.
    rewrite ParseUint_loop_digits
      by (try assumption; rewrite strconv_facts.maxUint64_eq; lia).
    fold (decimal_value (String c s)).
    destruct (Z.leb_spec (decimal_value (String c s)) maxUint64); [reflexivity | lia].
Qed.

Lemma decimal_value_nonneg (s : string) : all_digits s -> 0 <= decimal_value s.
Proof. intros H. apply (value_from_ge s 0 H). lia. Qed.

Lemma wrap_int64_range (z : Z) : minInt64 <= wrap_int64 z <= maxInt64.
Proof.
  unfold wrap_int64, minInt64, maxInt64.
  change (2 ^ 63) with 9223372036854775808. change (2 ^ 64) with 18446744073709551616.
  pose proof (Z.mod_pos_bound (z + 9223372036854775808) 18446744073709551616 ltac:(lia)).
  lia.
Qed.

Lemma ParseUint_loop_nonneg (fn s0 : string) (s : string) : forall n,
  0 <= n -> 0 <= fst (ParseUint_loop fn s0 n s).
Proof.
  induction s as [|c s IH]; intros n Hn; cbn [ParseUint_loop]; [exact Hn|].
  destruct (is_digit c) eqn:Hc; [|cbn; lia].
  pose proof (digit_of_char c Hc).
  destruct (cutoff10 <=? n); [cbn; rewrite strconv_facts.maxUint64_eq; lia|].
  destruct (maxUint64 <? n * 10 + (byte_val c - 48));
    [cbn; rewrite strconv_facts.maxUint64_eq; lia|].
  apply IH. lia.
Qed.

Lemma ParseUint_nonneg (s : string) : 0 <= fst (ParseUint s).
Proof.
  destruct s as [|c s]; [cbn; lia|]. unfold ParseUint. apply ParseUint_loop_nonneg. lia.
Qed.

(** With a range error [ParseUint] returns the largest value. *)
Lemma ParseUint_loop_range_error (fn s0 : string) (s : string) : forall n un e,
  ParseUint_loop fn s0 n s = (un, Some e) -> Err_ e = ErrRange -> un = maxUint64.
Proof.
  induction s as [|c s IH]; intros n un e H He; cbn [ParseUint_loop] in H; [discriminate H|].
  destruct (is_digit c).
  - destruct (cutoff10 <=? n); [injection H as <- _; reflexivity|].
    destruct (maxUint64 <? n * 10 + (byte_val c - 48)); [injection H as <- _; reflexivity|].
    exact (IH _ _ _ H He).
  - injection H as _ <-. discriminate He.
Qed.

Lemma ParseUint_range_error (s : string) (un : Z) (e : NumError) :
  ParseUint s = (un, Some e) -> Err_ e = ErrRange -> un = maxUint64.
Proof.
  destruct s as [|c s]; unfold ParseUint.
  - intros H He. injection H as _ <-. discriminate He.
  - apply ParseUint_loop_range_error.
Qed.

(** Whatever the text, an integer that [ParseInt] returns without error
    is an [int64]. *)
Lemma ParseInt_range (s : string) (v : Z) :
  ParseInt s = (v, None) -> minInt64 <= v <= maxInt64.
Proof.
  unfold minInt64, maxInt64. change (2 ^ 63) with 9223372036854775808.
  destruct s as [|c rest]; [discriminate|]. unfold ParseInt.
  set (ns := if Ascii.eqb c "+" then (false, rest)
             else if Ascii.eqb c "-" then (true, rest) else (false, String c rest)).
  destruct ns as [neg s'].
  pose proof (ParseUint_nonneg s') as Hnn.
  pose proof (ParseUint_range_error s') as Hre.
  destruct (ParseUint s') as [un err]. cbn [fst] in Hnn.
  change (2 ^ 63) with 9223372036854775808.
  destruct err as [e|].
  - destruct (Err_ e) eqn:He; cbn [option_map]; [discriminate|].
    rewrite (Hre un e eq_refl He), strconv_facts.maxUint64_eq.
    destruct neg; discriminate.
  - cbn [option_map]. destruct neg; cbn [negb andb].
    + destruct (Z.ltb_spec 9223372036854775808 un); [discriminate|].
      intros Hv. injection Hv as <-. lia.
    + destruct (Z.leb_spec 9223372036854775808 un); [discriminate|].
      intros Hv. injection Hv as <-. lia.
Qed.

Lemma Atoi_fast_loop_range (s0 : string) (s : string) : forall n v,
  minInt64 <= n <= maxInt64 ->
  Atoi_fast_loop s0 n s = (v, None) -> minInt64 <= v <= maxInt64.
Proof.
  induction s as [|c s IH]; intros n v Hn H; cbn [Atoi_fast_loop] in H.
  - injection H as <-. exact Hn.
  - destruct (9 <? (byte_val c - 48) mod 256); [discriminate H|].
    exact (IH _ _ (wrap_int64_range _) H).
Qed.

(** Whatever the text, an integer that [Atoi] returns without error is an
    [int]. *)
Lemma Atoi_range (s : string) (v : Z) :
  Atoi s = (v, None) -> minInt64 <= v <= maxInt64.
Proof.
  unfold Atoi.
  destruct ((0 <? Z.of_nat (String.length s)) && (Z.of_nat (String.length s) <? 19)).
  - destruct s as [|c rest]; [discriminate|].
    set (signed := Ascii.eqb c "-" || Ascii.eqb c "+").
    destruct (signed && (Z.of_nat (String.length (if signed then rest else String c rest)) <? 1));
      [discriminate|].
    destruct (Atoi_fast_loop (String c rest) 0 (if signed then rest else String c rest))
      as [n err] eqn:E.
    destruct err; [discriminate|].
    assert (Hn : minInt64 <= n <= maxInt64).
    { eapply (Atoi_fast_loop_range _ _ 0 n); [|exact E].
      unfold minInt64, maxInt64. change (2 ^ 63) with 9223372036854775808. lia. }
    intros H. injection H as <-.
    destruct (Ascii.eqb c "-"); [apply wrap_int64_range | exact Hn].
  - destruct (ParseInt s) as [i64 err] eqn:E.
    destruct err; [discriminate|]. cbn [option_map].
    intros H. injection H as <-. exact (ParseInt_range s i64 E).
Qed.

(** [Atoi] on a text of digits: the value, when it is an [int]; an error
    otherwise. *)
Lemma Atoi_digits_value (s : string) :
  s <> EmptyString -> all_digits s ->
  (decimal_value s <= maxInt64 -> Atoi s = (decimal_value s, None)) /\
  (maxInt64 < decimal_value s -> exists v e, Atoi s = (v, Some e)).
Proof.
  unfold maxInt64. change (2 ^ 63) with 9223372036854775808.
  intros Hne Hd. destruct s as [|c rest]; [congruence|].
  pose proof Hd as [Hc Hrest].
  destruct (strconv_facts.is_digit_not_sign c Hc) as [Hm Hp].
  pose proof (decimal_value_nonneg _ Hd) as Hnn.
  assert (HP : ParseInt (String c rest) =
               if decimal_value (String c rest) <=? 9223372036854775807
               then (decimal_value (String c rest), None)
               else (9223372036854775807, Some (rangeError "ParseInt" (String c rest)))).
  { unfold ParseInt. rewrite Hm, Hp. unfold ParseUint.
    rewrite ParseUint_loop_digits
      by (try assumption; rewrite strconv_facts.maxUint64_eq; lia).
    fold (decimal_value (String c rest)). rewrite strconv_facts.maxUint64_eq.
    change (2 ^ 63) with 9223372036854775808.
    destruct (Z.leb_spec (decimal_value (String c rest)) 18446744073709551615).
    - cbn [option_map negb andb].
      destruct (Z.leb_spec 9223372036854775808 (decimal_value (String c rest)));
        destruct (Z.leb_spec (decimal_value (String c rest)) 9223372036854775807);
        try lia; reflexivity.
    - cbn [Err_ rangeError negb andb].
      unfold maxUint64. change (2 ^ 64 - 1) with 18446744073709551615.
      destruct (Z.leb_spec 9223372036854775808 18446744073709551615); [|lia].
      destruct (Z.leb_spec (decimal_value (String c rest)) 9223372036854775807);
        [lia | reflexivity]. }
  unfold Atoi.
  destruct ((0 <? Z.of_nat (String.length (String c rest)))
            && (Z.of_nat (String.length (String c rest)) <? 19)) eqn:Hfast.
  - (* the fast path: fewer than 19 digits *)
    apply andb_true_iff in Hfast as [_ Hlen]. apply Z.ltb_lt in Hlen.
    rewrite Hm, Hp. cbn [orb andb].
    pose proof (value_from_lt (String c rest) 0 Hd ltac:(lia)) as Hlt.
    fold (decimal_value (String c rest)) in Hlt.
    assert (Hpow : 10 ^ Z.of_nat (String.length (String c rest)) <= 10 ^ 18)
      by (apply Z.pow_le_mono_r; lia).
    change (10 ^ 18) with 1000000000000000000 in Hpow.
    assert (Hloop : forall s n,
              all_digits s -> 0 <= n ->
              (n + 1) * 10 ^ Z.of_nat (String.length s) <= 1000000000000000000 ->
              Atoi_fast_loop (String c rest) n s = (decimal_value_from n s, None)).
    { clear. induction s as [|d s IH]; intros n Hs Hn Hb;
        cbn [Atoi_fast_loop decimal_value_from]; [reflexivity|].
      destruct Hs as [Hd Hs]. pose proof (digit_of_char d Hd).
      rewrite Z.mod_small by lia.
      destruct (Z.ltb_spec 9 (byte_val d - 48)); [lia|].
      cbn [String.length] in Hb.
      replace (Z.of_nat (S (String.length s))) with (Z.succ (Z.of_nat (String.length s))) in Hb
        by lia.
      rewrite Z.pow_succ_r in Hb by lia.
      assert (0 < 10 ^ Z.of_nat (String.length s)) by (apply Z.pow_pos_nonneg; lia).
      rewrite strconv_facts.wrap_int64_id
        by (change (2 ^ 63) with 9223372036854775808; nia).
      apply IH; [exact Hs | lia | nia]. }
    rewrite Hloop by (try assumption; lia).
    fold (decimal_value (String c rest)).
    split; [reflexivity | lia].
  - rewrite HP.
    destruct (Z.leb_spec (decimal_value (String c rest)) 9223372036854775807).
    + split; [reflexivity | lia].
    + split; [lia | intros _; eexists _, _; reflexivity].
Qed.

End strconv_values.

(* ===================================================================== *)
(** * More about the OS collector *)
(* ===================================================================== *)
Module os_more.
Import components os.

(** [ParseStateUptimes] accepts a map exactly when its two numeric keys
    are present and hold non-empty texts of digits whose values fit 64
    bits; the humanized texts are taken as they are, empty when absent. *)
Theorem ParseStateUptimes_accepts (m : gmap string string) (u : Uptimes) :
  ParseStateUptimes m = Ok u <->
  exists s b,
    m !! StateKeyUptimesSeconds = Some s /\
    m !! StateKeyUptimesBootTimeUnixSeconds = Some b /\
    s <> EmptyString /\ strconv.all_digits s /\ strconv.decimal_value s <= strconv.maxUint64 /\
    b <> EmptyString /\ strconv.all_digits b /\ strconv.decimal_value b <= strconv.maxUint64 /\
    u = mkUptimes (strconv.decimal_value s) (map_get m StateKeyUptimesHumanized)
                  (strconv.decimal_value b) (map_get m StateKeyUptimesBootTimeHumanized).
Proof.
  unfold ParseStateUptimes. split.
  - destruct (strconv.ParseUint (map_get m StateKeyUptimesSeconds)) as [v1 [e1|]] eqn:E1;
      [discriminate|].
    destruct (strconv.ParseUint (map_get m StateKeyUptimesBootTimeUnixSeconds))
      as [v2 [e2|]] eqn:E2; [discriminate|].
    apply strconv_values.ParseUint_accepts in E1 as (N1 & D1 & -> & L1).
    apply strconv_values.ParseUint_accepts in E2 as (N2 & D2 & -> & L2).
    intros H. injection H as <-.
    unfold map_get in *.
    destruct (m !! StateKeyUptimesSeconds) as [s|] eqn:Ms;
      cbn [default from_option id] in *; [|congruence].
    destruct (m !! StateKeyUptimesBootTimeUnixSeconds) as [b|] eqn:Mb;
      cbn [default from_option id] in *; [|congruence].
    exists s, b. repeat split; assumption.
  - intros (s & b & Ms & Mb & N1 & D1 & L1 & N2 & D2 & L2 & ->).
    unfold map_get. rewrite Ms, Mb. cbn [default from_option id].
    rewrite (proj2 (strconv_values.ParseUint_accepts s _) (conj N1 (conj D1 (conj eq_refl L1)))).
    rewrite (proj2 (strconv_values.ParseUint_accepts b _) (conj N2 (conj D2 (conj eq_refl L2)))).
    reflexivity.
Qed.

Lemma Output_zero_wf : Output_wf Output_zero.
Proof. unfold Output_wf, is_uint64, is_int. vm_compute. intuition discriminate. Qed.

Lemma ParseStateUptimes_wf (m : gmap string string) (u : Uptimes) :
  ParseStateUptimes m = Ok u -> is_uint64 (Seconds u) /\ is_uint64 (BootTimeUnixSeconds u).
Proof.
  unfold ParseStateUptimes.
  destruct (strconv.ParseUint (map_get m StateKeyUptimesSeconds)) as [v1 [e1|]] eqn:E1;
    [discriminate|].
  destruct (strconv.ParseUint (map_get m StateKeyUptimesBootTimeUnixSeconds))
    as [v2 [e2|]] eqn:E2; [discriminate|].
  apply strconv_values.ParseUint_accepts in E1 as (_ & D1 & -> & L1).
  apply strconv_values.ParseUint_accepts in E2 as (_ & D2 & -> & L2).
  intros H. injection H as <-.
  cbn [Seconds BootTimeUnixSeconds]. unfold is_uint64.
  pose proof (strconv_values.decimal_value_nonneg _ D1).
  pose proof (strconv_values.decimal_value_nonneg _ D2). lia.
Qed.

Lemma ParseStateProcessCountZombieProcesses_wf (m : gmap string string) (n : Z) :
  ParseStateProcessCountZombieProcesses m = Ok n -> is_int n.
Proof.
  unfold ParseStateProcessCountZombieProcesses.
  destruct (m !! StateKeyProcessCountZombieProcesses) as [s|].
  - destruct (strconv.Atoi s) as [count [e|]] eqn:E; [discriminate|].
    intros H. injection H as <-. exact (strconv_values.Atoi_range s count E).
  - intros H. injection H as <-. unfold is_int. vm_compute. intuition discriminate.
Qed.

Lemma step_wf (o o' : Output) (st : State) :
  Output_wf o -> ParseStatesToOutput_step o st = Ok o' -> Output_wf o'.
Proof.
  intros (Hs & Hb & Hz). unfold ParseStatesToOutput_step.
  repeat match goal with |- context [String.eqb ?a ?b] => destruct (String.eqb a b) end.
  - unfold ParseStateHost. cbv beta iota zeta.
    intros H. injection H as <-. exact (conj Hs (conj Hb Hz)).
  - unfold ParseStateKernel. cbv beta iota zeta.
    intros H. injection H as <-. exact (conj Hs (conj Hb Hz)).
  - unfold ParseStatePlatform. cbv beta iota zeta.
    intros H. injection H as <-. exact (conj Hs (conj Hb Hz)).
  - destruct (ParseStateUptimes (ExtraInfo st)) as [u|e] eqn:E; [|discriminate].
    intros H. injection H as <-.
    destruct (ParseStateUptimes_wf _ _ E) as [Hs' Hb']. exact (conj Hs' (conj Hb' Hz)).
  - destruct (ParseStateProcessCountZombieProcesses (ExtraInfo st)) as [n|e] eqn:E; [|discriminate].
    intros H. injection H as <-.
    exact (conj Hs (conj Hb (ParseStateProcessCountZombieProcesses_wf _ _ E))).
  - discriminate.
Qed.

Lemma loop_wf (states : list State) : forall o o',
  Output_wf o -> ParseStatesToOutput_loop o states = Ok o' -> Output_wf o'.
Proof.
  induction states as [|st rest IH]; intros o o' Hwf H; cbn [ParseStatesToOutput_loop] in H.
  - injection H as <-. exact Hwf.
  - destruct (ParseStatesToOutput_step o st) as [o1|e] eqn:E; [|discriminate].
    exact (IH o1 o' (step_wf o o1 st Hwf E) H).
Qed.

(** Whatever the states, an Output that [ParseStatesToOutput] returns has
    its uptime and boot time in the range of [uint64] and its zombie count
    in the range of [int]. *)
Theorem ParseStatesToOutput_wf (states : list State) (o : Output) :
  ParseStatesToOutput states = Ok o -> Output_wf o.
Proof. apply loop_wf, Output_zero_wf. Qed.

Lemma ParseStatesToOutput_wf_witness :
  let states := [mkState "uptimes" false "stale"
                   (<[ "uptime_seconds" := "0042" ]> {[ "boot_time_unix_seconds" := "7" ]});
                 mkState "process_counts_by_status" true ""
                   {[ "process_count_zombie_processes" := "-3" ]}] in
  let o := mkOutput Host_zero Kernel_zero Platform_zero (mkUptimes 42 "" 7 "") (-3) in
  ParseStatesToOutput states = Ok o /\ Output_wf o.
Proof.
  intros states o.
  assert (H : ParseStatesToOutput states = Ok o) by (vm_compute; reflexivity).
  split; [exact H | exact (ParseStatesToOutput_wf states o H)].
Defined.

(** The states of [States], one by one. *)
Lemma States_list (thr : Z) (o : Output) (l : list State) :
  States thr o = Ok l ->
  exists h k p u,
    l = [h; k; p; u; stateProcCounts thr o] /\
    Name h = StateNameHost /\ ParseStateHost (ExtraInfo h) = Ok (Host_ o) /\
    Name k = StateNameKernel /\ ParseStateKernel (ExtraInfo k) = Ok (Kernel_ o) /\
    Name p = StateNamePlatform /\ ParseStatePlatform (ExtraInfo p) = Ok (Platform_ o) /\
    Name u = StateNameUptimes /\
    (Output_wf o -> ParseStateUptimes (ExtraInfo u) = Ok (Uptimes_ o)).
Proof.
  unfold States. intros H. injection H as <-. cbn [app].
  eexists _, _, _, _. split; [reflexivity|]. cbn [Name ExtraInfo].
  split; [reflexivity|]. split; [apply os_spec.ParseStateHost_States|].
  split; [reflexivity|]. split; [apply os_spec.ParseStateKernel_States|].
  split; [reflexivity|]. split; [apply os_spec.ParseStatePlatform_States|].
  split; [reflexivity|].
  intros (Hs & Hb & _). apply os_spec.ParseStateUptimes_States; assumption.
Qed.

(** One state of [States thr o] sets its group to the group of [o]. *)
Lemma step_of_States (thr : Z) (o o0 : Output) (l : list State) (st : State) :
  Output_wf o -> States thr o = Ok l -> In st l ->
  ParseStatesToOutput_step o0 st = Ok (merge_groups [Name st] o o0).
Proof.
  intros Hwf Hl Hin.
  destruct (States_list thr o l Hl)
    as (h & k & p & u & -> & Nh & Ph & Nk & Pk & Np & Pp & Nu & Pu).
  specialize (Pu Hwf).
  pose proof (os_spec.stateProcCounts_Name thr o) as Nz.
  pose proof (os_spec.ParseStateProcessCountZombieProcesses_States thr o (proj2 (proj2 Hwf)))
    as Pz.
  destruct o0 as [h0 k0 p0 u0 z0].
  cbn [In] in Hin.
  destruct Hin as [<-|[<-|[<-|[<-|[<-|[]]]]]]; unfold ParseStatesToOutput_step.
  - rewrite Nh, Ph. reflexivity.
  - rewrite Nk, Pk. reflexivity.
  - rewrite Np, Pp. reflexivity.
  - rewrite Nu, Pu. reflexivity.
  - rewrite Nz, Pz. reflexivity.
Qed.

Lemma name_of_States (thr : Z) (o : Output) (l : list State) (st : State) :
  States thr o = Ok l -> In st l -> known_name (Name st).
Proof.
  intros Hl Hin.
  destruct (States_list thr o l Hl) as (h & k & p & u & -> & Nh & _ & Nk & _ & Np & _ & Nu & _).
  pose proof (os_spec.stateProcCounts_Name thr o) as Nz.
  unfold known_name. cbn [In] in Hin.
  destruct Hin as [<-|[<-|[<-|[<-|[<-|[]]]]]]; tauto.
Qed.

Lemma merge_groups_cons (name : string) (names : list string) (o o0 : Output) :
  known_name name ->
  merge_groups names o (merge_groups [name] o o0) = merge_groups (name :: names) o o0.
Proof.
  intros Hk. unfold merge_groups. cbn [Host_ Kernel_ Platform_ Uptimes_ ProcessCountZombieProcesses].
  unfold has_name. cbn [existsb].
  destruct Hk as [->|[->|[->|[->| ->]]]];
    repeat match goal with |- context [existsb ?f names] => destruct (existsb f names) end;
    reflexivity.
Qed.

Lemma loop_of_States (thr : Z) (o : Output) (l : list State) (states : list State) :
  Output_wf o -> States thr o = Ok l ->
  (forall st, In st states -> In st l) ->
  forall o0, ParseStatesToOutput_loop o0 states = Ok (merge_groups (map Name states) o o0).
Proof.
  intros Hwf Hl. induction states as [|st rest IH]; intros Hsub o0.
  - destruct o0. reflexivity.
  - cbn [ParseStatesToOutput_loop map].
    rewrite (step_of_States thr o o0 l st Hwf Hl) by (apply Hsub; left; reflexivity).
    rewrite IH by (intros st' H'; apply Hsub; right; exact H').
    rewrite merge_groups_cons; [reflexivity|].
    apply (name_of_States thr o l st Hl). apply Hsub. left. reflexivity.
Qed.

(** Any list made of states of [States thr o], in any order, with
    repetitions or omissions, is parsed without error: the result has the
    groups of [o] whose states are in the list, and zero values for the
    others. *)
Theorem ParseStatesToOutput_some_States (thr : Z) (o : Output) (l states : list State) :
  Output_wf o -> States thr o = Ok l ->
  (forall st, In st states -> In st l) ->
  ParseStatesToOutput states = Ok (merge_groups (map Name states) o Output_zero).
Proof. intros Hwf Hl Hsub. apply (loop_of_States thr o l states Hwf Hl Hsub). Qed.

(** The order of the states does not matter: every permutation of the
    states of an Output parses back to this Output. *)
Theorem ParseStatesToOutput_permutation (thr : Z) (o : Output) (l states : list State) :
  Output_wf o -> States thr o = Ok l -> Permutation l states ->
  ParseStatesToOutput states = Ok o.
Proof.
  intros Hwf Hl Hperm. unfold ParseStatesToOutput.
  rewrite (loop_of_States thr o l states Hwf Hl).
  2:{ intros st Hin. apply (Permutation_in st (Permutation_sym Hperm) Hin). }
  f_equal.
  assert (Hnames : forall name, In name (map Name l) -> has_name name (map Name states) = true).
  { intros name Hin. unfold has_name. apply existsb_exists. exists name.
    split; [|apply String.eqb_refl].
    apply (Permutation_in name (Permutation_map Name Hperm) Hin). }
  destruct (os_spec.States_names thr o) as (l' & Hl' & Hn). rewrite Hl in Hl'.
  injection Hl' as <-. rewrite Hn in Hnames.
  unfold merge_groups.
  rewrite !Hnames by (cbn [In]; tauto).
  destruct o. reflexivity.
Qed.

(** A full set of states at the end of the list decides the result: what
    earlier states have set is overwritten. *)
Theorem ParseStatesToOutput_last_wins (thr : Z) (o o1 : Output) (l before : list State) :
  Output_wf o -> States thr o = Ok l ->
  ParseStatesToOutput before = Ok o1 ->
  ParseStatesToOutput (before ++ l) = Ok o.
Proof.
  intros Hwf Hl Hbefore. unfold ParseStatesToOutput in *.
  assert (Happ : forall a b o0,
            ParseStatesToOutput_loop o0 (a ++ b) =
            match ParseStatesToOutput_loop o0 a with
            | Ok o' => ParseStatesToOutput_loop o' b
            | Fail e => Fail e
            end).
  { induction a as [|x a IH]; intros b o0; cbn [app ParseStatesToOutput_loop]; [reflexivity|].
    destruct (ParseStatesToOutput_step o0 x); [apply IH | reflexivity]. }
  rewrite Happ, Hbefore.
  rewrite (loop_of_States thr o l l Hwf Hl (fun st H => H)).
  destruct (os_spec.States_names thr o) as (l' & Hl' & Hn). rewrite Hl in Hl'.
  injection Hl' as <-. rewrite Hn. destruct o. reflexivity.
Qed.

(** Parsing, flattening and parsing again gives the same Output: whatever
    [ParseStatesToOutput] returns is an Output that its own states
    reproduce. *)
Theorem ParseStatesToOutput_States_again (thr : Z) (states : list State) (o : Output) :
  ParseStatesToOutput states = Ok o ->
  exists l, States thr o = Ok l /\ ParseStatesToOutput l = Ok o.
Proof.
  intros H. apply os_spec.ParseStatesToOutput_States.
  exact (loop_wf states Output_zero o Output_zero_wf H).
Qed.

(** An Output with the largest integers, to try the statements on. *)
Lemma sample_wf :
  Output_wf (mkOutput (mkHost "4c4c4544") (mkKernel "amd64" "6.8.0")
                      (mkPlatform "ubuntu" "debian" "22.04")
                      (mkUptimes 18446744073709551615 "1 hour ago" 0 "1 year ago") 2000).
Proof. unfold Output_wf, is_uint64, is_int. vm_compute. intuition discriminate. Qed.

Lemma ParseStatesToOutput_some_States_witness :
  let o := mkOutput (mkHost "4c4c4544") (mkKernel "amd64" "6.8.0")
                    (mkPlatform "ubuntu" "debian" "22.04")
                    (mkUptimes 18446744073709551615 "1 hour ago" 0 "1 year ago") 2000 in
  exists h k p u z,
    States 1000 o = Ok [h; k; p; u; z] /\
    ParseStatesToOutput [z; k; z]
    = Ok (mkOutput Host_zero (Kernel_ o) Platform_zero Uptimes_zero 2000).
Proof.
  intros o. eexists _, _, _, _, _. split; [reflexivity|].
  refine (ParseStatesToOutput_some_States 1000 o _ _ sample_wf eq_refl _).
  intros st [<-|[<-|[<-|[]]]]; vm_compute; auto 10.
Defined.

Lemma ParseStatesToOutput_permutation_witness :
  let o := mkOutput (mkHost "4c4c4544") (mkKernel "amd64" "6.8.0")
                    (mkPlatform "ubuntu" "debian" "22.04")
                    (mkUptimes 18446744073709551615 "1 hour ago" 0 "1 year ago") 2000 in
  exists l, States 1000 o = Ok l /\ ParseStatesToOutput (rev l) = Ok o.
Proof.
  intros o. eexists. split; [reflexivity|].
  exact (ParseStatesToOutput_permutation 1000 o _ _ sample_wf eq_refl (Permutation_rev _)).
Defined.

Lemma ParseStatesToOutput_last_wins_witness :
  let o := mkOutput (mkHost "4c4c4544") (mkKernel "amd64" "6.8.0")
                    (mkPlatform "ubuntu" "debian" "22.04")
                    (mkUptimes 18446744073709551615 "1 hour ago" 0 "1 year ago") 2000 in
  let before := [mkState "host" true "" {[ "id" := "stale" ]};
                 mkState "process_counts_by_status" true ""
                   {[ "process_count_zombie_processes" := "7" ]}] in
  exists l, States 1000 o = Ok l /\ ParseStatesToOutput (before ++ l) = Ok o.
Proof.
  intros o before. eexists. split; [reflexivity|].
  refine (ParseStatesToOutput_last_wins 1000 o
            (mkOutput (mkHost "stale") Kernel_zero Platform_zero Uptimes_zero 7)
            _ before sample_wf eq_refl _).
  vm_compute. reflexivity.
Defined.

Lemma ParseStatesToOutput_States_again_witness :
  let states := [mkState "uptimes" false "stale"
                   (<[ "uptime_seconds" := "0042" ]> {[ "boot_time_unix_seconds" := "7" ]});
                 mkState "process_counts_by_status" true ""
                   {[ "process_count_zombie_processes" := "+3" ]}] in
  let o := mkOutput Host_zero Kernel_zero Platform_zero (mkUptimes 42 "" 7 "") 3 in
  ParseStatesToOutput states = Ok o /\
  exists l, States 1000 o = Ok l /\ ParseStatesToOutput l = Ok o.
Proof.
  intros states o.
  assert (H : ParseStatesToOutput states = Ok o) by (vm_compute; reflexivity).
  split; [exact H | exact (ParseStatesToOutput_States_again 1000 states o H)].
Defined.

(** ** The default poller *)

Section Poller.
Context {Poller Config QueryConfig : Type}.
Variable Name_ : string.
Variable Query_ : Config -> QueryConfig.
Variable query_New : string -> QueryConfig -> Poller.

Lemma setDefaultPoller_done (cfgs : list Config) : forall st,
  defaultPollerOnce st = true ->
  fold_left (fun st cfg => setDefaultPoller Name_ Query_ query_New cfg st) cfgs st = st.
Proof.
  induction cfgs as [|cfg cfgs IH]; intros st Hdone; cbn [fold_left]; [reflexivity|].
  unfold setDefaultPoller at 2. rewrite Hdone. exact (IH st Hdone).
Qed.

(** The default poller is set once: before any call there is none, and
    after any number of calls of [setDefaultPoller] it is the poller made
    from the configuration of the first call. *)
Theorem setDefaultPoller_first_call_wins (cfg : Config) (cfgs : list Config) :
  getDefaultPoller (@PollerState_init Poller) = None /\
  getDefaultPoller
    (fold_left (fun st cfg => setDefaultPoller Name_ Query_ query_New cfg st)
               (cfg :: cfgs) PollerState_init)
  = Some (query_New Name_ (Query_ cfg)).
Proof.
  split; [reflexivity|].
  cbn [fold_left]. rewrite setDefaultPoller_done by reflexivity. reflexivity.
Qed.
End Poller.

(** ** The probe *)

Section Probe.
Context {E Time Process : Type}.
Variable Time_Add : Time -> Z -> Time.
Variable Time_Unix : Z -> Time.
Variable Time_UTC : Time -> Time.
Variable RelTime : Time -> Time -> string -> string -> string.
Variable Zombie : string.

(** When [Get] succeeds (the host library returning [uint64] values and a
    list of zombies that can exist), it sets the success metric, its
    Output has all its integers in range, the zombie count is the number of processes that the process
    library reports under the zombie status (zero if it reports none), the
    states of the Output parse back to it, and the process state is
    unhealthy exactly when that number reaches the threshold. *)
Theorem Get_then_States (thr : Z) (p : Probes E Time Process) (o : Output) :
  (forall u, UptimeWithContext _ _ _ p = Ok u -> is_uint64 u) ->
  (forall b, BootTimeWithContext _ _ _ p = Ok b -> is_uint64 b) ->
  (forall procs l, CountProcessesByStatus _ _ _ p = Ok procs -> procs !! Zombie = Some l ->
                   Z.of_nat (List.length l) <= strconv.maxInt64) ->
  fst (Get E Time Process Time_Add Time_Unix Time_UTC RelTime Zombie p) = Ok o ->
  snd (Get E Time Process Time_Add Time_Unix Time_UTC RelTime Zombie p) = SetGetSuccess /\
  Output_wf o /\
  (exists procs, CountProcessesByStatus _ _ _ p = Ok procs /\
     ProcessCountZombieProcesses o
     = Z.of_nat (List.length (default [] (procs !! Zombie))) /\
     (Healthy (stateProcCounts thr o) = false <->
      thr <= Z.of_nat (List.length (default [] (procs !! Zombie))))) /\
  (exists l, States thr o = Ok l /\ ParseStatesToOutput l = Ok o).
Proof.
  intros Hu Hb Hz. unfold os.Get. cbn [fst snd]. intros Hbody.
  rewrite Hbody. cbn [is_ok]. split; [reflexivity|]. revert Hbody.
  unfold os.Get_body, and_then.
  destruct (HostID _ _ _ p) as [hostID|]; [|discriminate].
  destruct (KernelArch _ _ _ p) as [arch|]; [|discriminate].
  destruct (KernelVersion _ _ _ p) as [ver|]; [|discriminate].
  destruct (PlatformInformation _ _ _ p) as [[[pf fam] pver]|]; [|discriminate].
  destruct (UptimeWithContext _ _ _ p) as [uptime|]; [|discriminate].
  destruct (BootTimeWithContext _ _ _ p) as [boottime|]; [|discriminate].
  destruct (CountProcessesByStatus _ _ _ p) as [procs|]; [|discriminate].
  intros H. injection H as <-.
  assert (Hcount : count_zombies Process Zombie procs = Z.of_nat (List.length (default [] (procs !! Zombie)))).
  { unfold os.count_zombies. destruct (procs !! Zombie); reflexivity. }
  assert (Hwf : Output_wf
            (set_ProcessCountZombieProcesses
               (set_Uptimes
                  (set_Platform
                     (set_Kernel (set_Host Output_zero (mkHost hostID)) (mkKernel arch ver))
                     (mkPlatform pf fam pver))
                  (mkUptimes uptime
                     (RelTime (Time_Add (Time_UTC (Now _ _ _ p)) (uptime_duration uptime))
                              (Time_UTC (Now _ _ _ p)) "ago" "from now")
                     boottime
                     (RelTime (Time_Unix (strconv.wrap_int64 boottime))
                              (Time_UTC (Now _ _ _ p)) "ago" "from now")))
               (count_zombies Process Zombie procs))).
  { split; [exact (Hu uptime eq_refl)|]. split; [exact (Hb boottime eq_refl)|].
    cbn [set_ProcessCountZombieProcesses ProcessCountZombieProcesses].
    unfold is_int, os.count_zombies.
    destruct (procs !! Zombie) as [l|] eqn:El.
    - specialize (Hz procs l eq_refl El).
      unfold strconv.minInt64. change (2 ^ 63) with 9223372036854775808. lia.
    - vm_compute. intuition discriminate. }
  split; [exact Hwf|]. split.
  - exists procs. split; [reflexivity|].
    cbn [set_ProcessCountZombieProcesses ProcessCountZombieProcesses].
    split; [exact Hcount|].
    rewrite os_spec.stateProcCounts_Healthy.
    cbn [set_ProcessCountZombieProcesses ProcessCountZombieProcesses]. rewrite Hcount.
    destruct (Z.leb_spec thr (Z.of_nat (List.length (default [] (procs !! Zombie)))));
      cbn [negb]; split; intros; (lia || discriminate || reflexivity).
  - apply os_spec.ParseStatesToOutput_States, Hwf.
Qed.
(** When [Get] fails it sets the failure metric, and its error is the
    error of the first probe that fails, in the order of the calls: host
    id, kernel architecture, kernel version, platform, uptime, boot time,
    processes.  The probes after the failing one are not consulted. *)
Theorem Get_reports_first_failure (p : Probes E Time Process) (e : E) :
  fst (Get E Time Process Time_Add Time_Unix Time_UTC RelTime Zombie p) = Fail e ->
  snd (Get E Time Process Time_Add Time_Unix Time_UTC RelTime Zombie p) = SetGetFailed /\
  (HostID _ _ _ p = Fail e \/
   is_ok (HostID _ _ _ p) = true /\
   (KernelArch _ _ _ p = Fail e \/
    is_ok (KernelArch _ _ _ p) = true /\
    (KernelVersion _ _ _ p = Fail e \/
     is_ok (KernelVersion _ _ _ p) = true /\
     (PlatformInformation _ _ _ p = Fail e \/
      is_ok (PlatformInformation _ _ _ p) = true /\
      (UptimeWithContext _ _ _ p = Fail e \/
       is_ok (UptimeWithContext _ _ _ p) = true /\
       (BootTimeWithContext _ _ _ p = Fail e \/
        is_ok (BootTimeWithContext _ _ _ p) = true /\
        CountProcessesByStatus _ _ _ p = Fail e)))))).
Proof.
  unfold os.Get. cbn [fst snd]. intros Hbody.
  rewrite Hbody. cbn [is_ok]. split; [reflexivity|].
  unfold os.Get_body, and_then in Hbody.
  destruct (HostID _ _ _ p) as [hostID|e0];
    [right; split; [reflexivity|] | left; congruence].
  destruct (KernelArch _ _ _ p) as [arch|e0];
    [right; split; [reflexivity|] | left; congruence].
  destruct (KernelVersion _ _ _ p) as [ver|e0];
    [right; split; [reflexivity|] | left; congruence].
  destruct (PlatformInformation _ _ _ p) as [[[pf fam] pver]|e0];
    [right; split; [reflexivity|] | left; congruence].
  destruct (UptimeWithContext _ _ _ p) as [uptime|e0];
    [right; split; [reflexivity|] | left; congruence].
  destruct (BootTimeWithContext _ _ _ p) as [boottime|e0];
    [right; split; [reflexivity|] | left; congruence].
  destruct (CountProcessesByStatus _ _ _ p) as [procs|e0]; [discriminate Hbody | congruence].
Qed.
End Probe.

Lemma Get_reports_first_failure_witness :
  let p := mkProbes string unit nat (Ok "4c4c4544") (Ok "amd64") (Fail "no uname")
             (Fail "no os-release") (Ok 3600) (Ok 1700000000) tt (Fail "no /proc") in
  let Get := Get string unit nat (fun t _ => t) (fun _ => tt) (fun t => t)
               (fun _ _ a _ => a) "zombie" in
  Get p = (Fail "no uname", SetGetFailed) /\
  KernelVersion _ _ _ p = Fail "no uname".
Proof.
  intros p Get.
  assert (H : Get p = (Fail "no uname", SetGetFailed)) by reflexivity.
  split; [exact H|].
  destruct (Get_reports_first_failure (fun t _ => t) (fun _ => tt) (fun t => t)
              (fun _ _ a _ => a) "zombie" p "no uname" (f_equal fst H))
    as [_ [Hh|[_ [Ha|[_ [Hv|[Hv _]]]]]]];
    [discriminate Hh | discriminate Ha | exact Hv | discriminate Hv].
Defined.

Lemma Get_then_States_witness :
  let p := mkProbes unit unit nat (Ok "4c4c4544") (Ok "amd64") (Ok "6.8.0")
             (Ok ("ubuntu", "debian", "22.04")) (Ok 3600) (Ok 1700000000) tt
             (Ok (<[ "zombie" := [101%nat; 102%nat] ]> {[ "running" := [1%nat] ]})) in
  let o := mkOutput (mkHost "4c4c4544") (mkKernel "amd64" "6.8.0")
             (mkPlatform "ubuntu" "debian" "22.04")
             (mkUptimes 3600 "ago" 1700000000 "ago") 2 in
  Get unit unit nat (fun t _ => t) (fun _ => tt) (fun t => t)
      (fun _ _ a _ => a) "zombie" p = (Ok o, SetGetSuccess) /\
  Output_wf o /\
  (exists procs, CountProcessesByStatus _ _ _ p = Ok procs /\
     ProcessCountZombieProcesses o
     = Z.of_nat (List.length (default [] (procs !! "zombie"))) /\
     (Healthy (stateProcCounts 2 o) = false <->
      2 <= Z.of_nat (List.length (default [] (procs !! "zombie"))))) /\
  (exists l, States 2 o = Ok l /\ ParseStatesToOutput l = Ok o).
Proof.
  intros p o.
  assert (Hget : Get unit unit nat (fun t _ => t) (fun _ => tt) (fun t => t)
                     (fun _ _ a _ => a) "zombie" p = (Ok o, SetGetSuccess))
    by (vm_compute; reflexivity).
  split; [exact Hget|].
  refine (proj2 (Get_then_States (fun t _ => t) (fun _ => tt) (fun t => t) (fun _ _ a _ => a)
                   "zombie" 2 p o _ _ _ (f_equal fst Hget))).
  - intros u Hu. injection Hu as <-. unfold is_uint64. vm_compute. intuition discriminate.
  - intros b Hb. injection Hb as <-. unfold is_uint64. vm_compute. intuition discriminate.
  - intros procs l Hp Hl. injection Hp as <-.
    rewrite lookup_insert_eq in Hl. injection Hl as <-. vm_compute. discriminate.
Defined.

End os_more.
(* ===================================================================== *)
(** * More about the SXid classifier *)
(* ===================================================================== *)
Module sxid_more.
Import sxid.
#[local] Arguments String.append !s1 s2.

Lemma span_digits_digits (s : string) : forall ds rest,
  span_digits s = (ds, rest) -> strconv.all_digits ds.
Proof.
  induction s as [|c s IH]; intros ds rest H; cbn [span_digits] in H.
  - injection H as <- <-. exact I.
  - destruct (is_digit c) eqn:Ec.
    + destruct (span_digits s) as [ds' rest'] eqn:E. injection H as <- <-.
      split; [exact Ec | exact (IH ds' rest' eq_refl)].
    + injection H as <- <-. exact I.
Qed.

Lemma span_digits_comma (ds post : string) :
  strconv.all_digits ds ->
  span_digits (ds ++ String "," post) = (ds, String "," post).
Proof.
  induction ds as [|c ds IH]; intros Hd.
  - reflexivity.
  - destruct Hd as [Hc Hd]. cbn [String.append span_digits]. rewrite Hc, (IH Hd). reflexivity.
Qed.

Lemma match_code_digits (s ds : string) :
  match_code s = Some ds -> ds <> EmptyString /\ strconv.all_digits ds.
Proof.
  unfold match_code. destruct (literal ": " s) as [t|]; [|discriminate].
  destruct (span_digits t) as [[|d ds'] rest] eqn:E; [discriminate|].
  destruct (literal "," rest); [|discriminate].
  intros H. injection H as <-. split; [discriminate|].
  exact (span_digits_digits t _ rest E).
Qed.

Lemma match_lazy_digits (s : string) : forall ds,
  match_lazy s = Some ds -> ds <> EmptyString /\ strconv.all_digits ds.
Proof.
  induction s as [|c s IH]; intros ds; cbn [match_lazy].
  - destruct (match_code EmptyString) eqn:E; [|discriminate].
    intros H. injection H as <-. exact (match_code_digits _ _ E).
  - destruct (match_code (String c s)) eqn:E.
    + intros H. injection H as <-. exact (match_code_digits _ _ E).
    + destruct (Ascii.eqb c "010"); [discriminate | apply IH].
Qed.

Lemma FindStringSubmatch1_digits (line : string) : forall ds,
  FindStringSubmatch1 line = Some ds -> ds <> EmptyString /\ strconv.all_digits ds.
Proof.
  assert (Hhere : forall s ds, match_here s = Some ds ->
                               ds <> EmptyString /\ strconv.all_digits ds).
  { intros s ds. unfold match_here. destruct (literal "SXid" s); [|discriminate].
    apply match_lazy_digits. }
  induction line as [|c line IH]; intros ds; cbn [FindStringSubmatch1].
  - destruct (match_here EmptyString) eqn:E; [|discriminate].
    intros H. injection H as <-. exact (Hhere _ _ E).
  - destruct (match_here (String c line)) eqn:E.
    + intros H. injection H as <-. exact (Hhere _ _ E).
    + apply IH.
Qed.

(** What [ExtractNVSwitchSXid] makes of the digits that the pattern
    captures. *)
Lemma Extract_of_digits (line ds : string) :
  FindStringSubmatch1 line = Some ds ->
  ExtractNVSwitchSXid line
  = if strconv.decimal_value ds <=? strconv.maxInt64 then strconv.decimal_value ds else 0.
Proof.
  intros H. unfold ExtractNVSwitchSXid. rewrite H.
  destruct (FindStringSubmatch1_digits line ds H) as [Hne Hd].
  destruct (strconv_values.Atoi_digits_value ds Hne Hd) as [Hfit Hover].
  destruct (Z.leb_spec (strconv.decimal_value ds) strconv.maxInt64) as [Hle|Hgt].
  - rewrite (Hfit Hle). reflexivity.
  - destruct (Hover Hgt) as (v & e & ->). reflexivity.
Qed.


Lemma match_code_here (ds post : string) :
  ds <> EmptyString -> strconv.all_digits ds ->
  match_code (": " ++ ds ++ String "," post) = Some ds.
Proof.
  intros Hne Hd. unfold match_code.
  change (literal ": " (": " ++ ds ++ String "," post)) with (Some (ds ++ String "," post)).
  cbv beta iota. rewrite (span_digits_comma ds post Hd).
  destruct ds as [|d ds]; [congruence|]. reflexivity.
Qed.

Lemma HasPrefix_empty (s : string) : strings.HasPrefix s EmptyString = true.
Proof. destruct s; reflexivity. Qed.

Lemma match_lazy_skip (mid r r' : string) :
  r = String ":" r' ->
  strings.Contains mid ": " = false ->
  strings.Contains mid (String "010" EmptyString) = false ->
  match_lazy (mid ++ r) = match_lazy r.
Proof.
  intros Hr. induction mid as [|c mid IH]; intros Hsep Hnl; [reflexivity|].
  cbn [strings.Contains] in Hsep, Hnl.
  apply orb_false_iff in Hsep as [Hp Hsep]. apply orb_false_iff in Hnl as [Hn Hnl].
  cbn [strings.HasPrefix] in Hp, Hn. rewrite HasPrefix_empty, andb_true_r in Hn.
  cbn [String.append match_lazy]. rewrite Hn.
  replace (match_code (String c (mid ++ r))) with (@None string);
    [exact (IH Hsep Hnl)|].
  unfold match_code. cbn [literal].
  destruct (Ascii.eqb c ":"); [|reflexivity]. cbn [andb] in Hp.
  destruct mid as [|c' mid].
  - rewrite Hr. reflexivity.
  - cbn [strings.HasPrefix] in Hp. rewrite HasPrefix_empty, andb_true_r in Hp.
    cbn [String.append]. rewrite Hp. reflexivity.
Qed.

Lemma literal_marker_straddle (p rest : string) :
  p <> EmptyString -> strings.HasPrefix p "SXid" = false ->
  literal "SXid" (p ++ "SXid" ++ rest) = None.
Proof.
  intros Hne Hp.
  destruct p as [|c0 [|c1 [|c2 [|c3 p]]]]; [congruence| | | |];
    cbn [String.append literal strings.HasPrefix] in *.
  - destruct (Ascii.eqb c0 "S"); reflexivity.
  - destruct (Ascii.eqb c0 "S"); [|reflexivity].
    destruct (Ascii.eqb c1 "X"); reflexivity.
  - destruct (Ascii.eqb c0 "S"); [|reflexivity].
    destruct (Ascii.eqb c1 "X"); [|reflexivity].
    destruct (Ascii.eqb c2 "i"); reflexivity.
  - rewrite HasPrefix_empty in Hp.
    destruct (Ascii.eqb c0 "S"); [|reflexivity].
    destruct (Ascii.eqb c1 "X"); [|reflexivity].
    destruct (Ascii.eqb c2 "i"); [|reflexivity].
    destruct (Ascii.eqb c3 "d"); [discriminate Hp | reflexivity].
Qed.

Lemma FindStringSubmatch1_at_marker (pre rest ds : string) :
  strings.Contains pre "SXid" = false ->
  match_lazy rest = Some ds ->
  FindStringSubmatch1 (pre ++ "SXid" ++ rest) = Some ds.
Proof.
  intros Hpre Hrest. induction pre as [|c pre IH].
  - cbn [String.append FindStringSubmatch1]. unfold match_here.
    change (literal "SXid" (String "S" (String "X" (String "i" (String "d" rest)))))
      with (Some rest).
    cbv beta iota. rewrite Hrest. reflexivity.
  - cbn [strings.Contains] in Hpre. apply orb_false_iff in Hpre as [Hp Hpre].
    pose proof (literal_marker_straddle (String c pre) rest ltac:(discriminate) Hp) as Hl.
    specialize (IH Hpre).
    cbn [String.append] in Hl, IH |- *. cbn [FindStringSubmatch1]. unfold match_here at 1.
    rewrite Hl. exact IH.
Qed.

Lemma FindStringSubmatch1_formatted (pre mid ds post : string) :
  strings.Contains pre "SXid" = false ->
  strings.Contains mid ": " = false ->
  strings.Contains mid (String "010" EmptyString) = false ->
  ds <> EmptyString -> strconv.all_digits ds ->
  FindStringSubmatch1 (pre ++ "SXid" ++ mid ++ ": " ++ ds ++ String "," post) = Some ds.
Proof.
  intros Hpre Hsep Hnl Hne Hd. apply FindStringSubmatch1_at_marker; [exact Hpre|].
  rewrite (match_lazy_skip mid (": " ++ ds ++ String "," post)
             (String " " (ds ++ String "," post)) eq_refl Hsep Hnl).
  pose proof (match_code_here ds post Hne Hd) as Hc.
  change (": " ++ ds ++ String "," post)
    with (String ":" (String " " (ds ++ String "," post))) in Hc |- *.
  cbn [match_lazy]. rewrite Hc. reflexivity.
Qed.

(** In a line that has, after its first [SXid] marker, a text without
    [: ] and without a newline, then [: ], digits and a comma, the code
    is the number that these digits write; it is 0 when the number does
    not fit an [int].  What comes before the marker and after the comma
    does not matter. *)
Theorem ExtractNVSwitchSXid_formatted (pre mid ds post : string) :
  strings.Contains pre "SXid" = false ->
  strings.Contains mid ": " = false ->
  strings.Contains mid (String "010" EmptyString) = false ->
  ds <> EmptyString -> strconv.all_digits ds ->
  ExtractNVSwitchSXid (pre ++ "SXid" ++ mid ++ ": " ++ ds ++ String "," post)
  = if strconv.decimal_value ds <=? strconv.maxInt64 then strconv.decimal_value ds else 0.
Proof.
  intros Hpre Hsep Hnl Hne Hd. apply Extract_of_digits.
  exact (FindStringSubmatch1_formatted pre mid ds post Hpre Hsep Hnl Hne Hd).
Qed.

Lemma ExtractNVSwitchSXid_formatted_witness :
  ExtractNVSwitchSXid
    ("[   12.5] nvidia-nvswitch3: " ++ "SXid" ++ " (PCI:0000:05:00.0)" ++ ": " ++ "12028"
     ++ String "," " Non-fatal, Link 61 egress non-posted PRIV error (First)")
  = 12028 /\
  ExtractNVSwitchSXid
    ("nvidia-nvswitch0: " ++ "SXid" ++ " (PCI:0000:00:00.0)" ++ ": " ++ "9223372036854775808"
     ++ String "," " Fatal")
  = 0.
Proof.
  split.
  - refine (ExtractNVSwitchSXid_formatted "[   12.5] nvidia-nvswitch3: " " (PCI:0000:05:00.0)"
              "12028" " Non-fatal, Link 61 egress non-posted PRIV error (First)" _ _ _ _ _);
      (reflexivity || discriminate || (vm_compute; intuition reflexivity)).
  - refine (ExtractNVSwitchSXid_formatted "nvidia-nvswitch0: " " (PCI:0000:00:00.0)"
              "9223372036854775808" " Fatal" _ _ _ _ _);
      (reflexivity || discriminate || (vm_compute; intuition reflexivity)).
Defined.

Section Classifier.
Context {Detail Filter error : Type}.
Variable GetDetail : Z -> option Detail.
Variable ParseCtimeWithError : string -> result Time error.

(** A line whose own timestamp can be parsed is classified the same way
    whenever it is observed: the record carries this timestamp, in UTC
    and at the same instant, and the catalog entry of the extracted code,
    if there is one. *)
Theorem ParseDmesgLogLine_native_time (line : string) (t : Time) :
  ParseCtimeWithError line = Ok t ->
  forall now, exists de,
    ParseDmesgLogLine (Filter := Filter) GetDetail ParseCtimeWithError now line = Ok de /\
    Time_ (LogItem de) = mkTime (instant t) UTC /\
    Detail_ de = GetDetail (ExtractNVSwitchSXid line) /\
    forall now',
      ParseDmesgLogLine (Filter := Filter) GetDetail ParseCtimeWithError now' line = Ok de.
Proof.
  intros Ht now. unfold ParseDmesgLogLine. rewrite Ht.
  eexists. split; [reflexivity|].
  destruct (GetDetail (ExtractNVSwitchSXid line)); repeat split; reflexivity.
Qed.

(** A line of the format above whose code has an entry in the catalog is
    classified with this entry, and a code without an entry gives no
    detail. *)
Theorem ParseDmesgLogLine_formatted (now : Time) (pre mid ds post : string) :
  strings.Contains pre "SXid" = false ->
  strings.Contains mid ": " = false ->
  strings.Contains mid (String "010" EmptyString) = false ->
  ds <> EmptyString -> strconv.all_digits ds ->
  strconv.decimal_value ds <= strconv.maxInt64 ->
  exists de,
    ParseDmesgLogLine (Filter := Filter) GetDetail ParseCtimeWithError now
      (pre ++ "SXid" ++ mid ++ ": " ++ ds ++ String "," post) = Ok de /\
    Detail_ de = GetDetail (strconv.decimal_value ds).
Proof.
  intros Hpre Hsep Hnl Hne Hd Hfit. unfold ParseDmesgLogLine.
  rewrite (Extract_of_digits _ ds
             (FindStringSubmatch1_formatted pre mid ds post Hpre Hsep Hnl Hne Hd)).
  destruct (Z.leb_spec (strconv.decimal_value ds) strconv.maxInt64); [|lia].
  eexists. split; [reflexivity|].
  destruct (GetDetail (strconv.decimal_value ds)); reflexivity.
Qed.
End Classifier.

Lemma ParseDmesgLogLine_native_time_witness :
  let GetDetail := fun code : Z => if code =? 20034 then Some "LTSSM Fault Up" else None in
  let ParseCtimeWithError :=
    fun line : string =>
      if strings.HasPrefix line "[Thu Aug  1 10:00:00 2024]"
      then @Ok Time unit (mkTime 1722506400000000000 Local) else Fail tt in
  let line := "[Thu Aug  1 10:00:00 2024] nvidia-nvswitch0: SXid (PCI:0000:00:00.0): 20034, Fatal" in
  exists de,
    ParseDmesgLogLine (Filter := unit) GetDetail ParseCtimeWithError
      (mkTime 1700000000000000000 Local) line = Ok de /\
    Time_ (LogItem de) = mkTime 1722506400000000000 UTC /\
    Detail_ de = GetDetail (ExtractNVSwitchSXid line) /\
    forall now',
      ParseDmesgLogLine (Filter := unit) GetDetail ParseCtimeWithError now' line = Ok de.
Proof.
  intros GetDetail ParseCtimeWithError line.
  exact (ParseDmesgLogLine_native_time (Filter := unit) GetDetail ParseCtimeWithError line
           (mkTime 1722506400000000000 Local) eq_refl (mkTime 1700000000000000000 Local)).
Defined.

Lemma ParseDmesgLogLine_formatted_witness :
  let GetDetail := fun code : Z => if code =? 20034 then Some "LTSSM Fault Up" else None in
  let ParseCtimeWithError := fun _ : string => @Fail Time unit tt in
  exists de,
    ParseDmesgLogLine (Filter := unit) GetDetail ParseCtimeWithError (mkTime 0 Local)
      ("[131453.740743] nvidia-nvswitch0: " ++ "SXid" ++ " (PCI:0000:00:00.0)" ++ ": "
       ++ "20034" ++ String "," " Fatal, Link 30 LTSSM Fault Up") = Ok de /\
    Detail_ de = Some "LTSSM Fault Up".
Proof.
  intros GetDetail ParseCtimeWithError.
  refine (ParseDmesgLogLine_formatted (Filter := unit) GetDetail ParseCtimeWithError
            (mkTime 0 Local) "[131453.740743] nvidia-nvswitch0: " " (PCI:0000:00:00.0)"
            "20034" " Fatal, Link 30 LTSSM Fault Up" _ _ _ _ _ _);
    (reflexivity || discriminate || (vm_compute; intuition reflexivity) ||
     (vm_compute; discriminate)).
Defined.

End sxid_more.
(* ===================================================================== *)
(** * More about Reboot *)
(* ===================================================================== *)
Module reboot_more.
Import process reboot.

Lemma scan_error_source (lines : list (string * WaitPoll)) : forall e tr,
  scan lines = (Some e, tr) -> exists line, In (line, Exited (Some e)) lines.
Proof.
  induction lines as [|[line poll] rest IH]; intros e tr H; cbn [scan] in H; [discriminate|].
  destruct poll as [|[err|]].
  - destruct (scan rest) as [r tr'] eqn:E. injection H as -> <-.
    destruct (IH e tr' eq_refl) as [l Hl]. exists l. right. exact Hl.
  - injection H as <- <-. exists line. left. reflexivity.
  - destruct (scan rest) as [r tr'] eqn:E. injection H as -> <-.
    destruct (IH e tr' eq_refl) as [l Hl]. exists l. right. exact Hl.
Qed.


Lemma scan_to_the_end (lines : list (string * WaitPoll)) :
  (forall line e, ~ In (line, Exited (Some e)) lines) ->
  scan lines = (None, map (fun x => EvPrintln (fst x)) lines).
Proof.
  induction lines as [|[line poll] rest IH]; intros Hno; [reflexivity|].
  assert (Hrest : forall line e, ~ In (line, Exited (Some e)) rest)
    by (intros l e Hin; apply (Hno l e); right; exact Hin).
  cbn [scan map fst]. destruct poll as [|[err|]].
  - rewrite (IH Hrest). reflexivity.
  - exfalso. apply (Hno line err). left. reflexivity.
  - rewrite (IH Hrest). reflexivity.
Qed.

(** No option returns an error: [applyOpts] never fails. *)
Lemma applyOpts_no_error (op : Op) (opts : list OpOption) : snd (applyOpts op opts) = None.
Proof. reflexivity. Qed.

(** With a delay that is not zero, [Reboot] as root returns nil at once:
    it has made the command and started the goroutine with this delay,
    and has not started the command itself. *)
Theorem Reboot_delayed_returns_at_once (run : Run) (opts : list OpOption) :
  new_err run = None ->
  delaySeconds (fst (applyOpts (mkOp 0 false) opts)) <> 0 ->
  Reboot 0 run opts
  = (None,
     [EvNew (if useSystemctl (fst (applyOpts (mkOp 0 false) opts))
             then "sudo systemctl reboot" else "sudo reboot");
      EvGo (delaySeconds (fst (applyOpts (mkOp 0 false) opts)));
      EvLog "triggering reboot after delay"]).
Proof.
  intros Hnew Hdelay. unfold Reboot.
  destruct (applyOpts (mkOp 0 false) opts) as [options err] eqn:E.
  pose proof (applyOpts_no_error (mkOp 0 false) opts) as Herr. rewrite E in Herr.
  cbn [fst snd] in *. subst err. cbn [Z.eqb negb]. rewrite Hnew.
  destruct (Z.eqb_spec (delaySeconds options) 0); [contradiction | reflexivity].
Qed.

Lemma Reboot_delayed_returns_at_once_witness :
  Reboot 0 (mkRun None (Some (errorString "exec: not started")) [] None)
         [WithSystemctl true; WithDelaySeconds 30]
  = (None, [EvNew "sudo systemctl reboot"; EvGo 30; EvLog "triggering reboot after delay"]).
Proof.
  refine (Reboot_delayed_returns_at_once
            (mkRun None (Some (errorString "exec: not started")) [] None)
            [WithSystemctl true; WithDelaySeconds 30] eq_refl _).
  vm_compute. discriminate.
Defined.

(** An error that [Reboot] returns is [ErrNotRoot] (and then the caller
    is not root), the error of [process.New], the error of [Start], or an
    exit error that [Wait] delivered while the output was read: there is
    no other. *)
Theorem Reboot_error_sources (euid : Z) (run : Run) (opts : list OpOption) (e : goerror) :
  fst (Reboot euid run opts) = Some e ->
  (euid <> 0 /\ e = ErrNotRoot) \/
  new_err run = Some e \/
  start_err run = Some e \/
  exists line, In (line, Exited (Some e)) (stdout run).
Proof.
  unfold Reboot.
  destruct (applyOpts (mkOp 0 false) opts) as [options err] eqn:E.
  pose proof (applyOpts_no_error (mkOp 0 false) opts) as Herr. rewrite E in Herr.
  cbn [snd] in Herr. subst err.
  destruct (Z.eqb_spec euid 0) as [->|Hne]; cbn [negb].
  2:{ cbn [fst]. intros H. injection H as <-. left. split; [exact Hne | reflexivity]. }
  destruct (new_err run) as [e0|] eqn:Enew.
  { cbn [fst]. intros H. right. left. exact H. }
  destruct (delaySeconds options =? 0); [|cbn [fst]; discriminate].
  unfold rebootFunc.
  destruct (start_err run) as [e1|] eqn:Estart.
  { cbn [fst]. intros H. right. right. left. exact H. }
  destruct (scan (stdout run)) as [[e2|] tr] eqn:Escan.
  { cbn [fst]. intros H. injection H as <-. right. right. right.
    exact (scan_error_source _ _ _ Escan). }
  destruct (scanner_err run) as [serr|];
    [destruct (negb (strings.Contains (Error serr) "file already closed"))|];
    cbn [fst]; discriminate.
Qed.

Lemma Reboot_error_sources_witness :
  let run := mkRun None None
               [("Broadcast message", NotReady);
                ("Failed to reboot", Exited (Some (errorString "exit status 1")))]
               None in
  fst (Reboot 0 run []) = Some (errorString "exit status 1") /\
  ((0 <> 0 /\ errorString "exit status 1" = ErrNotRoot) \/
   new_err run = Some (errorString "exit status 1") \/
   start_err run = Some (errorString "exit status 1") \/
   exists line, In (line, Exited (Some (errorString "exit status 1"))) (stdout run)).
Proof.
  intros run.
  assert (H : fst (Reboot 0 run []) = Some (errorString "exit status 1")) by reflexivity.
  split; [exact H | exact (Reboot_error_sources 0 run [] _ H)].
Defined.



(** An immediate reboot that goes well (the command made and started, no
    exit error while the output is read, no scanner error but a closed
    pipe) returns nil after printing every line of the output, in order,
    between the start of the command and the final log line. *)
Theorem Reboot_immediate_prints_output (run : Run) (opts : list OpOption) :
  new_err run = None -> start_err run = None ->
  (forall line e, ~ In (line, Exited (Some e)) (stdout run)) ->
  match scanner_err run with
  | Some serr => strings.Contains (Error serr) "file already closed" = true
  | None => True
  end ->
  delaySeconds (fst (applyOpts (mkOp 0 false) opts)) = 0 ->
  Reboot 0 run opts
  = (None,
     [EvNew (if useSystemctl (fst (applyOpts (mkOp 0 false) opts))
             then "sudo systemctl reboot" else "sudo reboot");
      EvLog "rebooting immediately"; EvStart]
     ++ map (fun x => EvPrintln (fst x)) (stdout run)
     ++ [EvLog "successfully rebooted"])%list.
Proof.
  intros Hnew Hstart Hwait Hserr Hdelay. unfold Reboot.
  destruct (applyOpts (mkOp 0 false) opts) as [options err] eqn:E.
  pose proof (applyOpts_no_error (mkOp 0 false) opts) as Herr. rewrite E in Herr.
  cbn [fst snd] in *. subst err. cbn [Z.eqb negb]. rewrite Hnew, Hdelay. cbn [Z.eqb].
  unfold rebootFunc. rewrite Hstart, (scan_to_the_end _ Hwait).
  destruct (scanner_err run) as [serr|]; [rewrite Hserr|]; reflexivity.
Qed.

Lemma Reboot_immediate_prints_output_witness :
  Reboot 0 (mkRun None None
              [("Broadcast message from root", NotReady); ("The system will reboot now!", Exited None)]
              (Some (errorString "read |0: file already closed")))
         [WithDelaySeconds 30; WithDelaySeconds 0]
  = (None,
     [EvNew "sudo reboot"; EvLog "rebooting immediately"; EvStart;
      EvPrintln "Broadcast message from root"; EvPrintln "The system will reboot now!";
      EvLog "successfully rebooted"]).
Proof.
  refine (Reboot_immediate_prints_output
            (mkRun None None
               [("Broadcast message from root", NotReady);
                ("The system will reboot now!", Exited None)]
               (Some (errorString "read |0: file already closed")))
            [WithDelaySeconds 30; WithDelaySeconds 0] eq_refl eq_refl _ eq_refl eq_refl).
  intros line e [H|[H|[]]]; discriminate.
Defined.

End reboot_more.
(* ===================================================================== *)
(** * More about the GPU presence check *)
(* ===================================================================== *)
Module query_more.
Import process query.

Lemma scan_ok (out : list (string * WaitPoll)) : forall acc lines,
  scan acc out = Ok lines ->
  lines = (acc ++ List.filter (fun line => strings.Contains line "NVIDIA") (map fst out))%list /\
  forall line e, ~ In (line, Exited (Some e)) out.
Proof.
  induction out as [|[line poll] rest IH]; intros acc lines H; cbn [scan] in H.
  - injection H as <-. split; [rewrite app_nil_r; reflexivity | intros l e []].
  - assert (Hrest : scan (if strings.Contains line "NVIDIA" then (acc ++ [line])%list else acc)
                         rest = Ok lines /\ forall e, poll <> Exited (Some e)).
    { destruct poll as [|[err|]]; [|discriminate|]; split; try exact H; discriminate. }
    destruct Hrest as [Hrest Hpoll].
    destruct (IH _ _ Hrest) as [-> Hno]. split.
    + cbn [map fst List.filter]. cbv beta.
      destruct (strings.Contains line "NVIDIA"); [rewrite <- app_assoc|]; reflexivity.
    + intros l e [Heq|Hin]; [|exact (Hno l e Hin)].
      injection Heq as _ ->. exact (Hpoll e eq_refl).
Qed.

Lemma scan_all (out : list (string * WaitPoll)) : forall acc,
  (forall line e, ~ In (line, Exited (Some e)) out) ->
  scan acc out = Ok (acc ++ List.filter (fun line => strings.Contains line "NVIDIA") (map fst out))%list.
Proof.
  induction out as [|[line poll] rest IH]; intros acc Hno; cbn [scan].
  - rewrite app_nil_r. reflexivity.
  - assert (Hrest : forall line e, ~ In (line, Exited (Some e)) rest)
      by (intros l e Hin; apply (Hno l e); right; exact Hin).
    cbn [map fst List.filter]. cbv beta.
    destruct poll as [|[err|]].
    + rewrite (IH _ Hrest).
      destruct (strings.Contains line "NVIDIA"); [rewrite <- app_assoc|]; reflexivity.
    + exfalso. apply (Hno line err). left. reflexivity.
    + rewrite (IH _ Hrest).
      destruct (strings.Contains line "NVIDIA"); [rewrite <- app_assoc|]; reflexivity.
Qed.

Lemma ListNVIDIAPCIs_lines (lspciPath : result string goerror) (run : Run)
                           (final : FinalSelect) (lines : list string) :
  ListNVIDIAPCIs lspciPath run final = Ok lines ->
  forall line, In line lines ->
               In line (map fst (stdout run)) /\ strings.Contains line "NVIDIA" = true.
Proof.
  unfold ListNVIDIAPCIs.
  assert (Hnil : @Ok (list string) goerror [] = Ok lines ->
                 forall line, In line lines ->
                   In line (map fst (stdout run)) /\ strings.Contains line "NVIDIA" = true).
  { intros H. injection H as <-. intros line []. }
  destruct lspciPath as [path|e]; [|exact Hnil].
  destruct (String.eqb path ""); [exact Hnil|].
  destruct (new_err run); [discriminate|].
  destruct (start_err run); [discriminate|].
  destruct (scan [] (stdout run)) as [ls|] eqn:Escan; [|discriminate].
  destruct (scan_ok _ _ _ Escan) as [-> _]. cbn [app].
  assert (Hfinal : match final with
                   | WaitDone (Some err) => Fail err
                   | WaitDone None =>
                       Ok (List.filter (fun line => strings.Contains line "NVIDIA")
                                       (map fst (stdout run)))
                   | CtxDone ctxErr => Fail ctxErr
                   end = Ok lines ->
                   forall line, In line lines ->
                     In line (map fst (stdout run)) /\ strings.Contains line "NVIDIA" = true).
  { destruct final as [[err|]|ctxErr]; try discriminate.
    intros H. injection H as <-. intros line Hin. apply filter_In in Hin. exact Hin. }
  destruct (scanner_err run) as [serr|]; [|exact Hfinal].
  destruct (negb (strings.Contains (Error serr) "file already closed"));
    [discriminate | exact Hfinal].
Qed.

(** With [lspci] on the machine, [ListNVIDIAPCIs] succeeds exactly when
    the command is made and started, [Wait] delivers no exit error while
    the output is read nor at the end, the context is not done first, and
    the scanner ends without error or on a closed pipe; the result is
    then the lines of the output that contain [NVIDIA], in their order. *)
Theorem ListNVIDIAPCIs_succeeds_iff (path : string) (run : Run) (final : FinalSelect)
                                    (lines : list string) :
  path <> EmptyString ->
  ListNVIDIAPCIs (Ok path) run final = Ok lines <->
  new_err run = None /\ start_err run = None /\
  (forall line e, ~ In (line, Exited (Some e)) (stdout run)) /\
  match scanner_err run with
  | Some serr => strings.Contains (Error serr) "file already closed" = true
  | None => True
  end /\
  final = WaitDone None /\
  lines = List.filter (fun line => strings.Contains line "NVIDIA") (map fst (stdout run)).
Proof.
  intros Hpath. unfold ListNVIDIAPCIs.
  destruct (String.eqb_spec path "") as [Heq|_]; [contradiction|].
  split.
  - destruct (new_err run); [discriminate|].
    destruct (start_err run); [discriminate|].
    destruct (scan [] (stdout run)) as [ls|] eqn:Escan; [|discriminate].
    destruct (scan_ok _ _ _ Escan) as [-> Hno]. cbn [app].
    intros H.
    assert (Hfinal : match final with
                     | WaitDone (Some err) => Fail err
                     | WaitDone None => Ok (List.filter (fun line => strings.Contains line "NVIDIA") (map fst (stdout run)))
                     | CtxDone ctxErr => Fail ctxErr
                     end = Ok lines /\
                     match scanner_err run with
                     | Some serr => strings.Contains (Error serr) "file already closed" = true
                     | None => True
                     end).
    { destruct (scanner_err run) as [serr|]; [|split; [exact H | exact I]].
      destruct (strings.Contains (Error serr) "file already closed");
        [split; [exact H | reflexivity] | discriminate]. }
    destruct Hfinal as [Hfinal Hserr].
    destruct final as [[err|]|ctxErr]; try discriminate.
    injection Hfinal as <-. repeat split; try assumption; reflexivity.
  - intros (-> & -> & Hno & Hserr & -> & ->).
    rewrite (scan_all _ [] Hno). cbn [app].
    destruct (scanner_err run) as [serr|]; [rewrite Hserr|]; reflexivity.
Qed.

Lemma ListNVIDIAPCIs_succeeds_iff_witness :
  ListNVIDIAPCIs (Ok "/usr/bin/lspci")
    (mkRun None None
       [("00:00.0 Host bridge: Intel Corporation Device 09a2", NotReady);
        ("01:00.0 VGA compatible controller: NVIDIA Corporation Device 2684 (rev a1)", NotReady);
        ("01:00.1 Audio device: NVIDIA Corporation Device 22ba (rev a1)", Exited None)]
       None)
    (WaitDone None)
  = Ok ["01:00.0 VGA compatible controller: NVIDIA Corporation Device 2684 (rev a1)";
        "01:00.1 Audio device: NVIDIA Corporation Device 22ba (rev a1)"].
Proof.
  apply (ListNVIDIAPCIs_succeeds_iff "/usr/bin/lspci"); [discriminate|].
  repeat split; try reflexivity.
  intros line e [H|[H|[H|[]]]]; discriminate.
Defined.

Section NVML.
Context {Return : Type} `{EqDecision Return}.
Variable SUCCESS : Return.
Variable ErrorString : Return -> string.

Lemma first_device_name_ok (devices : list (Device Return)) (name : string) :
  first_device_name Return SUCCESS ErrorString devices = Ok name ->
  (name = EmptyString /\
   forall d, In d devices -> GetName Return d = (EmptyString, SUCCESS)) \/
  (name <> EmptyString /\
   exists before d after,
     devices = (before ++ d :: after)%list /\
     GetName Return d = (name, SUCCESS) /\
     forall d', In d' before -> GetName Return d' = (EmptyString, SUCCESS)).
Proof.
  induction devices as [|d rest IH]; cbn [first_device_name].
  - intros H. injection H as <-. left. split; [reflexivity | intros d []].
  - destruct (GetName Return d) as [n ret] eqn:En.
    destruct (decide (ret = SUCCESS)) as [->|]; [|discriminate].
    destruct (String.eqb_spec n "") as [->|Hn].
    + intros H. destruct (IH H) as [[-> Hall]|[Hne (before & d0 & after & -> & Hd0 & Hbefore)]].
      * left. split; [reflexivity|]. intros d' [<-|Hin]; [exact En | exact (Hall d' Hin)].
      * right. split; [exact Hne|]. exists (d :: before), d0, after.
        split; [reflexivity|]. split; [exact Hd0|].
        intros d' [<-|Hin]; [exact En | exact (Hbefore d' Hin)].
    + intros H. injection H as <-. right. split; [exact Hn|].
      exists [], d, rest. split; [reflexivity|]. split; [exact En | intros d' []].
Qed.

Lemma LoadGPUDeviceName_ok (lib : Lib Return) (name : string) :
  LoadGPUDeviceName Return SUCCESS ErrorString lib = Ok name ->
  Init Return lib = SUCCESS /\ fst (HasNvml Return lib) = true /\
  exists devices,
    GetDevices Return lib = Ok devices /\
    first_device_name Return SUCCESS ErrorString devices = Ok name.
Proof.
  unfold LoadGPUDeviceName.
  destruct (decide (Init Return lib = SUCCESS)) as [Hinit|]; [|discriminate].
  destruct (HasNvml Return lib) as [[|] msg]; cbn [negb]; [|discriminate].
  destruct (GetDevices Return lib) as [devices|]; [|discriminate].
  intros H. split; [exact Hinit|]. split; [reflexivity|]. exists devices. split; [reflexivity | exact H].
Qed.

(** When [LoadGPUDeviceName] returns a name, NVML was initialised and
    found, and the name is the one of the first device whose name is not
    empty, every device before it having answered with an empty name; an
    empty result means that every device answered with an empty name. *)
Theorem LoadGPUDeviceName_first_name (lib : Lib Return) (name : string) :
  LoadGPUDeviceName Return SUCCESS ErrorString lib = Ok name ->
  Init Return lib = SUCCESS /\ fst (HasNvml Return lib) = true /\
  exists devices,
    GetDevices Return lib = Ok devices /\
    ((name = EmptyString /\
      forall d, In d devices -> GetName Return d = (EmptyString, SUCCESS)) \/
     (name <> EmptyString /\
      exists before d after,
        devices = (before ++ d :: after)%list /\
        GetName Return d = (name, SUCCESS) /\
        forall d', In d' before -> GetName Return d' = (EmptyString, SUCCESS))).
Proof.
  intros H. destruct (LoadGPUDeviceName_ok lib name H) as (Hinit & Hnvml & devices & Hdev & Hname).
  split; [exact Hinit|]. split; [exact Hnvml|]. exists devices. split; [exact Hdev|].
  exact (first_device_name_ok devices name Hname).
Qed.

(** [GPUsInstalled] answers true only if [nvidia-smi] is installed,
    [lspci] is on the machine and has printed a line that contains
    [NVIDIA], and NVML was initialised, found and has listed its devices
    without error. *)
Theorem GPUsInstalled_true_only_if (smiInstalled : bool) (lspciPath : result string goerror)
    (run : Run) (final : FinalSelect) (lib : Lib Return) :
  GPUsInstalled Return SUCCESS ErrorString smiInstalled lspciPath run final lib = Ok true ->
  smiInstalled = true /\
  (exists path, lspciPath = Ok path /\ path <> EmptyString) /\
  (exists line, In line (map fst (stdout run)) /\ strings.Contains line "NVIDIA" = true) /\
  Init Return lib = SUCCESS /\ fst (HasNvml Return lib) = true /\
  exists devices, GetDevices Return lib = Ok devices.
Proof.
  unfold GPUsInstalled.
  destruct smiInstalled; cbn [negb]; [|discriminate].
  destruct (ListNVIDIAPCIs lspciPath run final) as [pciDevices|] eqn:El; [|discriminate].
  destruct pciDevices as [|line0 pciDevices]; [discriminate|]. cbn [List.length Nat.eqb].
  destruct (LoadGPUDeviceName Return SUCCESS ErrorString lib) as [name|] eqn:En; [|discriminate].
  intros _. split; [reflexivity|].
  destruct (LoadGPUDeviceName_ok lib name En) as (Hinit & Hnvml & devices & Hdev & _).
  split.
  { destruct lspciPath as [path|e]; [|discriminate El].
    exists path. split; [reflexivity|]. intros ->. discriminate El. }
  split.
  { exists line0.
    exact (ListNVIDIAPCIs_lines lspciPath run final _ El line0 (or_introl eq_refl)). }
  split; [exact Hinit|]. split; [exact Hnvml|]. exists devices. exact Hdev.
Qed.
End NVML.

Lemma LoadGPUDeviceName_first_name_witness :
  let lib := mkLib Z 0 (true, "")
               (Ok [mkDevice Z ("", 0); mkDevice Z ("NVIDIA H100 80GB HBM3", 0);
                    mkDevice Z ("", 999)]) in
  LoadGPUDeviceName Z 0 (fun _ => "ERROR_UNKNOWN") lib = Ok "NVIDIA H100 80GB HBM3" /\
  exists devices,
    GetDevices Z lib = Ok devices /\
    (("NVIDIA H100 80GB HBM3" = EmptyString /\
      forall d, In d devices -> GetName Z d = (EmptyString, 0)) \/
     ("NVIDIA H100 80GB HBM3" <> EmptyString /\
      exists before d after,
        devices = (before ++ d :: after)%list /\
        GetName Z d = ("NVIDIA H100 80GB HBM3", 0) /\
        forall d', In d' before -> GetName Z d' = (EmptyString, 0))).
Proof.
  intros lib.
  assert (H : LoadGPUDeviceName Z 0 (fun _ => "ERROR_UNKNOWN") lib = Ok "NVIDIA H100 80GB HBM3")
    by reflexivity.
  split; [exact H|].
  exact (proj2 (proj2 (LoadGPUDeviceName_first_name 0 (fun _ => "ERROR_UNKNOWN") lib _ H))).
Defined.

Lemma GPUsInstalled_true_only_if_witness :
  let run := mkRun None None
               [("01:00.0 3D controller: NVIDIA Corporation GH100", Exited None)] None in
  let lib := mkLib Z 0 (true, "") (Ok []) in
  GPUsInstalled Z 0 (fun _ => "ERROR_UNKNOWN") true (Ok "/usr/bin/lspci") run (WaitDone None) lib
  = Ok true /\
  exists line, In line (map fst (stdout run)) /\ strings.Contains line "NVIDIA" = true.
Proof.
  intros run lib.
  assert (H : GPUsInstalled Z 0 (fun _ => "ERROR_UNKNOWN") true (Ok "/usr/bin/lspci") run
                (WaitDone None) lib = Ok true) by reflexivity.
  split; [exact H|].
  exact (proj1 (proj2 (proj2 (GPUsInstalled_true_only_if 0 (fun _ => "ERROR_UNKNOWN")
                                 true (Ok "/usr/bin/lspci") run (WaitDone None) lib H)))).
Defined.

End query_more.
